(** * HeritagePlatform: the offline synchronisation layer

    A shallow embedding of the service worker of the front end
    (its route table, written against the Workbox libraries) and of the
    offline bundle routine of the explore view, with the properties the
    specification states about them. *)

From stdpp Require Import gmap strings list fin_maps.
From Stdlib Require Import String Ascii List Arith NArith Lia Sorted DecimalString DecimalN.
Import ListNotations.
Local Open Scope string_scope.
Local Open Scope list_scope.

(* ===================================================================== *)
(** * Part I. JavaScript strings and arrays, as the source uses them     *)
(* ===================================================================== *)

(** [s.startsWith(p)] *)
Definition startsWith (s p : string) : bool := String.prefix p s.

(** [s.endsWith(p)] *)
Definition endsWith (s p : string) : bool :=
  let n := String.length s in
  let m := String.length p in
  (m <=? n)%nat && String.eqb (substring (n - m) m s) p.

(** [s.split(sep)] for a one-character separator: the pieces between the
    separators, empty pieces included ([''.split('/')] is [['']]). *)
Fixpoint split_go (sep : ascii) (s : string) (cur : string) : list string :=
  match s with
  | EmptyString => [cur]
  | String c s' =>
      if Ascii.eqb c sep then cur :: split_go sep s' ""
      else split_go sep s' (cur ++ String c "")
  end.

Definition split (sep : ascii) (s : string) : list string := split_go sep s "".

(** [Boolean] on a string: the empty string is falsy. *)
Definition truthy (s : string) : bool := negb (String.eqb s "").

(** [arr.indexOf(x)], with [None] for -1. *)
Fixpoint indexOf (x : string) (arr : list string) : option nat :=
  match arr with
  | [] => None
  | y :: ys => if String.eqb y x then Some 0 else S <$> indexOf x ys
  end.

(* ===================================================================== *)
(** * Part II. Requests, responses and the Workbox vocabulary            *)
(* ===================================================================== *)

Inductive Method := GET | POST | PUT | PATCH | DELETE | HEAD | OPTIONS.

Inductive RequestMode := navigate | same_origin | no_cors | cors.

Inductive RequestDestination :=
  | dest_empty | dest_document | dest_image | dest_script | dest_style
  | dest_font | dest_audio | dest_video.

Record URL := {
  hostname : string;
  pathname : string;
  searchParams : list (string * string)
}.

Record Request := {
  method : Method;
  mode : RequestMode;
  destination : RequestDestination;
  url : URL;
  body : string
}.

Record Response := { status : nat; payload : string }.

Global Instance Method_eq_dec : EqDecision Method.
Proof. solve_decision. Defined.
Global Instance RequestMode_eq_dec : EqDecision RequestMode.
Proof. solve_decision. Defined.
Global Instance RequestDestination_eq_dec : EqDecision RequestDestination.
Proof. solve_decision. Defined.
Global Instance URL_eq_dec : EqDecision URL.
Proof. solve_decision. Defined.
Global Instance Request_eq_dec : EqDecision Request.
Proof. solve_decision. Defined.
Global Instance Response_eq_dec : EqDecision Response.
Proof. solve_decision. Defined.

(** [url.searchParams.has(name)] *)
Definition searchParams_has (u : URL) (name : string) : bool :=
  existsb (fun kv => String.eqb (fst kv) name) (searchParams u).

(** The plugins the worker instantiates, with the options it passes. *)
Inductive Plugin :=
  | BackgroundSyncPlugin (queueName : string) (maxRetentionTime : N)
  | CacheableResponsePlugin (statuses : list nat)
  | ExpirationPlugin (maxAgeSeconds : N) (maxEntries : nat).

Record StrategyOptions := {
  cacheName : string;
  networkTimeoutSeconds : option N;
  plugins : list Plugin
}.

(** The handlers of the route table: the precache route installed by
    [precacheAndRoute], [createHandlerBoundToURL], and the four strategy
    classes of workbox-strategies. *)
Inductive Strategy :=
  | PrecacheStrategy
  | HandlerBoundToURL (path : string)
  | NetworkOnly (ps : list Plugin)
  | NetworkFirst (o : StrategyOptions)
  | StaleWhileRevalidate (o : StrategyOptions)
  | CacheFirst (o : StrategyOptions).

Global Instance Plugin_eq_dec : EqDecision Plugin.
Proof. solve_decision. Defined.
Global Instance StrategyOptions_eq_dec : EqDecision StrategyOptions.
Proof. solve_decision. Defined.
Global Instance Strategy_eq_dec : EqDecision Strategy.
Proof. solve_decision. Defined.

(** A route: the HTTP method it is registered for, its match callback and
    its handler (a function of the request: the API route builds its
    strategy per request). *)
Record Route := {
  routeMethod : Method;
  matchCallback : Request -> bool;
  handler : Request -> Strategy
}.

(** [registerRoute(capture, handler, method)]. The worker never passes the
    third argument, and workbox-routing then registers the route for its
    default method, GET. *)
Definition defaultMethod : Method := GET.

Definition registerRoute (capture : Request -> bool) (h : Request -> Strategy)
    (m : option Method) : Route :=
  {| routeMethod := default defaultMethod m; matchCallback := capture; handler := h |}.

(* ===================================================================== *)
(** * Part III. The service worker's route table (the source, in order)  *)
(* ===================================================================== *)

Definition apiResourceParts (pathname : string) : option (list string) :=
  let parts := List.filter truthy (split "/" pathname) in
  match indexOf "v1" parts with
  | None => None
  | Some v1Index => Some (drop (v1Index + 1) parts)
  end.

Definition isUserDataPath (pathname : string) : bool :=
  startsWith pathname "/api/v1/auth/" ||
  startsWith pathname "/api/v1/users/" ||
  startsWith pathname "/api/v1/notifications/".

Definition contributionSyncQueue : Plugin :=
  BackgroundSyncPlugin "contributionsQueue" (24 * 60)%N.

Definition apiListStrategy : Strategy :=
  NetworkFirst {|
    cacheName := "api-list-v1";
    networkTimeoutSeconds := Some 5%N;
    plugins := [ CacheableResponsePlugin [0; 200];
                 ExpirationPlugin (60 * 60)%N 200 ] |}.

Definition apiDetailStrategy : Strategy :=
  StaleWhileRevalidate {|
    cacheName := "api-detail-v1";
    networkTimeoutSeconds := None;
    plugins := [ CacheableResponsePlugin [0; 200];
                 ExpirationPlugin (60 * 60 * 24)%N 500 ] |}.

Definition imagesStrategy : Strategy :=
  CacheFirst {|
    cacheName := "images-v1";
    networkTimeoutSeconds := None;
    plugins := [ CacheableResponsePlugin [0; 200];
                 ExpirationPlugin (60 * 60 * 24 * 7)%N 500 ] |}.

Definition mapTilesStrategy : Strategy :=
  CacheFirst {|
    cacheName := "map-tiles-osm";
    networkTimeoutSeconds := None;
    plugins := [ CacheableResponsePlugin [0; 200];
                 ExpirationPlugin (60 * 60 * 24 * 30)%N 2000 ] |}.

(** [isListLike] of the API handler. *)
Definition isListLike (u : URL) : bool :=
  let parts := default [] (apiResourceParts (pathname u)) in
  (length parts <=? 1)%nat || searchParams_has u "page".

Definition apiGetHandler (request : Request) : Strategy :=
  if isListLike (url request) then apiListStrategy else apiDetailStrategy.

Section RouteTable.

(** [self.__WB_MANIFEST] is injected by the build; the match callback of
    the precache route it gives rise to is a parameter. *)
Variable precached : URL -> bool.

Definition precacheRoute : Route :=
  registerRoute (fun request => precached (url request))
                (fun _ => PrecacheStrategy) None.

Definition navigationRoute : Route :=
  registerRoute (fun request => bool_decide (mode request = navigate))
                (fun _ => HandlerBoundToURL "/index.html") None.

Definition contributionsRoute : Route :=
  registerRoute
    (fun request =>
       bool_decide (method request = POST) &&
       startsWith (pathname (url request)) "/api/v1/contributions/")
    (fun _ => NetworkOnly [contributionSyncQueue]) None.

Definition userDataRoute : Route :=
  registerRoute
    (fun request =>
       bool_decide (method request = GET) && isUserDataPath (pathname (url request)))
    (fun _ => NetworkOnly []) None.

Definition apiGetRoute : Route :=
  registerRoute
    (fun request =>
       bool_decide (method request = GET) &&
       startsWith (pathname (url request)) "/api/v1/" &&
       negb (isUserDataPath (pathname (url request))))
    apiGetHandler None.

Definition imagesRoute : Route :=
  registerRoute
    (fun request =>
       bool_decide (destination request = dest_image) ||
       startsWith (pathname (url request)) "/media/")
    (fun _ => imagesStrategy) None.

Definition mapTilesRoute : Route :=
  registerRoute
    (fun request =>
       bool_decide (destination request = dest_image) &&
       (String.eqb (hostname (url request)) "tile.openstreetmap.org" ||
        endsWith (hostname (url request)) ".tile.openstreetmap.org"))
    (fun _ => mapTilesStrategy) None.

(** The routes in the order the worker registers them. *)
Definition routes : list Route :=
  [ precacheRoute; navigationRoute; contributionsRoute; userDataRoute;
    apiGetRoute; imagesRoute; mapTilesRoute ].

(** The router of workbox-routing: among the routes registered for the
    request's method, the first whose match callback accepts the request
    handles it. *)
Definition findMatchingRoute (rs : list Route) (request : Request) : option Route :=
  find (fun r => bool_decide (routeMethod r = method request) && matchCallback r request) rs.

(** The strategy that serves a request; [None] when no route matches and
    the browser performs the request itself. *)
Definition classify (request : Request) : option Strategy :=
  (fun r => handler r request) <$> findMatchingRoute routes request.

End RouteTable.

(* ===================================================================== *)
(** * Part IV. Cache tiers, strategies and the write queue               *)
(* ===================================================================== *)

(** The worker's persistent state: the named caches (each kept in
    insertion order, oldest first) and the background-sync queues. Time
    stamps are in milliseconds, as [Date.now()] gives them. *)
Record CacheEntry := { cachedResponse : Response; storedAt : N }.

Record QueuedMutation := { queuedRequest : Request; enqueuedAt : N }.

Record WorkerState := {
  caches : gmap string (list (URL * CacheEntry));
  queues : gmap string (list QueuedMutation)
}.

Definition emptyState : WorkerState := {| caches := ∅; queues := ∅ |}.

(** What the network does with one request: it answers (with any status)
    after some delay, or the fetch fails for lack of connectivity. *)
Inductive Network :=
  | NetResponse (r : Response) (elapsedMs : N)
  | NetError.

Inductive Source := FromNetwork | FromCache.

Inductive Outcome :=
  | Respond (src : Source) (r : Response)
  | RespondPrecached (path : string)
  | NetworkFailure.

Definition fromNetwork (net : Network) : Outcome :=
  match net with
  | NetResponse r _ => Respond FromNetwork r
  | NetError => NetworkFailure
  end.

Definition cacheableStatuses (p : Plugin) : option (list nat) :=
  match p with CacheableResponsePlugin ss => Some ss | _ => None end.

Definition expirationOptions (p : Plugin) : option (N * nat) :=
  match p with ExpirationPlugin age n => Some (age, n) | _ => None end.

Definition statusIn (r : Response) (ss : list nat) : bool :=
  existsb (Nat.eqb (status r)) ss.

(** The [cacheWillUpdate] step of a strategy, as workbox-cacheable-response
    (a dependency of the worker, not part of the repository) documents it:
    a response is written to a cache only when every
    CacheableResponsePlugin of the strategy lists its status; a strategy
    without such a plugin falls back to its default statuses [dflt]. *)
Definition cacheWillUpdate (dflt : list nat) (ps : list Plugin) (r : Response) : bool :=
  match omap cacheableStatuses ps with
  | [] => statusIn r dflt
  | sss => forallb (statusIn r) sss
  end.

(** Modelled from the spec: the retention rule of section 3 (workbox-expiration
    is not part of the repository). An entry is fresh while
    [now - storedAt <= maxAge]. *)
Definition isFresh (now : N) (ps : list Plugin) (e : CacheEntry) : bool :=
  match head (omap expirationOptions ps) with
  | Some (age, _) => (now - storedAt e <=? age * 1000)%N
  | None => true
  end.

Definition maxEntriesOf (ps : list Plugin) : option nat :=
  snd <$> head (omap expirationOptions ps).

Fixpoint cacheFind (u : URL) (c : list (URL * CacheEntry)) : option CacheEntry :=
  match c with
  | [] => None
  | (k, e) :: c' => if bool_decide (k = u) then Some e else cacheFind u c'
  end.

Definition cacheOf (st : WorkerState) (name : string) : list (URL * CacheEntry) :=
  default [] (caches st !! name).

(** Modelled from the spec: a cache lookup; a stale entry is a miss. *)
Definition cacheMatch (now : N) (o : StrategyOptions) (u : URL) (st : WorkerState)
  : option Response :=
  match cacheFind u (cacheOf st (cacheName o)) with
  | Some e => if isFresh now (plugins o) e then Some (cachedResponse e) else None
  | None => None
  end.

(** Modelled from the spec: a cache write followed by the lazy eviction of
    section 4.2: stale entries go, then the oldest entries until the
    ceiling [maxEntries] holds. *)
Definition cachePut (now : N) (o : StrategyOptions) (u : URL) (r : Response)
    (st : WorkerState) : WorkerState :=
  let c := cacheOf st (cacheName o) in
  let c1 := List.filter (fun ke => negb (bool_decide (fst ke = u))) c
            ++ [(u, {| cachedResponse := r; storedAt := now |})] in
  let c2 := List.filter (fun ke => isFresh now (plugins o) (snd ke)) c1 in
  let c3 := match maxEntriesOf (plugins o) with
            | Some n => drop (length c2 - n) c2
            | None => c2
            end in
  {| caches := <[cacheName o := c3]> (caches st); queues := queues st |}.

Definition cacheUpdate (dflt : list nat) (now : N) (o : StrategyOptions) (u : URL)
    (r : Response) (st : WorkerState) : WorkerState :=
  if cacheWillUpdate dflt (plugins o) r then cachePut now o u r st else st.

(** Modelled from the spec: the [fetchDidFail] step of
    workbox-background-sync: the failed request joins the end of the named
    queue with its enqueue time. *)
Definition pushRequest (now : N) (name : string) (request : Request)
    (st : WorkerState) : WorkerState :=
  {| caches := caches st;
     queues := <[name := default [] (queues st !! name)
                         ++ [{| queuedRequest := request; enqueuedAt := now |}]]>
               (queues st) |}.

Definition fetchDidFail (now : N) (ps : list Plugin) (request : Request)
    (st : WorkerState) : WorkerState :=
  foldl (fun s p => match p with
                    | BackgroundSyncPlugin name _ => pushRequest now name request s
                    | _ => s
                    end) st ps.

Definition timedOut (o : StrategyOptions) (elapsedMs : N) : bool :=
  match networkTimeoutSeconds o with
  | Some t => (t * 1000 <? elapsedMs)%N
  | None => false
  end.

(** Modelled from the spec: the strategies of section 4.2 and the queueing
    rule of section 4.3 (workbox-strategies is not part of the repository).
    The result is what the page receives and the worker's new state. *)
Definition handle (now : N) (s : Strategy) (request : Request) (net : Network)
    (st : WorkerState) : Outcome * WorkerState :=
  let u := url request in
  match s with
  | PrecacheStrategy => (RespondPrecached (pathname u), st)
  | HandlerBoundToURL p => (RespondPrecached p, st)
  | NetworkOnly ps =>
      match net with
      | NetResponse r _ => (Respond FromNetwork r, st)
      | NetError => (NetworkFailure, fetchDidFail now ps request st)
      end
  | NetworkFirst o =>
      match net with
      | NetResponse r ms =>
          if timedOut o ms then
            match cacheMatch now o u st with
            | Some c => (Respond FromCache c, st)
            | None => (NetworkFailure, st)
            end
          else (Respond FromNetwork r, cacheUpdate [0; 200] now o u r st)
      | NetError =>
          match cacheMatch now o u st with
          | Some c => (Respond FromCache c, st)
          | None => (NetworkFailure, st)
          end
      end
  | StaleWhileRevalidate o =>
      let st' := match net with
                 | NetResponse r _ => cacheUpdate [0; 200] now o u r st
                 | NetError => st
                 end in
      match cacheMatch now o u st with
      | Some c => (Respond FromCache c, st')
      | None => (fromNetwork net, st')
      end
  | CacheFirst o =>
      match cacheMatch now o u st with
      | Some c => (Respond FromCache c, st)
      | None =>
          match net with
          | NetResponse r _ => (Respond FromNetwork r, cacheUpdate [200] now o u r st)
          | NetError => (NetworkFailure, st)
          end
      end
  end.

(** The worker's fetch event: the matching route's handler serves the
    request; an unmatched request goes to the network untouched. *)
Definition handleRequest (precached : URL -> bool) (now : N) (request : Request)
    (net : Network) (st : WorkerState) : Outcome * WorkerState :=
  match classify precached request with
  | Some s => handle now s request net st
  | None => (fromNetwork net, st)
  end.

(** A browsing session: fetch events handled one after the other. *)
Record FetchEvent := { evNow : N; evRequest : Request; evNetwork : Network }.

Definition step (precached : URL -> bool) (st : WorkerState) (e : FetchEvent)
  : WorkerState :=
  snd (handleRequest precached (evNow e) (evRequest e) (evNetwork e) st).

Definition run (precached : URL -> bool) (st : WorkerState) (es : list FetchEvent)
  : WorkerState :=
  foldl (step precached) st es.

(** Modelled from the spec: one replay pass of the durable write queue
    (section 4.3; workbox-background-sync is not part of the repository).
    Entries leave the queue oldest first; an entry older than the retention
    window is dropped unsent; a live entry is reissued, and removed when the
    network takes it; the first failure puts the entry back at the head and
    ends the pass. [net] is the network, told what the pass has reissued
    so far. The result lists the requests reissued, in order, the queue
    left behind, and whether the pass ran to the end. *)
Definition retentionMs (maxRetentionTime : N) : N := (maxRetentionTime * 60 * 1000)%N.

Definition isExpired (now maxRetentionTime : N) (e : QueuedMutation) : bool :=
  (retentionMs maxRetentionTime <? now - enqueuedAt e)%N.

Fixpoint replayRequests (now maxRetentionTime : N)
    (net : list Request -> Request -> Network)
    (q : list QueuedMutation) (reissued : list Request)
  : list Request * list QueuedMutation * bool :=
  match q with
  | [] => (reissued, [], true)
  | e :: q' =>
      if isExpired now maxRetentionTime e then
        replayRequests now maxRetentionTime net q' reissued
      else
        match net reissued (queuedRequest e) with
        | NetResponse _ _ =>
            replayRequests now maxRetentionTime net q' (reissued ++ [queuedRequest e])
        | NetError => (reissued ++ [queuedRequest e], e :: q', false)
        end
  end.

(** The connectivity-restoration signal, for the queue a plugin owns. *)
Definition onSync (now : N) (p : Plugin) (net : list Request -> Request -> Network)
    (st : WorkerState) : list Request * WorkerState :=
  match p with
  | BackgroundSyncPlugin name maxRetentionTime =>
      let '(reissued, remaining, _) :=
        replayRequests now maxRetentionTime net (default [] (queues st !! name)) [] in
      (reissued, {| caches := caches st; queues := <[name := remaining]> (queues st) |})
  | _ => ([], st)
  end.

(* ===================================================================== *)
(** * Part V. The contribution form (ContributionForm.vue, services/api)  *)
(* ===================================================================== *)

(** How a call of the axios instance settles. *)
Inductive AxiosResult :=
  | Resolved
  | RejectedWithStatus (code : nat)
  | RejectedNoResponse.

(** axios resolves on a 2xx status and rejects otherwise. *)
Definition settle (o : Outcome) : AxiosResult :=
  match o with
  | Respond _ r =>
      if (200 <=? status r)%nat && (status r <? 300)%nat then Resolved
      else RejectedWithStatus (status r)
  | RespondPrecached _ => Resolved
  | NetworkFailure => RejectedNoResponse
  end.

(** A call through the axios instance of services/api: the request passes
    the service worker; the response interceptor retries a 401 once. *)
Definition apiRequest (precached : URL -> bool) (now : N) (request : Request)
    (net retryNet : Network) (st : WorkerState) : AxiosResult * WorkerState :=
  let (o1, st1) := handleRequest precached now request net st in
  match settle o1 with
  | RejectedWithStatus code =>
      if (code =? 401)%nat then
        let (o2, st2) := handleRequest precached now request retryNet st1 in
        (settle o2, st2)
      else (RejectedWithStatus code, st1)
  | res => (res, st1)
  end.

(** [api.post('/contributions/', contribution)]: the path of the default
    [baseURL], [/api/v1], then the resource. *)
Definition contributionRequest (apiHost contribution : string) : Request :=
  {| method := POST; mode := cors; destination := dest_empty;
     url := {| hostname := apiHost;
               pathname := "/api/v1" ++ "/contributions/";
               searchParams := [] |};
     body := contribution |}.

(** What the form shows once [submitContribution] is over. *)
Inductive SubmitView :=
  | ShowSubmitted        (* submittedSuccess, queuedOffline = false *)
  | ShowQueuedOffline    (* submittedSuccess, queuedOffline = true  *)
  | ShowErrorAlert.      (* alert(t('contribution.actions.error'))  *)

(** [navigator.onLine === false]; [None] stands for an undefined navigator. *)
Definition isOffline (onLine : option bool) : bool :=
  bool_decide (onLine = Some false).

Definition submitContribution (precached : URL -> bool) (now : N)
    (apiHost contribution : string) (onLine : option bool)
    (net retryNet : Network) (st : WorkerState) : SubmitView * WorkerState :=
  let (res, st') :=
    apiRequest precached now (contributionRequest apiHost contribution) net retryNet st in
  match res with
  | Resolved => (ShowSubmitted, st')
  | _ => if isOffline onLine then (ShowQueuedOffline, st') else (ShowErrorAlert, st')
  end.

(* ===================================================================== *)
(** * Part VI. Sample requests, and the notions the statements use       *)
(* ===================================================================== *)

(** A build whose precache manifest lists none of the URLs below. *)
Definition noPrecache : URL -> bool := fun _ => false.

(** A tile of the map view: [https://a.tile.openstreetmap.org/12/2048/1361.png],
    loaded by an [img] element. *)
Definition tileRequest : Request :=
  {| method := GET; mode := no_cors; destination := dest_image;
     url := {| hostname := "a.tile.openstreetmap.org";
               pathname := "/12/2048/1361.png";
               searchParams := [] |};
     body := "" |}.

(** [authService.me()]: [GET /api/v1/users/me/]. *)
Definition profileRequest : Request :=
  {| method := GET; mode := cors; destination := dest_empty;
     url := {| hostname := "localhost"; pathname := "/api/v1/users/me/";
               searchParams := [] |};
     body := "" |}.

(** The same URL opened as a page (typed in the address bar, or reached
    by a redirect). *)
Definition profileNavigation : Request :=
  {| method := GET; mode := navigate; destination := dest_document;
     url := {| hostname := "localhost"; pathname := "/api/v1/users/me/";
               searchParams := [] |};
     body := "" |}.

(** [PUT /api/v1/contributions/7/]. *)
Definition contributionUpdate : Request :=
  {| method := PUT; mode := cors; destination := dest_empty;
     url := {| hostname := "localhost"; pathname := "/api/v1/contributions/7/";
               searchParams := [] |};
     body := "{}" |}.

(** [GET /api/v1/heritage-items/], as a fetch and as a navigation. *)
Definition listRequest : Request :=
  {| method := GET; mode := cors; destination := dest_empty;
     url := {| hostname := "localhost"; pathname := "/api/v1/heritage-items/";
               searchParams := [] |};
     body := "" |}.

Definition listNavigation : Request :=
  {| method := GET; mode := navigate; destination := dest_document;
     url := {| hostname := "localhost"; pathname := "/api/v1/heritage-items/";
               searchParams := [] |};
     body := "" |}.

Definition okResponse : Response := {| status := 200; payload := "ok" |}.

(** ** Notions the statements use *)

(** [s.slice(n)] on a string. *)
Fixpoint sdrop (n : nat) (s : string) : string :=
  match n, s with
  | O, _ => s
  | S n', String _ s' => sdrop n' s'
  | S _, EmptyString => EmptyString
  end.

(** The path segments that follow the API root [/api/v1/]: what is left
    of the path after the root, cut at the slashes, empty pieces dropped. *)
Definition segmentsAfterRoot (pathname : string) : list string :=
  List.filter truthy (split "/" (sdrop 8 pathname)).

(** The statuses a cache tier may hold. *)
Definition cacheableStatus (r : Response) : Prop := status r = 0 \/ status r = 200.

(** Every entry of every named cache holds a response of status 0 or 200. *)
Definition cachesClean (st : WorkerState) : Prop :=
  forall name u e,
    In (u, e) (cacheOf st name) -> cacheableStatus (cachedResponse e).

(** The options a caching strategy was built with. *)
Definition optionsOf (s : Strategy) : option StrategyOptions :=
  match s with
  | NetworkFirst o | StaleWhileRevalidate o | CacheFirst o => Some o
  | _ => None
  end.

(** The four cache tiers of the worker. *)
Definition cacheTiers : list Strategy :=
  [ apiListStrategy; apiDetailStrategy; imagesStrategy; mapTilesStrategy ].

(** A strategy's options guard its cache when the [cacheWillUpdate] step
    lets only responses of status 0 or 200 through. *)
Definition guards (dflt : list nat) (o : StrategyOptions) : Prop :=
  forall r, cacheWillUpdate dflt (plugins o) r = true -> cacheableStatus r.

Definition strategyGuarded (s : Strategy) : Prop :=
  match s with
  | NetworkFirst o | StaleWhileRevalidate o => guards [0; 200] o
  | CacheFirst o => guards [200] o
  | _ => True
  end.

(** ** The write queue: liveness, order, samples *)

(** An entry of the queue is live while it is within the retention window. *)
Definition isLive (now maxRetentionTime : N) (e : QueuedMutation) : bool :=
  negb (isExpired now maxRetentionTime e).

(** The queue holds its entries in the order they were enqueued: the
    enqueue times never decrease from the head on. *)
Definition inSubmissionOrder (q : list QueuedMutation) : Prop :=
  StronglySorted (fun a b => (enqueuedAt a <= enqueuedAt b)%N) q.

(** The retention the worker configures, in minutes. *)
Definition contributionsRetention : N := 24 * 60.

(** Three queued submissions. *)
Definition queuedAt (t : N) (payload : string) : QueuedMutation :=
  {| queuedRequest := contributionRequest "localhost" payload; enqueuedAt := t |}.

Definition sampleQueue : list QueuedMutation :=
  [ queuedAt 1000 "old"; queuedAt 90000000 "A"; queuedAt 90000500 "B" ].

Definition alwaysUp : list Request -> Request -> Network :=
  fun _ _ => NetResponse okResponse 40.

(** A network that takes the first request of a pass and is gone after. *)
Definition downAfterOne : list Request -> Request -> Network :=
  fun sent _ => match sent with [] => NetResponse okResponse 40 | _ => NetError end.

(* ===================================================================== *)
(** * Part VII. The explore view (ExploreView.vue): query and manifest    *)
(* ===================================================================== *)

(** The values the view puts in a query object: strings, [true], and the
    numbers [page] and [page_size]. *)
Inductive ParamValue :=
  | PString (s : string)
  | PTrue
  | PNumber (n : N).

Global Instance ParamValue_eq_dec : EqDecision ParamValue.
Proof. solve_decision. Defined.

(** A query object, as the list of its own properties in insertion order
    (the order [JSON.stringify] and the spread operator follow). *)
Definition Params : Type := list (string * ParamValue).

Record HeritageType := { typeId : N; typeSlug : string }.

(** The refs of the view that the query depends on. *)
Record ExploreView := {
  search : string;
  selectedTypeSlug : string;
  types : list HeritageType;
  selectedCategoryId : string;
  selectedParishId : string;
  selectedMedia : string;
  selectedOrdering : string
}.

(** [String(n)] for a non-negative integer. *)
Definition String_of_N (n : N) : string := NilEmpty.string_of_uint (N.to_uint n).

(** White space, as far as ASCII goes: tab, line feed, vertical tab, form
    feed, carriage return and space. *)
Definition isWhiteSpace (c : ascii) : bool :=
  let n := nat_of_ascii c in
  ((9 <=? n)%nat && (n <=? 13)%nat) || (n =? 32)%nat.

Fixpoint trimStart (s : string) : string :=
  match s with
  | String c s' => if isWhiteSpace c then trimStart s' else s
  | EmptyString => EmptyString
  end.

(** [s.trim()] *)
Definition trim (s : string) : string :=
  String.rev (trimStart (String.rev (trimStart s))).

Definition selectedTypeId (v : ExploreView) : string :=
  if String.eqb (selectedTypeSlug v) "all" then ""
  else match List.find (fun t => String.eqb (typeSlug t) (selectedTypeSlug v)) (types v) with
       | Some t => String_of_N (typeId t)
       | None => ""
       end.

(** [if (cond) params.key = value], on a fresh key. *)
Definition setIf (cond : bool) (key : string) (value : ParamValue) (params : Params) : Params :=
  if cond then params ++ [(key, value)] else params.

Definition currentQuerySnapshot (v : ExploreView) : Params :=
  let params : Params := [] in
  let params := setIf (truthy (trim (search v))) "search" (PString (trim (search v))) params in
  let params := setIf (truthy (selectedTypeId v)) "heritage_type" (PString (selectedTypeId v)) params in
  let params := setIf (truthy (selectedCategoryId v)) "heritage_category"
                      (PString (selectedCategoryId v)) params in
  let params := setIf (truthy (selectedParishId v)) "parish" (PString (selectedParishId v)) params in
  let params := setIf (truthy (selectedOrdering v)) "ordering" (PString (selectedOrdering v)) params in
  let params := setIf (String.eqb (selectedMedia v) "images") "has_images" PTrue params in
  let params := setIf (String.eqb (selectedMedia v) "audio") "has_audio" PTrue params in
  let params := setIf (String.eqb (selectedMedia v) "video") "has_video" PTrue params in
  let params := setIf (String.eqb (selectedMedia v) "documents") "has_documents" PTrue params in
  let params := setIf (String.eqb (selectedMedia v) "text") "text_only" PTrue params in
  params.

(** The keys of a snapshot, in the order the view assigns them. *)
Definition snapshotKeys : list string :=
  [ "search"; "heritage_type"; "heritage_category"; "parish"; "ordering";
    "has_images"; "has_audio"; "has_video"; "has_documents"; "text_only" ].

Definition OFFLINE_AREA_STORAGE_KEY : string := "hp_offline_area".

(* ===================================================================== *)
(** * Part VIII. JSON, as far as the manifest needs it                    *)
(* ===================================================================== *)

(** The quotation mark, code 34. *)
Definition dquote : ascii := Ascii false true false false false true false false.

Definition hexDigit (n : nat) : ascii :=
  ascii_of_nat (if (n <? 10)%nat then 48 + n else 87 + n).

(** [JSON.stringify] writes text in front of what follows ([k]). A string
    is quoted; the quotation mark, the backslash and the control
    characters are escaped. *)
Definition escapeCharOnto (c : ascii) (k : string) : string :=
  let n := nat_of_ascii c in
  if Ascii.eqb c dquote then String "\" (String dquote k)
  else if Ascii.eqb c "\" then String "\" (String "\" k)
  else if (n =? 8)%nat then String "\" (String "b" k)
  else if (n =? 9)%nat then String "\" (String "t" k)
  else if (n =? 10)%nat then String "\" (String "n" k)
  else if (n =? 12)%nat then String "\" (String "f" k)
  else if (n =? 13)%nat then String "\" (String "r" k)
  else if (n <? 32)%nat then
    String "\" (String "u" (String "0" (String "0"
      (String (hexDigit (n / 16)) (String (hexDigit (n mod 16)) k)))))
  else String c k.

Fixpoint escapeOnto (s : string) (k : string) : string :=
  match s with
  | EmptyString => k
  | String c s' => escapeCharOnto c (escapeOnto s' k)
  end.

Definition quoteOnto (s : string) (k : string) : string :=
  String dquote (escapeOnto s (String dquote k)).

Definition valueOnto (v : ParamValue) (k : string) : string :=
  match v with
  | PString s => quoteOnto s k
  | PTrue => String "t" (String "r" (String "u" (String "e" k)))
  | PNumber n => String_of_N n ++ k
  end.

Fixpoint membersOnto {V : Type} (printValue : V -> string -> string)
    (ms : list (string * V)) (k : string) : string :=
  match ms with
  | [] => k
  | (key, v) :: ms' =>
      quoteOnto key (String ":" (printValue v
        match ms' with
        | [] => k
        | _ :: _ => String "," (membersOnto printValue ms' k)
        end))
  end.

Definition objectOnto {V : Type} (printValue : V -> string -> string)
    (ms : list (string * V)) (k : string) : string :=
  String "{" (membersOnto printValue ms (String "}" k)).

(** [JSON.stringify] of a query object. *)
Definition JSON_stringify_params (p : Params) : string := objectOnto valueOnto p "".

(** The values of the manifest: a primitive or a query object. *)
Inductive JValue :=
  | JPrim (v : ParamValue)
  | JObject (o : Params).

Definition jvalueOnto (v : JValue) (k : string) : string :=
  match v with
  | JPrim p => valueOnto p k
  | JObject o => objectOnto valueOnto o k
  end.

Definition JSON_stringify (doc : list (string * JValue)) : string :=
  objectOnto jvalueOnto doc "".

Definition JSON_stringify_value (v : JValue) : string := jvalueOnto v "".

(** The manifest record [{query, downloadedAt, itemCount}]. *)
Record Manifest := { query : Params; downloadedAt : N; itemCount : N }.

Definition manifestDocument (m : Manifest) : list (string * JValue) :=
  [ ("query", JObject (query m));
    ("downloadedAt", JPrim (PNumber (downloadedAt m)));
    ("itemCount", JPrim (PNumber (itemCount m))) ].

(** [JSON.parse], for the documents the view writes: objects whose members
    are strings, [true], non-negative integers, or (at the top) one such
    object, written without white space. Anything else is a SyntaxError
    here ([None]). *)
Definition hexValue (c : ascii) : option nat :=
  let n := nat_of_ascii c in
  if (48 <=? n)%nat && (n <=? 57)%nat then Some (n - 48)
  else if (97 <=? n)%nat && (n <=? 102)%nat then Some (n - 87)
  else if (65 <=? n)%nat && (n <=? 70)%nat then Some (n - 55)
  else None.

Definition consChar (c : ascii) (r : option (string * string)) : option (string * string) :=
  match r with
  | Some (t, rest) => Some (String c t, rest)
  | None => None
  end.

(** The body of a string literal, after its opening quotation mark: the
    decoded string and what follows the closing mark. *)
Fixpoint parseStringBody (s : string) : option (string * string) :=
  match s with
  | EmptyString => None
  | String c s1 =>
      if Ascii.eqb c dquote then Some (EmptyString, s1)
      else if Ascii.eqb c "\" then
        match s1 with
        | EmptyString => None
        | String e s2 =>
            if Ascii.eqb e dquote then consChar dquote (parseStringBody s2)
            else if Ascii.eqb e "\" then consChar "\" (parseStringBody s2)
            else if Ascii.eqb e "/" then consChar "/" (parseStringBody s2)
            else if Ascii.eqb e "b" then consChar (ascii_of_nat 8) (parseStringBody s2)
            else if Ascii.eqb e "t" then consChar (ascii_of_nat 9) (parseStringBody s2)
            else if Ascii.eqb e "n" then consChar (ascii_of_nat 10) (parseStringBody s2)
            else if Ascii.eqb e "f" then consChar (ascii_of_nat 12) (parseStringBody s2)
            else if Ascii.eqb e "r" then consChar (ascii_of_nat 13) (parseStringBody s2)
            else if Ascii.eqb e "u" then
              match s2 with
              | String h1 (String h2 (String h3 (String h4 s3))) =>
                  match hexValue h1, hexValue h2, hexValue h3, hexValue h4 with
                  | Some a, Some b, Some c', Some d =>
                      let code := ((a * 16 + b) * 16 + c') * 16 + d in
                      if (code <? 256)%nat
                      then consChar (ascii_of_nat code) (parseStringBody s3)
                      else None
                  | _, _, _, _ => None
                  end
              | _ => None
              end
            else None
        end
      else if (nat_of_ascii c <? 32)%nat then None
      else consChar c (parseStringBody s1)
  end.

Definition isDigit (c : ascii) : bool :=
  (48 <=? nat_of_ascii c)%nat && (nat_of_ascii c <=? 57)%nat.

Fixpoint spanDigits (s : string) : string * string :=
  match s with
  | String c s' =>
      if isDigit c then let (d, rest) := spanDigits s' in (String c d, rest)
      else (EmptyString, s)
  | EmptyString => (EmptyString, EmptyString)
  end.

(** A number: digits, without a leading zero unless it is zero itself. *)
Definition parseNumber (s : string) : option (N * string) :=
  let (digits, rest) := spanDigits s in
  match NilEmpty.uint_of_string digits with
  | Some d =>
      if Decimal.uint_eq_dec d Decimal.Nil then None
      else if Decimal.uint_eq_dec (Decimal.unorm d) d then Some (N.of_uint d, rest)
      else None
  | None => None
  end.

Definition parsePrim (s : string) : option (ParamValue * string) :=
  match s with
  | String c s1 =>
      if Ascii.eqb c dquote then
        match parseStringBody s1 with
        | Some (t, rest) => Some (PString t, rest)
        | None => None
        end
      else if Ascii.eqb c "t" then
        match s1 with
        | String "r" (String "u" (String "e" rest)) => Some (PTrue, rest)
        | _ => None
        end
      else
        match parseNumber s with
        | Some (n, rest) => Some (PNumber n, rest)
        | None => None
        end
  | EmptyString => None
  end.

Section ObjectParser.

Context {V : Type} (parseValue : string -> option (V * string)).

(** The members of an object, after its opening brace: each a quoted
    key, a colon and a value, separated by commas, up to the closing
    brace. Every member uses up one unit of [fuel]. *)
Fixpoint parseMembers (fuel : nat) (s : string) : option (list (string * V) * string) :=
  match fuel with
  | O => None
  | S fuel' =>
      match s with
      | String c s1 =>
          if Ascii.eqb c dquote then
            match parseStringBody s1 with
            | Some (key, String ":" s2) =>
                match parseValue s2 with
                | Some (v, String "," s3) =>
                    match parseMembers fuel' s3 with
                    | Some (ms, rest) => Some ((key, v) :: ms, rest)
                    | None => None
                    end
                | Some (v, String "}" s3) => Some ([(key, v)], s3)
                | _ => None
                end
            | _ => None
            end
          else None
      | EmptyString => None
      end
  end.

Definition parseObject (s : string) : option (list (string * V) * string) :=
  match s with
  | String "{" (String "}" rest) => Some ([], rest)
  | String "{" s1 => parseMembers (String.length s1) s1
  | _ => None
  end.

End ObjectParser.

Definition parseJValue (s : string) : option (JValue * string) :=
  match s with
  | String "{" _ =>
      match parseObject parsePrim s with
      | Some (o, rest) => Some (JObject o, rest)
      | None => None
      end
  | _ =>
      match parsePrim s with
      | Some (v, rest) => Some (JPrim v, rest)
      | None => None
      end
  end.

Definition JSON_parse (raw : string) : option (list (string * JValue)) :=
  match parseObject parseJValue raw with
  | Some (doc, EmptyString) => Some doc
  | _ => None
  end.

(** [parsed.query]: the member of that name written last. *)
Fixpoint getMember {V : Type} (name : string) (doc : list (string * V)) : option V :=
  match doc with
  | [] => None
  | (key, v) :: doc' =>
      match getMember name doc' with
      | Some v' => Some v'
      | None => if String.eqb key name then Some v else None
      end
  end.

(** A run of the getter of [hasOfflineBundleForCurrentQuery]: its result,
    and the [currentQuerySnapshot] it has read, if it got as far as
    reading it (a raw value was found and parsed). *)
Record ComputedRef := {
  cached : bool;
  dependsOn : option Params
}.

Definition evaluateOfflineCheck (localStorage : gmap string string)
    (v : ExploreView) : ComputedRef :=
  match localStorage !! OFFLINE_AREA_STORAGE_KEY with
  | None => {| cached := false; dependsOn := None |}
  | Some raw =>
      if negb (truthy raw) then {| cached := false; dependsOn := None |}
      else match JSON_parse raw with
           | None => {| cached := false; dependsOn := None |}
           | Some parsed =>
               {| cached :=
                    String.eqb
                      (JSON_stringify_value
                         (default (JObject []) (getMember "query" parsed)))
                      (JSON_stringify_params (currentQuerySnapshot v));
                  dependsOn := Some (currentQuerySnapshot v) |}
           end
  end.

(** [hasOfflineBundleForCurrentQuery.value], as the template reads it. A
    computed runs its getter at the first read ([last] is [None]); later
    it runs it again only when a reactive value that the last run has read
    has changed since then ([invalidated]). [localStorage] is not
    reactive: the one reactive value of the getter is
    [currentQuerySnapshot], which a run that found nothing to parse has
    not read; such a run is never repeated, whatever is stored later. *)
Definition hasOfflineBundleForCurrentQuery (last : option ComputedRef)
    (invalidated : bool) (localStorage : gmap string string) (v : ExploreView)
  : ComputedRef :=
  match last with
  | None => evaluateOfflineCheck localStorage v
  | Some c =>
      match dependsOn c with
      | Some _ => if invalidated then evaluateOfflineCheck localStorage v else c
      | None => c
      end
  end.

(** What follows a value inside an object: a comma or the closing brace. *)
Definition afterValue (k : string) : Prop :=
  exists c r, k = String c r /\ (c = ","%char \/ c = "}"%char).

(** What may follow a number: anything but a digit. *)
Definition nonDigitStart (k : string) : Prop :=
  match k with
  | String c _ => isDigit c = false
  | EmptyString => True
  end.

(* ===================================================================== *)
(** * Part IX. The offline bundle builder ([downloadForOffline])          *)
(* ===================================================================== *)

Record MediaFile := { file : option string }.

(** What the builder reads of an item's detail representation. *)
Record HeritageItemDetail := {
  primary_image : option string;
  images : option (list MediaFile);
  audio : option (list MediaFile);
  video : option (list MediaFile);
  documents : option (list MediaFile)
}.

Record ListItem := { itemId : string }.

(** [response.data] of the list endpoint: a page object (whose [results]
    may or may not be an array), a bare array, or something else. *)
Inductive ListData :=
  | PageObject (results : option (list ListItem)) (next : option string)
  | BareArray (items : list ListItem)
  | OtherData.

(** [Array.isArray(data?.results) ? data.results : Array.isArray(data) ? data : []] *)
Definition resultsOf (data : ListData) : list ListItem :=
  match data with
  | PageObject (Some rs) _ => rs
  | PageObject None _ => []
  | BareArray items => items
  | OtherData => []
  end.

(** [data?.next] is truthy. *)
Definition hasNext (data : ListData) : bool :=
  match data with
  | PageObject _ (Some n) => truthy n
  | _ => false
  end.

(** A settled promise: fulfilled with a value, or rejected. *)
Inductive Fetched (A : Type) :=
  | Ok (a : A)
  | Threw.
Arguments Ok {A} a.
Arguments Threw {A}.

(** The calls the builder makes, each with what came back. *)
Inductive FetchCall :=
  | ListCall (params : Params) (response : Fetched ListData)
  | DetailCall (id : string) (response : Fetched HeritageItemDetail)
  | MediaCall (u : string) (fulfilled : bool).

(** The world the builder talks to; an answer may depend on every call
    made before. [api.get] goes through the API client, whose response
    interceptor removes [token] and [user] from the storage when the
    request meets a 401 and sends it once more; the answer of the call is
    then that of the second attempt. [unauthorized log] tells whether the
    call through the client that follows the calls of [log] meets a 401. *)
Record Backend := {
  listResponse : list FetchCall -> Params -> Fetched ListData;
  detailResponse : list FetchCall -> string -> Fetched HeritageItemDetail;
  mediaResponse : list FetchCall -> string -> bool;
  unauthorized : list FetchCall -> bool
}.

(** Asynchronous code: it extends the log of calls and is fulfilled or
    rejected. *)
Definition Async (A : Type) : Type := list FetchCall -> Fetched A * list FetchCall.

Definition ret {A : Type} (a : A) : Async A := fun log => (Ok a, log).

Definition bind {A B : Type} (m : Async A) (f : A -> Async B) : Async B :=
  fun log =>
    match m log with
    | (Ok a, log') => f a log'
    | (Threw, log') => (Threw, log')
    end.

Notation "x <-- m ;; k" := (bind m (fun x => k))
  (at level 100, m at next level, right associativity).

Definition api_get_list (be : Backend) (params : Params) : Async ListData :=
  fun log =>
    let r := listResponse be log params in (r, log ++ [ListCall params r]).

Definition api_get_detail (be : Backend) (id : string) : Async HeritageItemDetail :=
  fun log =>
    let r := detailResponse be log id in (r, log ++ [DetailCall id r]).

Definition fetch (be : Backend) (u : string) : Async unit :=
  fun log =>
    let ok := mediaResponse be log u in
    (if ok then Ok tt else Threw, log ++ [MediaCall u ok]).

(** [p.catch(() => null)] *)
Definition catch_null (m : Async unit) : Async unit :=
  fun log => (Ok tt, snd (m log)).

(** [Promise.all]: every promise runs; the result is rejected when one is. *)
Fixpoint Promise_all (ms : list (Async unit)) : Async unit :=
  match ms with
  | [] => ret tt
  | m :: ms' =>
      fun log =>
        let (r, log1) := m log in
        let (r', log2) := Promise_all ms' log1 in
        (match r, r' with Ok _, Ok _ => Ok tt | _, _ => Threw end, log2)
  end.

(** The media URLs of a detail: the primary image and the files of the
    four attachment lists, kept when they are non-empty strings. *)
Definition mediaUrls (detail : HeritageItemDetail) : list string :=
  let urls : list (option string) :=
    [primary_image detail]
    ++ map file (default [] (images detail))
    ++ map file (default [] (audio detail))
    ++ map file (default [] (video detail))
    ++ map file (default [] (documents detail)) in
  List.filter truthy (omap id urls).

Definition pageSize : nat := 100.
Definition maxPages : nat := 5.

(** The body of [for (const listItem of results)]. *)
Fixpoint forEachItem (be : Backend) (results : list ListItem) (totalItems : nat)
  : Async nat :=
  match results with
  | [] => ret totalItems
  | listItem :: rest =>
      let totalItems := totalItems + 1 in
      detail <-- api_get_detail be (itemId listItem) ;;
      _ <-- Promise_all (map (fun u => catch_null (fetch be u)) (mediaUrls detail)) ;;
      forEachItem be rest totalItems
  end.

(** [{ ...baseParams, page, page_size: pageSize }] *)
Definition pageParams (baseParams : Params) (page : nat) : Params :=
  baseParams ++ [("page", PNumber (N.of_nat page));
                 ("page_size", PNumber (N.of_nat pageSize))].

(** [while (page <= maxPages) { ... }]; [fuel] bounds the iterations. *)
Fixpoint whileLoop (be : Backend) (baseParams : Params) (fuel page totalItems : nat)
  : Async nat :=
  match fuel with
  | O => ret totalItems
  | S fuel' =>
      if (page <=? maxPages)%nat then
        data <-- api_get_list be (pageParams baseParams page) ;;
        let results := resultsOf data in
        totalItems <-- forEachItem be results totalItems ;;
        if negb (hasNext data) || (length results =? 0)%nat then ret totalItems
        else whileLoop be baseParams fuel' (page + 1) totalItems
      else ret totalItems
  end.

(** The reactive state [downloadForOffline] touches. *)
Record ViewState := {
  localStorage : gmap string string;
  offlineDownloadError : option string;
  offlineDownloading : bool
}.

(** The calls through the API client ([fetch] is not one). *)
Definition isApiCall (c : FetchCall) : bool :=
  match c with
  | MediaCall _ _ => false
  | _ => true
  end.

(** Whether a call of [log] through the API client has met a 401;
    [before] holds the calls made before those of [log]. *)
Fixpoint met401 (be : Backend) (before log : list FetchCall) : bool :=
  match log with
  | [] => false
  | c :: rest =>
      (isApiCall c && unauthorized be before) || met401 be (before ++ [c]) rest
  end.

(** The storage once the calls of [log] are over: what the response
    interceptor of the API client has done to it. *)
Definition storageAfter (be : Backend) (log : list FetchCall)
    (localStorage : gmap string string) : gmap string string :=
  if met401 be [] log then delete "user" (delete "token" localStorage)
  else localStorage.

(** [downloadForOffline]. The filters stay editable while it waits: [v]
    holds them when the download starts and [baseParams] is taken, [later]
    when the loop is over and [currentQuerySnapshot] is read again for the
    manifest. *)
Definition downloadForOffline (be : Backend) (onLine : option bool) (now : N)
    (v later : ExploreView) (st : ViewState) : ViewState * list FetchCall :=
  if isOffline onLine then
    ({| localStorage := localStorage st;
        offlineDownloadError := Some "explore.offline.mustBeOnline";
        offlineDownloading := offlineDownloading st |}, [])
  else
    let baseParams := currentQuerySnapshot v in
    match whileLoop be baseParams (S maxPages) 1 0 [] with
    | (Ok totalItems, log) =>
        ({| localStorage :=
              <[OFFLINE_AREA_STORAGE_KEY :=
                  JSON_stringify (manifestDocument
                    {| query := currentQuerySnapshot later;
                       downloadedAt := now;
                       itemCount := N.of_nat totalItems |})]>
                (storageAfter be log (localStorage st));
            offlineDownloadError := None;
            offlineDownloading := false |}, log)
    | (Threw, log) =>
        ({| localStorage := storageAfter be log (localStorage st);
            offlineDownloadError := Some "explore.offline.downloadError";
            offlineDownloading := false |}, log)
    end.

(** ** The offline badge of the page

    The filters, the reactive state and the storage, the computed behind
    the badge, and whether a value it depends on has changed since its
    last run. *)
Record ExplorePage := {
  filters : ExploreView;
  viewState : ViewState;
  badge : option ComputedRef;
  invalidated : bool
}.

(** The keys of the storage that other code of the application writes:
    the auth store and the response interceptor of the API client
    ([token], [user]), the locale switch ([hp_locale]). *)
Inductive OtherKey := TokenKey | UserKey | LocaleKey.

Definition otherKeyName (k : OtherKey) : string :=
  match k with
  | TokenKey => "token"
  | UserKey => "user"
  | LocaleKey => "hp_locale"
  end.

(** What happens to the page: the refs of the filters are assigned (the
    computed is invalidated when the query object comes out different,
    and possibly, [alsoTriggered], when it does not); a download that was
    started under the filters [v0] comes to its end; other code sets or
    removes one of its keys; the template reads the computed. *)
Inductive PageEvent :=
  | SetFilters (v' : ExploreView) (alsoTriggered : bool)
  | DownloadEnds (be : Backend) (onLine : option bool) (now : N) (v0 : ExploreView)
  | StorageWrite (k : OtherKey) (value : option string)
  | Render.

Definition pageStep (ev : PageEvent) (pg : ExplorePage) : ExplorePage :=
  match ev with
  | SetFilters v' alsoTriggered =>
      {| filters := v'; viewState := viewState pg; badge := badge pg;
         invalidated :=
           invalidated pg || alsoTriggered
           || negb (bool_decide (currentQuerySnapshot v' = currentQuerySnapshot (filters pg))) |}
  | DownloadEnds be onLine now v0 =>
      {| filters := filters pg;
         viewState := fst (downloadForOffline be onLine now v0 (filters pg) (viewState pg));
         badge := badge pg; invalidated := invalidated pg |}
  | StorageWrite k value =>
      {| filters := filters pg;
         viewState :=
           {| localStorage :=
                match value with
                | Some s => <[otherKeyName k := s]> (localStorage (viewState pg))
                | None => delete (otherKeyName k) (localStorage (viewState pg))
                end;
              offlineDownloadError := offlineDownloadError (viewState pg);
              offlineDownloading := offlineDownloading (viewState pg) |};
         badge := badge pg; invalidated := invalidated pg |}
  | Render =>
      {| filters := filters pg; viewState := viewState pg;
         badge := Some (hasOfflineBundleForCurrentQuery (badge pg) (invalidated pg)
                          (localStorage (viewState pg)) (filters pg));
         invalidated := false |}
  end.

Definition pageRun (evs : list PageEvent) (pg : ExplorePage) : ExplorePage :=
  fold_left (fun pg ev => pageStep ev pg) evs pg.

(** The page when it is mounted. *)
Definition mountedPage (v : ExploreView) (st : ViewState) : ExplorePage :=
  {| filters := v; viewState := st; badge := None; invalidated := false |}.

(** What the badge shows. *)
Definition badgeShown (pg : ExplorePage) : bool :=
  match badge pg with
  | Some c => cached c
  | None => false
  end.

(** Readings of the log. *)
Definition listCalls (log : list FetchCall) : list (Params * Fetched ListData) :=
  omap (fun c => match c with ListCall p r => Some (p, r) | _ => None end) log.

Definition detailCalls (log : list FetchCall) : list string :=
  omap (fun c => match c with DetailCall i _ => Some i | _ => None end) log.

(** A list-page fetch or an item-detail fetch that was rejected. *)
Definition isFailedFetch (c : FetchCall) : bool :=
  match c with
  | ListCall _ Threw | DetailCall _ Threw => true
  | _ => false
  end.

Definition isFailedMedia (c : FetchCall) : bool :=
  match c with
  | MediaCall _ false => true
  | _ => false
  end.

(** A page of the list lets the walk go on: it names a next page and holds
    results. *)
Definition continues (r : Fetched ListData) : bool :=
  match r with
  | Ok data => hasNext data && negb (length (resultsOf data) =? 0)%nat
  | Threw => false
  end.

(** The backend honours the page size: no page holds more than the
    hundred results asked for. *)
Definition honoursPageSize (be : Backend) : Prop :=
  forall log params data,
    listResponse be log params = Ok data -> length (resultsOf data) <= pageSize.

(** The list calls of a page walk that starts at [page]: the pages are
    asked for one after the other with the fixed page size, none beyond
    [maxPages], and a call is followed by another only when its page
    named a next page and held results. *)
Fixpoint walked (baseParams : Params) (page : nat)
    (calls : list (Params * Fetched ListData)) : Prop :=
  match calls with
  | [] => True
  | (p, r) :: rest =>
      p = pageParams baseParams page /\
      page <= maxPages /\
      (rest <> [] -> continues r = true) /\
      walked baseParams (S page) rest
  end.

(** No list or detail fetch of the log was rejected. *)
Definition noFailedFetch (log : list FetchCall) : Prop :=
  existsb isFailedFetch log = false.

(* ===================================================================== *)
(** * Part X. Sample views and backends                                   *)
(* ===================================================================== *)

(** The view with the search term "church" and the default ordering. *)
Definition churchView : ExploreView :=
  {| search := "church"; selectedTypeSlug := "all"; types := [];
     selectedCategoryId := ""; selectedParishId := ""; selectedMedia := "";
     selectedOrdering := "-created_at" |}.

(** The same search narrowed to items with images. *)
Definition churchImagesView : ExploreView :=
  {| search := "church"; selectedTypeSlug := "all"; types := [];
     selectedCategoryId := ""; selectedParishId := ""; selectedMedia := "images";
     selectedOrdering := "-created_at" |}.

Definition freshState : ViewState :=
  {| localStorage := ∅; offlineDownloadError := None; offlineDownloading := true |}.

Definition sampleItem : ListItem := {| itemId := "42" |}.

Definition sampleDetail : HeritageItemDetail :=
  {| primary_image := Some "/media/p.png";
     images := Some [ {| file := Some "/media/a.png" |}; {| file := None |} ];
     audio := None; video := Some []; documents := Some [ {| file := Some "" |} ] |}.

(** Two pages of two items each; every media fetch fails. *)
Definition mediaDownBackend : Backend :=
  {| listResponse := fun log _ =>
       Ok (PageObject (Some [sampleItem; sampleItem])
             (if (length (listCalls log) =? 0)%nat then Some "/api/v1/heritage-items/?page=2"
              else None));
     detailResponse := fun _ _ => Ok sampleDetail;
     mediaResponse := fun _ _ => false;
     unauthorized := fun _ => false |}.

(** An endpoint that answers with a bare array of 501 items. *)
Definition oversizedBackend : Backend :=
  {| listResponse := fun _ _ => Ok (BareArray (repeat sampleItem 501));
     detailResponse := fun _ _ => Ok sampleDetail;
     mediaResponse := fun _ _ => true;
     unauthorized := fun _ => false |}.

(** The detail fetch of the second item is rejected. *)
Definition detailDownBackend : Backend :=
  {| listResponse := fun _ _ => Ok (PageObject (Some [sampleItem; sampleItem]) None);
     detailResponse := fun log _ =>
       if (length (detailCalls log) =? 0)%nat then Ok sampleDetail else Threw;
     mediaResponse := fun _ _ => true;
     unauthorized := fun _ => false |}.

(** A state that holds the manifest of an earlier download. *)
Definition earlierManifest : string :=
  JSON_stringify (manifestDocument
    {| query := currentQuerySnapshot churchView; downloadedAt := 1000; itemCount := 7 |}).

Definition stateWithManifest : ViewState :=
  {| localStorage := {[ OFFLINE_AREA_STORAGE_KEY := earlierManifest ]};
     offlineDownloadError := None; offlineDownloading := true |}.

(** The same with a signed-in user. *)
Definition signedInWithManifest : ViewState :=
  {| localStorage :=
       <["token" := "abc"]>
         (<["user" := "{}"]> {[ OFFLINE_AREA_STORAGE_KEY := earlierManifest ]});
     offlineDownloadError := None; offlineDownloading := true |}.

(** The token has expired by the time the details are asked for: the
    detail fetch meets a 401, is sent once more and is rejected. *)
Definition expiredTokenBackend : Backend :=
  {| listResponse := fun _ _ => Ok (PageObject (Some [sampleItem]) None);
     detailResponse := fun _ _ => Threw;
     mediaResponse := fun _ _ => true;
     unauthorized := fun log => negb (length (listCalls log) =? 0)%nat |}.

(** The computed of a sound page: a run that read nothing answered false;
    the snapshot a run has read is the current one as long as nothing has
    invalidated the computed, and an answer true then still holds of what
    is stored. *)
Definition badgeSound (pg : ExplorePage) : Prop :=
  forall c, badge pg = Some c ->
    match dependsOn c with
    | None => cached c = false
    | Some seen =>
        invalidated pg = false ->
        seen = currentQuerySnapshot (filters pg) /\
        (cached c = true ->
         cached (evaluateOfflineCheck (localStorage (viewState pg)) (filters pg)) = true)
    end.

(* ===================================================================== *)
(** * Part X.1. More of the worker: sample requests                      *)
(* ===================================================================== *)

(** [GET /api/v1/heritage-items/42/], with and without the closing slash. *)
Definition detailUrl : URL :=
  {| hostname := "localhost"; pathname := "/api/v1/heritage-items/42";
     searchParams := [] |}.

(** A stylesheet of another origin: no route of the worker wants it. *)
Definition fontRequest : Request :=
  {| method := GET; mode := no_cors; destination := dest_style;
     url := {| hostname := "fonts.example.org"; pathname := "/css/family.css";
               searchParams := [] |};
     body := "" |}.

(** An uploaded picture, fetched by the bundle builder (not as an image). *)
Definition mediaFileRequest : Request :=
  {| method := GET; mode := cors; destination := dest_empty;
     url := {| hostname := "localhost"; pathname := "/media/uploads/a.png";
               searchParams := [] |};
     body := "" |}.

(* ===================================================================== *)
(** * Part X.2. More of the explore view: the route query                *)
(* ===================================================================== *)

(** [value || undefined] *)
Definition orUndefined (s : string) : option string :=
  if truthy s then Some s else None.

(** One property of the query handed to [router.replace]: a string is
    written; [undefined] leaves the key out of the new location. *)
Definition withQuery (key : string) (value : option string)
    (q : gmap string string) : gmap string string :=
  match value with
  | Some s => <[key := s]> q
  | None => delete key q
  end.

(** [syncQuery]: the new [route.query], from the old one and the refs. *)
Definition syncQuery (routeQuery : gmap string string) (v : ExploreView)
  : gmap string string :=
  let q := routeQuery in
  let q := withQuery "search" (orUndefined (trim (search v))) q in
  let q := withQuery "type"
             (if String.eqb (selectedTypeSlug v) "all" then None
              else Some (selectedTypeSlug v)) q in
  let q := withQuery "category" (orUndefined (selectedCategoryId v)) q in
  let q := withQuery "parish" (orUndefined (selectedParishId v)) q in
  let q := withQuery "media" (orUndefined (selectedMedia v)) q in
  let q := withQuery "sort"
             (if String.eqb (selectedOrdering v) "-created_at" then None
              else Some (selectedOrdering v)) q in
  q.

(** [q.key?.toString() || dflt], for a key that occurs at most once in
    the location. *)
Definition queryOr (q : gmap string string) (key dflt : string) : string :=
  match q !! key with
  | Some s => if truthy s then s else dflt
  | None => dflt
  end.

(** The watcher of [route.query] (and the initial values of the refs). *)
Definition watchRouteQuery (q : gmap string string) (v : ExploreView) : ExploreView :=
  {| search := queryOr q "search" "";
     selectedTypeSlug := queryOr q "type" "all";
     types := types v;
     selectedCategoryId := queryOr q "category" "";
     selectedParishId := queryOr q "parish" "";
     selectedMedia := queryOr q "media" "";
     selectedOrdering := queryOr q "sort" "-created_at" |}.

(** [clearFilters]: the refs it resets; [syncQuery] and the watcher follow. *)
Definition clearedFilters (v : ExploreView) : ExploreView :=
  {| search := search v;
     selectedTypeSlug := "all";
     types := types v;
     selectedCategoryId := "";
     selectedParishId := "";
     selectedMedia := "";
     selectedOrdering := "-created_at" |}.

(** The router drops a [replace] to the location it is at: the route is
    not changed and the watcher of [route.query] does not run. *)
Definition clearFilters (routeQuery : gmap string string) (v : ExploreView)
  : gmap string string * ExploreView :=
  let v := clearedFilters v in
  let q := syncQuery routeQuery v in
  if bool_decide (q = routeQuery) then (routeQuery, v)
  else (q, watchRouteQuery q v).

(** The keys [syncQuery] owns. *)
Definition syncedKeys : list string :=
  [ "search"; "type"; "category"; "parish"; "media"; "sort" ].

(** A view as a user may leave it: a padded search, a type, a parish. *)
Definition filteredView : ExploreView :=
  {| search := "  old church "; selectedTypeSlug := "tangible";
     types := [ {| typeId := 3; typeSlug := "tangible" |};
                {| typeId := 4; typeSlug := "intangible" |} ];
     selectedCategoryId := ""; selectedParishId := "12"; selectedMedia := "audio";
     selectedOrdering := "-view_count" |}.

(** A search typed with blanks around it, at the location of the same
    search without them. *)
Definition paddedSearchView : ExploreView :=
  {| search := " church "; selectedTypeSlug := "all"; types := [];
     selectedCategoryId := ""; selectedParishId := ""; selectedMedia := "";
     selectedOrdering := "-created_at" |}.

Definition churchLocation : gmap string string := {[ "search" := "church" ]}.

(** Readings of the builder's log. *)
Definition mediaCalls (log : list FetchCall) : list string :=
  omap (fun c => match c with MediaCall u _ => Some u | _ => None end) log.

Definition fetchedDetails (log : list FetchCall) : list HeritageItemDetail :=
  omap (fun c => match c with DetailCall _ (Ok d) => Some d | _ => None end) log.

(** The items of the pages that came back, in order. *)
Definition listedItems (calls : list (Params * Fetched ListData)) : list ListItem :=
  flat_map (fun pr => match snd pr with
                      | Ok data => resultsOf data
                      | Threw => []
                      end) calls.

(* ===================================================================== *)
(** * Part X.3. The API client (services/api): the interceptors          *)
(* ===================================================================== *)

Module ApiClient.

Definition LOCALE_STORAGE_KEY : string := "hp_locale".
Definition DEFAULT_LOCALE : string := "es".

(** [config.data]: a [FormData], or anything else. *)
Inductive RequestData :=
  | FormData (entries : list (string * string))
  | OtherData (text : string).

(** What the interceptors read and write of a request config. [headers]
    is an object keyed by the header names as they are written. *)
Record AxiosRequestConfig := {
  url : string;
  headers : option (gmap string string);
  data : RequestData;
  __isRetry : bool
}.

(** [localStorage.getItem(key) || dflt] *)
Definition getItemOr (localStorage : gmap string string) (key dflt : string) : string :=
  match localStorage !! key with
  | Some s => if truthy s then s else dflt
  | None => dflt
  end.

(** The request interceptor (in a browser, where [FormData] is defined). *)
Definition requestInterceptor (localStorage : gmap string string)
    (config : AxiosRequestConfig) : AxiosRequestConfig :=
  let headers := default ∅ (headers config) in
  let headers :=
    match localStorage !! "token" with
    | Some token =>
        if truthy token then <["Authorization" := ("Bearer " ++ token)%string]> headers
        else headers
    | None => headers
    end in
  let locale := getItemOr localStorage LOCALE_STORAGE_KEY DEFAULT_LOCALE in
  let headers := <["Accept-Language" := locale]> headers in
  let headers :=
    match data config with
    | FormData _ => delete "content-type" (delete "Content-Type" headers)
    | OtherData _ => headers
    end in
  {| url := url config; headers := Some headers; data := data config;
     __isRetry := __isRetry config |}.

(** The headers of a config, none when it has no [headers]. *)
Definition headersOf (config : AxiosRequestConfig) : gmap string string :=
  default ∅ (headers config).

(** The [Authorization] value made of the stored token, if there is one. *)
Definition bearer (localStorage : gmap string string) : option string :=
  match localStorage !! "token" with
  | Some token => if truthy token then Some ("Bearer " ++ token)%string else None
  | None => None
  end.

Definition isFormData (d : RequestData) : bool :=
  match d with FormData _ => true | OtherData _ => false end.

(** What came back for a request that was sent: a status, or nothing. *)
Inductive Reply :=
  | Status (status : nat)
  | NoResponse.

Definition unauthorized (r : Reply) : bool :=
  match r with
  | Status status => (status =? 401)%nat
  | NoResponse => false
  end.

(** The rejection of a request: [error.response?.status] and [error.config]. *)
Record AxiosError := {
  response : option nat;
  config : option AxiosRequestConfig
}.

(** The browser's storage and the requests sent so far. *)
Record ClientState := {
  localStorage : gmap string string;
  sent : list AxiosRequestConfig
}.

(** The server: its answer may depend on the requests sent before. *)
Definition Server : Type := list AxiosRequestConfig -> AxiosRequestConfig -> Reply.

(** One pass of a config through the request interceptor and the network.
    axios rejects every status outside 2xx, and the rejection carries the
    config that was sent, with the headers the interceptor has set on it,
    as [error.config]. *)
Definition dispatchRequest (server : Server) (config : AxiosRequestConfig)
    (st : ClientState) : (nat + AxiosError) * ClientState :=
  let config := requestInterceptor (localStorage st) config in
  let st' := {| localStorage := localStorage st; sent := sent st ++ [config] |} in
  match server (sent st) config with
  | Status status =>
      if (200 <=? status)%nat && (status <? 300)%nat then (inl status, st')
      else (inr {| response := Some status; config := Some config |}, st')
  | NoResponse => (inr {| response := None; config := Some config |}, st')
  end.

Definition markRetry (config : AxiosRequestConfig) : AxiosRequestConfig :=
  {| url := url config; headers := headers config; data := data config;
     __isRetry := true |}.

(** [api.request]: the dispatch, then the response interceptor, whose
    rejection handler calls [api.request] again. [None]: out of fuel. *)
Fixpoint request (fuel : nat) (server : Server) (config : AxiosRequestConfig)
    (st : ClientState) : option ((nat + AxiosError) * ClientState) :=
  match fuel with
  | O => None
  | S fuel' =>
      match dispatchRequest server config st with
      | (inl response, st1) => Some (inl response, st1)
      | (inr error, st1) =>
          if bool_decide (response error = Some 401) then
            let st2 := {| localStorage :=
                            delete "user" (delete "token" (localStorage st1));
                          sent := sent st1 |} in
            match ApiClient.config error with
            | Some c =>
                if negb (__isRetry c) then request fuel' server (markRetry c) st2
                else Some (inr error, st2)
            | None => Some (inr error, st2)
            end
          else Some (inr error, st1)
      end
  end.

(** A config as the services make it: no header of its own. *)
Definition sampleConfig : AxiosRequestConfig :=
  {| url := "/auth/me/"; headers := None; data := OtherData ""; __isRetry := false |}.

Definition signedInStorage : gmap string string :=
  <["token" := "abc"]> (<["user" := "{}"]> (<["hp_locale" := "qu"]> ∅)).

(** A server that refuses every request. *)
Definition refusingServer : Server := fun _ _ => Status 401.

End ApiClient.

(* ===================================================================== *)
(** * Part X.4. The contribution wizard (ContributionForm.vue)           *)
(* ===================================================================== *)

Module ContributionForm.

Definition totalSteps : nat := 5.

Inductive ContributionResourceType := Image | Audio | Video | Document | Text.

(** The value of the type as the script writes it. *)
Definition typeName (ty : ContributionResourceType) : string :=
  match ty with
  | Image => "image"
  | Audio => "audio"
  | Video => "video"
  | Document => "document"
  | Text => "text"
  end.

(** A [File]: its name, its media type and its content. *)
Record File := { name : string; mediaType : string; content : string }.

(** The four lists of [files] and of the contribution. *)
Record Media (A : Type) := {
  images : list A;
  audio : list A;
  video : list A;
  documents : list A
}.
Arguments images {A} _.
Arguments audio {A} _.
Arguments video {A} _.
Arguments documents {A} _.

Definition noMedia {A : Type} : Media A :=
  {| images := []; audio := []; video := []; documents := [] |}.

(** ** [/<[^>]*>/g]

    A match starts at a [<] that has a [>] somewhere after it and ends at
    the first such [>]; a [<] with no [>] after it starts no match. *)
Fixpoint hasGt (s : string) : bool :=
  match s with
  | EmptyString => false
  | String c s' => if Ascii.eqb c ">" then true else hasGt s'
  end.

(** The scan, outside a match ([inTag = false]) or inside one. *)
Fixpoint removeTags (inTag : bool) (s : string) : string :=
  match s with
  | EmptyString => EmptyString
  | String c s' =>
      if inTag then
        if Ascii.eqb c ">" then removeTags false s' else removeTags true s'
      else if Ascii.eqb c "<" && hasGt s' then removeTags true s'
      else String c (removeTags false s')
  end.

(** [narrativeText.value.replace(/<[^>]*>/g, '').trim()] *)
Definition plainText (narrativeText : string) : string :=
  trim (removeTags false narrativeText).

(** A narrative that shows nothing: white space and tags only. *)
Inductive markupOnly : string -> Prop :=
  | markup_end : markupOnly ""
  | markup_space c s :
      isWhiteSpace c = true -> markupOnly s -> markupOnly (String c s)
  | markup_tag body s :
      hasGt body = false -> markupOnly s ->
      markupOnly ("<" ++ body ++ ">" ++ s).

(** ** [uploadOneFile] *)

(** [xhr.response] of the media endpoint (a JSON value), as far as the
    script looks into it: [id] is the member of that name when it is a
    string. *)
Inductive XhrData :=
  | DataNull
  | DataString (s : string)
  | DataObject (id : option string)
  | DataOther.

(** The event that settles the promise: the first of [readyState] DONE
    (with [xhr.status] and [xhr.response]), [error], [timeout], [abort]. *)
Inductive XhrEvent :=
  | XhrDone (status : nat) (data : XhrData)
  | XhrError
  | XhrTimeout
  | XhrAbort.

(** What the promise is rejected with. *)
Inductive UploadError :=
  | ErrResponse (status : nat) (data : XhrData)   (* { response: { status, data } } *)
  | ErrMessage (message : string)                  (* { message } *)
  | ErrCanceled.                                   (* { code: 'ERR_CANCELED' } *)

(** The promise of [uploadOneFile], by the event that settles it. *)
Definition uploadOneFile (e : XhrEvent) : string + UploadError :=
  match e with
  | XhrDone status data =>
      if (200 <=? status)%nat && (status <? 300)%nat then
        match data with
        | DataObject (Some id) =>
            if truthy id then inl id else inr (ErrResponse status data)
        | _ => inr (ErrResponse status data)
        end
      else inr (ErrResponse status data)
  | XhrError => inr (ErrMessage "Network error")
  | XhrTimeout => inr (ErrMessage "Upload timed out")
  | XhrAbort => inr ErrCanceled
  end.

(** The request [uploadOneFile] sends: the fields of its form data. *)
Record UploadRequest := { file : File; file_type : string }.

(** The upload [nextStep] awaits, and the branch that awaits it. *)
Record PendingUpload := { ofText : bool; request : UploadRequest }.

(** ** The state

    The refs of the script that steps and uploads read or write. The
    fields edited at the later steps (title, description, parish, ...),
    the map, the previews, the progress figure and the AI draft are not
    read by any function below and are left out; [upload] is the promise
    [nextStep] awaits, if any, and [step1UploadXhr] tells whether the ref
    of that name holds a request. *)
Record Form := {
  currentStep : nat;
  submittedSuccess : bool;
  queuedOffline : bool;
  resourceType : ContributionResourceType;
  contribution : Media string;
  files : Media File;
  submitting : bool;
  step1Error : string;
  step1Uploading : bool;
  step1UploadXhr : bool;
  narrativeText : string;
  upload : option PendingUpload
}.

Definition set_currentStep (x : nat) (st : Form) : Form :=
  {| currentStep := x; submittedSuccess := submittedSuccess st;
     queuedOffline := queuedOffline st; resourceType := resourceType st;
     contribution := contribution st; files := files st; submitting := submitting st;
     step1Error := step1Error st; step1Uploading := step1Uploading st;
     step1UploadXhr := step1UploadXhr st; narrativeText := narrativeText st;
     upload := upload st |}.

Definition set_submittedSuccess (x : bool) (st : Form) : Form :=
  {| currentStep := currentStep st; submittedSuccess := x;
     queuedOffline := queuedOffline st; resourceType := resourceType st;
     contribution := contribution st; files := files st; submitting := submitting st;
     step1Error := step1Error st; step1Uploading := step1Uploading st;
     step1UploadXhr := step1UploadXhr st; narrativeText := narrativeText st;
     upload := upload st |}.

Definition set_queuedOffline (x : bool) (st : Form) : Form :=
  {| currentStep := currentStep st; submittedSuccess := submittedSuccess st;
     queuedOffline := x; resourceType := resourceType st;
     contribution := contribution st; files := files st; submitting := submitting st;
     step1Error := step1Error st; step1Uploading := step1Uploading st;
     step1UploadXhr := step1UploadXhr st; narrativeText := narrativeText st;
     upload := upload st |}.

Definition set_resourceType (x : ContributionResourceType) (st : Form) : Form :=
  {| currentStep := currentStep st; submittedSuccess := submittedSuccess st;
     queuedOffline := queuedOffline st; resourceType := x;
     contribution := contribution st; files := files st; submitting := submitting st;
     step1Error := step1Error st; step1Uploading := step1Uploading st;
     step1UploadXhr := step1UploadXhr st; narrativeText := narrativeText st;
     upload := upload st |}.

Definition set_contribution (x : Media string) (st : Form) : Form :=
  {| currentStep := currentStep st; submittedSuccess := submittedSuccess st;
     queuedOffline := queuedOffline st; resourceType := resourceType st;
     contribution := x; files := files st; submitting := submitting st;
     step1Error := step1Error st; step1Uploading := step1Uploading st;
     step1UploadXhr := step1UploadXhr st; narrativeText := narrativeText st;
     upload := upload st |}.

Definition set_files (x : Media File) (st : Form) : Form :=
  {| currentStep := currentStep st; submittedSuccess := submittedSuccess st;
     queuedOffline := queuedOffline st; resourceType := resourceType st;
     contribution := contribution st; files := x; submitting := submitting st;
     step1Error := step1Error st; step1Uploading := step1Uploading st;
     step1UploadXhr := step1UploadXhr st; narrativeText := narrativeText st;
     upload := upload st |}.

Definition set_submitting (x : bool) (st : Form) : Form :=
  {| currentStep := currentStep st; submittedSuccess := submittedSuccess st;
     queuedOffline := queuedOffline st; resourceType := resourceType st;
     contribution := contribution st; files := files st; submitting := x;
     step1Error := step1Error st; step1Uploading := step1Uploading st;
     step1UploadXhr := step1UploadXhr st; narrativeText := narrativeText st;
     upload := upload st |}.

Definition set_step1Error (x : string) (st : Form) : Form :=
  {| currentStep := currentStep st; submittedSuccess := submittedSuccess st;
     queuedOffline := queuedOffline st; resourceType := resourceType st;
     contribution := contribution st; files := files st; submitting := submitting st;
     step1Error := x; step1Uploading := step1Uploading st;
     step1UploadXhr := step1UploadXhr st; narrativeText := narrativeText st;
     upload := upload st |}.

Definition set_step1Uploading (x : bool) (st : Form) : Form :=
  {| currentStep := currentStep st; submittedSuccess := submittedSuccess st;
     queuedOffline := queuedOffline st; resourceType := resourceType st;
     contribution := contribution st; files := files st; submitting := submitting st;
     step1Error := step1Error st; step1Uploading := x;
     step1UploadXhr := step1UploadXhr st; narrativeText := narrativeText st;
     upload := upload st |}.

Definition set_step1UploadXhr (x : bool) (st : Form) : Form :=
  {| currentStep := currentStep st; submittedSuccess := submittedSuccess st;
     queuedOffline := queuedOffline st; resourceType := resourceType st;
     contribution := contribution st; files := files st; submitting := submitting st;
     step1Error := step1Error st; step1Uploading := step1Uploading st;
     step1UploadXhr := x; narrativeText := narrativeText st; upload := upload st |}.

Definition set_narrativeText (x : string) (st : Form) : Form :=
  {| currentStep := currentStep st; submittedSuccess := submittedSuccess st;
     queuedOffline := queuedOffline st; resourceType := resourceType st;
     contribution := contribution st; files := files st; submitting := submitting st;
     step1Error := step1Error st; step1Uploading := step1Uploading st;
     step1UploadXhr := step1UploadXhr st; narrativeText := x; upload := upload st |}.

Definition set_upload (x : option PendingUpload) (st : Form) : Form :=
  {| currentStep := currentStep st; submittedSuccess := submittedSuccess st;
     queuedOffline := queuedOffline st; resourceType := resourceType st;
     contribution := contribution st; files := files st; submitting := submitting st;
     step1Error := step1Error st; step1Uploading := step1Uploading st;
     step1UploadXhr := step1UploadXhr st; narrativeText := narrativeText st;
     upload := x |}.

(** The form when the component is set up. *)
Definition initialForm : Form :=
  {| currentStep := 1; submittedSuccess := false; queuedOffline := false;
     resourceType := Text; contribution := noMedia; files := noMedia;
     submitting := false; step1Error := ""; step1Uploading := false;
     step1UploadXhr := false; narrativeText := ""; upload := None |}.

(** [resourceType === 'image' ? [id] : []], and so on for the four lists. *)
Definition mediaOf (ty : ContributionResourceType) (id : string) : Media string :=
  {| images := match ty with Image => [id] | _ => [] end;
     audio := match ty with Audio => [id] | _ => [] end;
     video := match ty with Video => [id] | _ => [] end;
     documents := match ty with Document => [id] | _ => [] end |}.

(** [files.images[0]], and so on by the resource type; [undefined] for text. *)
Definition selectedFile (st : Form) : option File :=
  match resourceType st with
  | Image => head (images (files st))
  | Audio => head (audio (files st))
  | Video => head (video (files st))
  | Document => head (documents (files st))
  | Text => None
  end.

(** [new File([blob], "narrative_text.html", { type: 'text/html' })] *)
Definition narrativeFile (narrativeText : string) : File :=
  {| name := "narrative_text.html"; mediaType := "text/html"; content := narrativeText |}.

(** The message of the [catch] of the file branch. *)
Definition uploadErrorMessage (err : UploadError) : string :=
  match err with
  | ErrResponse status data =>
      if (status =? 0)%nat then "contribution.step1.errors.uploadFailed"
      else trim ("Failed to upload (" ++ String_of_N (N.of_nat status) ++ "). "
                 ++ match data with DataString s => s | _ => "" end)
  | _ => "contribution.step1.errors.uploadFailed"
  end.

(** [nextStep], up to its [await]. *)
Definition nextStep (st : Form) : Form :=
  if submitting st then st
  else if (currentStep st =? 1)%nat then
    if step1Uploading st then st
    else
      match resourceType st with
      | Text =>
          if negb (truthy (plainText (narrativeText st))) then st
          else
            let st := set_step1Uploading true st in
            let st := set_step1Error "" st in
            let request := {| file := narrativeFile (narrativeText st);
                              file_type := "document" |} in
            let st := set_step1UploadXhr true st in
            set_upload (Some {| ofText := true; request := request |}) st
      | _ =>
          match selectedFile st with
          | None => set_step1Error "contribution.step1.errors.selectFile" st
          | Some f =>
              let st := set_step1Uploading true st in
              let st := set_step1UploadXhr false st in
              let st := set_step1Error "" st in
              let request := {| file := f; file_type := typeName (resourceType st) |} in
              let st := set_step1UploadXhr true st in
              set_upload (Some {| ofText := false; request := request |}) st
          end
      end
  else
    let st := set_step1Error "" st in
    if (currentStep st <? totalSteps)%nat then set_currentStep (currentStep st + 1) st
    else st.

(** [nextStep] from its [await] on, once the upload has settled. *)
Definition uploadSettled (e : XhrEvent) (st : Form) : Form :=
  match upload st with
  | None => st
  | Some pending =>
      let st := set_upload None st in
      if ofText pending then
        let st :=
          match uploadOneFile e with
          | inl id =>
              let st := set_contribution (mediaOf Document id) st in
              set_currentStep 2 st
          | inr _ => set_step1Error "contribution.step1.errors.uploadFailed" st
          end in
        set_step1Uploading false st
      else
        let st :=
          match uploadOneFile e with
          | inl id =>
              let st := set_contribution (mediaOf (resourceType st) id) st in
              set_currentStep 2 st
          | inr err => set_step1Error (uploadErrorMessage err) st
          end in
        let st := set_step1Uploading false st in
        set_step1UploadXhr false st
  end.

(** [step1UploadXhr.value?.abort()] reaches a request that has not
    settled: the promise is rejected, and [nextStep] goes on from its
    [await] once the running handler is over. *)
Definition aborts (st : Form) : bool :=
  step1UploadXhr st && bool_decide (upload st <> None).

Definition afterAbort (aborted : bool) (st : Form) : Form :=
  if aborted then uploadSettled XhrAbort st else st.

(** The Cancel button of the upload notice. *)
Definition cancelUpload (st : Form) : Form := afterAbort (aborts st) st.

Definition prevStep (st : Form) : Form :=
  if (1 <? currentStep st)%nat then set_currentStep (currentStep st - 1) st else st.

(** The body of [setResourceType]. *)
Definition setResourceType_body (nextType : ContributionResourceType) (st : Form) : Form :=
  let st := set_resourceType nextType st in
  let st := set_files noMedia st in
  let st := set_step1Error "" st in
  let st := set_step1UploadXhr false st in
  set_contribution noMedia st.

Definition setResourceType (nextType : ContributionResourceType) (st : Form) : Form :=
  afterAbort (aborts st) (setResourceType_body nextType st).

(** [handleFileUpload]: [target.files] ([None] for null) and [target.id]. *)
Definition handleFileUpload (fileList : option (list File)) (targetId : string)
    (st : Form) : Form :=
  match fileList with
  | None => st
  | Some fileList =>
      match head fileList with
      | None => st
      | Some firstFile =>
          let st :=
            if String.eqb targetId "images" then
              let st := set_resourceType Image st in
              let st := set_files {| images := [firstFile]; audio := []; video := [];
                                     documents := [] |} st in
              set_contribution noMedia st
            else if String.eqb targetId "audio" then
              let st := set_resourceType Audio st in
              let st := set_files {| images := []; audio := [firstFile]; video := [];
                                     documents := [] |} st in
              set_contribution noMedia st
            else if String.eqb targetId "video" then
              let st := set_resourceType Video st in
              let st := set_files {| images := []; audio := []; video := [firstFile];
                                     documents := [] |} st in
              set_contribution noMedia st
            else if String.eqb targetId "documents" then
              let st := set_resourceType Document st in
              let st := set_files {| images := []; audio := []; video := [];
                                     documents := [firstFile] |} st in
              set_contribution noMedia st
            else st in
          set_step1Error "" st
      end
  end.

(** [submitContribution]: up to its [await], and from there on, by what
    the form is to show. *)
Definition submitContribution_begin (st : Form) : Form := set_submitting true st.

Definition submitContribution_settled (view : SubmitView) (st : Form) : Form :=
  let st :=
    match view with
    | ShowSubmitted =>
        let st := set_queuedOffline false st in
        set_submittedSuccess true st
    | ShowQueuedOffline =>
        let st := set_queuedOffline true st in
        set_submittedSuccess true st
    | ShowErrorAlert => st
    end in
  set_submitting false st.

Definition resetForm (st : Form) : Form :=
  let aborted := aborts st in
  let st := set_submittedSuccess false st in
  let st := set_queuedOffline false st in
  let st := set_currentStep 1 st in
  let st := setResourceType_body Text st in
  let st := set_contribution noMedia st in
  let st := set_narrativeText "" st in
  afterAbort aborted st.

(** [isStepValid] at step 1. *)
Definition isStepValid1 (st : Form) : bool :=
  match resourceType st with
  | Text => (0 <? String.length (plainText (narrativeText st)))%nat
  | Image => negb (length (images (contribution st)) =? 0)%nat
             || (0 <? length (images (files st)))%nat
  | Audio => negb (length (audio (contribution st)) =? 0)%nat
             || (0 <? length (audio (files st)))%nat
  | Video => negb (length (video (contribution st)) =? 0)%nat
             || (0 <? length (video (files st)))%nat
  | Document => negb (length (documents (contribution st)) =? 0)%nat
                || (0 <? length (documents (files st)))%nat
  end.

(** What happens to the form: the handlers of the template, and the
    settling of what they wait for. *)
Inductive Event :=
  | NextStep
  | UploadSettled (e : XhrEvent)
  | CancelUpload
  | PrevStep
  | SetResourceType (nextType : ContributionResourceType)
  | HandleFileUpload (fileList : option (list File)) (targetId : string)
  | InputNarrative (text : string)
  | SubmitContribution
  | SubmitSettled (view : SubmitView)
  | ResetForm.

Definition handle (ev : Event) (st : Form) : Form :=
  match ev with
  | NextStep => nextStep st
  | UploadSettled e => uploadSettled e st
  | CancelUpload => cancelUpload st
  | PrevStep => prevStep st
  | SetResourceType nextType => setResourceType nextType st
  | HandleFileUpload fileList targetId => handleFileUpload fileList targetId st
  | InputNarrative text => set_narrativeText text st
  | SubmitContribution => submitContribution_begin st
  | SubmitSettled view => submitContribution_settled view st
  | ResetForm => resetForm st
  end.

Definition runEvents (evs : list Event) (st : Form) : Form :=
  fold_left (fun st ev => handle ev st) evs st.

(** The ids the contribution carries, over its four lists. *)
Definition uploadedIds (st : Form) : list string :=
  images (contribution st) ++ audio (contribution st)
  ++ video (contribution st) ++ documents (contribution st).

Definition chosenFiles (st : Form) : list File :=
  images (files st) ++ audio (files st) ++ video (files st) ++ documents (files st).

(** What the handlers keep true of the form. *)
Definition wellFormed (st : Form) : Prop :=
  (1 <= currentStep st <= totalSteps) /\
  length (uploadedIds st) <= 1 /\
  length (chosenFiles st) <= 1 /\
  (upload st <> None <-> step1Uploading st = true) /\
  (upload st <> None -> currentStep st = 1 /\ step1UploadXhr st = true).

(** The list of a resource type; text has none. *)
Definition listOf {A : Type} (ty : ContributionResourceType) (m : Media A) : list A :=
  match ty with
  | Image => images m
  | Audio => audio m
  | Video => video m
  | Document => documents m
  | Text => []
  end.

(** An uploaded id of the selected type comes with a chosen file of that
    type, and so does an upload under way for a type with files. *)
Definition fileBacked (st : Form) : Prop :=
  (listOf (resourceType st) (contribution st) <> [] ->
   listOf (resourceType st) (files st) <> []) /\
  (upload st <> None -> resourceType st <> Text ->
   listOf (resourceType st) (files st) <> []).

(** A sound file to choose. *)
Definition sampleRecording : File :=
  {| name := "bells.ogg"; mediaType := "audio/ogg"; content := "" |}.

(** The empty narrative of the editor. *)
Definition emptyEditor : string := "<p><br></p>".

End ContributionForm.

(* ===================================================================== *)
(** * Part X.5. The AI assistant (aiAvailability.ts, generateAIDraft)   *)
(* ===================================================================== *)

Module AIAssist.

(** The refs of [aiAvailability.ts], shared by every user of the
    composable, and what [generateAIDraft] reads and writes of the form.
    [probes] and [drafts] count the requests that have not settled. *)
Record State := {
  available : option bool;
  loading : bool;
  probes : nat;
  title : string;
  description : string;
  aiDraftLoading : bool;
  aiDraftError : string;
  drafts : nat
}.

Definition initialState : State :=
  {| available := None; loading := false; probes := 0; title := ""; description := "";
     aiDraftLoading := false; aiDraftError := ""; drafts := 0 |}.

Definition isAvailable (st : State) : bool := bool_decide (available st = Some true).
Definition isKnown (st : State) : bool := negb (bool_decide (available st = None)).

(** [refresh], up to its [await]. *)
Definition refresh (st : State) : State :=
  if loading st then st
  else {| available := available st; loading := true; probes := probes st + 1;
          title := title st; description := description st;
          aiDraftLoading := aiDraftLoading st; aiDraftError := aiDraftError st;
          drafts := drafts st |}.

(** [refresh] from its [await] on: [answer] is [Boolean(res.available)]
    of the status that came back, [None] when the request was rejected. *)
Definition refreshSettled (answer : option bool) (st : State) : State :=
  match probes st with
  | O => st
  | S n =>
      {| available := Some (default false answer); loading := false; probes := n;
         title := title st; description := description st;
         aiDraftLoading := aiDraftLoading st; aiDraftError := aiDraftError st;
         drafts := drafts st |}
  end.

Definition markUnavailable (st : State) : State :=
  {| available := Some false; loading := loading st; probes := probes st;
     title := title st; description := description st;
     aiDraftLoading := aiDraftLoading st; aiDraftError := aiDraftError st;
     drafts := drafts st |}.

(** How the draft request ends: the answer, with its [title] and
    [description] when they are strings, or the rejection, with
    [err?.response?.status]. *)
Inductive DraftOutcome :=
  | DraftAnswer (title description : option string)
  | DraftRejected (status : option nat).

(** [status === n] *)
Definition statusIs (n : nat) (status : option nat) : bool :=
  match status with
  | Some s => (s =? n)%nat
  | None => false
  end.

(** [generateAIDraft], up to its [await]. *)
Definition generateAIDraft (submitting : bool) (st : State) : State :=
  if aiDraftLoading st || submitting then st
  else {| available := available st; loading := loading st; probes := probes st;
          title := title st; description := description st;
          aiDraftLoading := true; aiDraftError := ""; drafts := drafts st + 1 |}.

Definition setDraftError (message : string) (st : State) : State :=
  {| available := available st; loading := loading st; probes := probes st;
     title := title st; description := description st;
     aiDraftLoading := aiDraftLoading st; aiDraftError := message; drafts := drafts st |}.

(** [generateAIDraft] from its [await] on. *)
Definition draftSettled (outcome : DraftOutcome) (st : State) : State :=
  match drafts st with
  | O => st
  | S n =>
      let st :=
        match outcome with
        | DraftAnswer t d =>
            {| available := available st; loading := loading st; probes := probes st;
               title := default (title st) t; description := default (description st) d;
               aiDraftLoading := aiDraftLoading st; aiDraftError := aiDraftError st;
               drafts := drafts st |}
        | DraftRejected status =>
            if statusIs 503 status then
              markUnavailable (setDraftError "ai.unavailable" st)
            else if statusIs 429 status then setDraftError "ai.rateLimited" st
            else setDraftError "ai.genericError" st
        end in
      {| available := available st; loading := loading st; probes := probes st;
         title := title st; description := description st;
         aiDraftLoading := false; aiDraftError := aiDraftError st; drafts := n |}
  end.

(** What [resetForm] does here. *)
Definition resetForm (st : State) : State :=
  {| available := available st; loading := loading st; probes := probes st;
     title := ""; description := "";
     aiDraftLoading := false; aiDraftError := ""; drafts := drafts st |}.

(** The draft button: [:disabled="aiDraftLoading || submitting || !aiAvailable"]. *)
Definition draftDisabled (submitting : bool) (st : State) : bool :=
  aiDraftLoading st || submitting || negb (isAvailable st).

Inductive Event :=
  | Refresh
  | RefreshSettled (answer : option bool)
  | GenerateAIDraft (submitting : bool)
  | DraftSettled (outcome : DraftOutcome)
  | InputTitle (text : string)
  | InputDescription (text : string)
  | ResetForm.

Definition handle (ev : Event) (st : State) : State :=
  match ev with
  | Refresh => refresh st
  | RefreshSettled answer => refreshSettled answer st
  | GenerateAIDraft submitting => generateAIDraft submitting st
  | DraftSettled outcome => draftSettled outcome st
  | InputTitle text =>
      {| available := available st; loading := loading st; probes := probes st;
         title := text; description := description st;
         aiDraftLoading := aiDraftLoading st; aiDraftError := aiDraftError st;
         drafts := drafts st |}
  | InputDescription text =>
      {| available := available st; loading := loading st; probes := probes st;
         title := title st; description := text;
         aiDraftLoading := aiDraftLoading st; aiDraftError := aiDraftError st;
         drafts := drafts st |}
  | ResetForm => resetForm st
  end.

Definition runEvents (evs : list Event) (st : State) : State :=
  fold_left (fun st ev => handle ev st) evs st.

(** No status request settles among the events. *)
Definition noProbeSettles (evs : list Event) : Prop :=
  Forall (fun ev => match ev with RefreshSettled _ => False | _ => True end) evs.

End AIAssist.

(* ===================================================================== *)
(** * Part X.6. The locale (i18n/index.ts)                               *)
(* ===================================================================== *)

Module I18n.

Definition LOCALE_STORAGE_KEY : string := "hp_locale".
Definition SUPPORTED_LOCALES : list string := ["es"; "en"].

(** [toLowerCase], as far as ASCII goes. *)
Definition toLowerAscii (c : ascii) : ascii :=
  let n := nat_of_ascii c in
  if (65 <=? n)%nat && (n <=? 90)%nat then ascii_of_nat (n + 32) else c.

Fixpoint toLowerCase (s : string) : string :=
  match s with
  | EmptyString => EmptyString
  | String c s' => String (toLowerAscii c) (toLowerCase s')
  end.

(** [normalizeLocale]; [None] stands for null and undefined. *)
Definition normalizeLocale (rawLocale : option string) : option string :=
  match rawLocale with
  | None => None
  | Some rawLocale =>
      if negb (truthy rawLocale) then None
      else
        let normalized := default "" (head (split "-" (toLowerCase (trim rawLocale)))) in
        if existsb (String.eqb normalized) SUPPORTED_LOCALES then Some normalized
        else None
  end.

(** What the start-up reads of [navigator]. *)
Record Navigator := {
  languages : option (list string);
  language : option string
}.

(** [navigator.languages && navigator.languages.length > 0
     ? navigator.languages[0] : navigator.language], null without a navigator. *)
Definition browserLanguage (navigator : option Navigator) : option string :=
  match navigator with
  | None => None
  | Some nav =>
      match languages nav with
      | Some (first :: _) => Some first
      | _ => language nav
      end
  end.

Definition getInitialLocale (localStorage : gmap string string)
    (navigator : option Navigator) : string :=
  match normalizeLocale (localStorage !! LOCALE_STORAGE_KEY) with
  | Some stored => stored
  | None =>
      match normalizeLocale (browserLanguage navigator) with
      | Some browserLocale => browserLocale
      | None => "es"
      end
  end.

(** The start-up of the module: the instance is created with the initial
    locale, which is then persisted. *)
Definition startUp (localStorage : gmap string string) (navigator : option Navigator)
  : string * gmap string string :=
  let locale := getInitialLocale localStorage navigator in
  (locale,
   match normalizeLocale (Some locale) with
   | Some current => <[LOCALE_STORAGE_KEY := current]> localStorage
   | None => localStorage
   end).

End I18n.

(* ===================================================================== *)
(** * Part X.7. The auth store (stores/auth.ts)                          *)
(* ===================================================================== *)

Module AuthStore.

(** What the store reads of the user object: a member is [None] when it
    is missing (or, for the names, not a string); a permission is kept by
    its truth value. *)
Record Role := {
  slug : option string;
  permissions : option (gmap string bool)
}.

Record Profile := {
  display_name : option string;
  role : option Role
}.

Record User := {
  is_staff : bool;
  profile : option Profile;
  username : option string;
  email : option string
}.

Record Store := {
  token : option string;
  user : option User;
  localStorage : gmap string string
}.

Definition isAuthenticated (st : Store) : bool :=
  match token st with
  | Some t => truthy t
  | None => false
  end.

(** [user.value?.profile?.role?.slug] *)
Definition roleSlug (st : Store) : option string :=
  match user st with
  | Some u =>
      match profile u with
      | Some p => match role p with Some r => slug r | None => None end
      | None => None
      end
  | None => None
  end.

(** [user.value?.profile?.role?.permissions || {}] *)
Definition rolePermissions (st : Store) : gmap string bool :=
  match user st with
  | Some u =>
      match profile u with
      | Some p => match role p with Some r => default ∅ (permissions r) | None => ∅ end
      | None => ∅
      end
  | None => ∅
  end.

Definition isCurator (st : Store) : bool :=
  isAuthenticated st && bool_decide (roleSlug st = Some "curator").

Definition isTeacher (st : Store) : bool :=
  isAuthenticated st && bool_decide (roleSlug st = Some "teacher").

Definition isContributor (st : Store) : bool := isAuthenticated st.

(** [typeof x === 'string' && x.trim()], then [x.trim()] *)
Definition trimmedName (x : option string) : option string :=
  match x with
  | Some s => if truthy (trim s) then Some (trim s) else None
  | None => None
  end.

Definition displayName (st : Store) : string :=
  match trimmedName (match user st with
                     | Some u => match profile u with
                                 | Some p => display_name p
                                 | None => None
                                 end
                     | None => None
                     end) with
  | Some profileName => profileName
  | None =>
      match trimmedName (match user st with Some u => username u | None => None end) with
      | Some name => name
      | None =>
          match trimmedName (match user st with Some u => email u | None => None end) with
          | Some address => address
          | None => "Account"
          end
      end
  end.

Definition hasPermission (permission : string) (st : Store) : bool :=
  if negb (isAuthenticated st) then false
  else if match user st with Some u => is_staff u | None => false end then true
  else default false (rolePermissions st !! permission).

Section Actions.

(** [JSON.stringify] of a user object. *)
Variable JSON_stringify : User -> string.

Definition setAuth (newToken : string) (newUser : User) (st : Store) : Store :=
  {| token := Some newToken; user := Some newUser;
     localStorage := <["user" := JSON_stringify newUser]>
                       (<["token" := newToken]> (localStorage st)) |}.

Definition logout (st : Store) : Store :=
  {| token := None; user := None;
     localStorage := delete "user" (delete "token" (localStorage st)) |}.

(** [loadUserIfNeeded] asks for the profile when there is a token and no
    user yet; the answer is the user object, or [None] for a rejection. *)
Definition asksForUser (st : Store) : bool :=
  isAuthenticated st && bool_decide (user st = None).

Definition userLoaded (response : option User) (st : Store) : Store :=
  match response with
  | Some data =>
      {| token := token st; user := Some data;
         localStorage := <["user" := JSON_stringify data]> (localStorage st) |}
  | None => logout st
  end.

(** The store when it is set up: the token of the storage, and the user
    [JSON.parse] finds there. *)
Definition initialStore (storage : gmap string string) (parsedUser : option User) : Store :=
  {| token := storage !! "token"; user := parsedUser; localStorage := storage |}.

(** What happens to the store and to the storage it shares with the API
    client: the actions of the store, the settling of a profile request
    that [loadUserIfNeeded] has sent, and a 401 met by the API client,
    whose response interceptor removes [token] and [user] from the storage
    without telling the store. *)
Inductive Event :=
  | SetAuth (newToken : string) (newUser : User)
  | Logout
  | UserLoaded (response : option User)
  | Unauthorized.

Definition handle (ev : Event) (st : Store) : Store :=
  match ev with
  | SetAuth newToken newUser => setAuth newToken newUser st
  | Logout => logout st
  | UserLoaded response => userLoaded response st
  | Unauthorized =>
      {| token := token st; user := user st;
         localStorage := delete "user" (delete "token" (localStorage st)) |}
  end.

Definition runEvents (evs : list Event) (st : Store) : Store :=
  fold_left (fun st ev => handle ev st) evs st.

End Actions.

End AuthStore.

(* ===================================================================== *)
(** * Part XI. Properties of the route table                              *)
(* ===================================================================== *)

Lemma startsWith_spec s p : startsWith s p = true <-> exists t, s = (p ++ t)%string.
Proof.
  unfold startsWith. revert s. induction p as [|c p IH]; intros s; simpl.
  - split; [exists s; reflexivity | destruct s; reflexivity].
  - destruct s as [|d s]; simpl.
    + split; [discriminate | intros [t Ht]; discriminate].
    + destruct (ascii_dec c d) as [->|Hne].
      * rewrite IH. split; intros [t Ht]; exists t; [subst; reflexivity | now inversion Ht].
      * split; [discriminate | intros [t Ht]; inversion Ht; congruence].
Qed.

Section RouteFacts.

Variable precached : URL -> bool.

(** Every route of the worker is registered for GET. *)
Lemma routes_all_GET : Forall (fun r => routeMethod r = GET) (routes precached).
Proof. unfold routes. repeat constructor. Qed.

Lemma findMatchingRoute_not_GET rs request :
  Forall (fun r => routeMethod r = GET) rs ->
  method request <> GET ->
  findMatchingRoute rs request = None.
Proof.
  intros Hall Hm. induction Hall as [|r rs Hr _ IH]; [reflexivity|].
  simpl. rewrite Hr. rewrite bool_decide_eq_false_2 by congruence. exact IH.
Qed.

(** A request whose method is not GET meets no route at all. *)
Lemma classify_not_GET request :
  method request <> GET -> classify precached request = None.
Proof.
  intros Hm. unfold classify.
  now rewrite (findMatchingRoute_not_GET _ _ routes_all_GET Hm).
Qed.

Lemma handleRequest_not_GET now request net st :
  method request <> GET ->
  handleRequest precached now request net st = (fromNetwork net, st).
Proof. intros Hm. unfold handleRequest. now rewrite classify_not_GET. Qed.

(** The route table read as a cascade, for a GET request. *)
Lemma classify_GET request :
  method request = GET ->
  classify precached request =
    if precached (url request) then Some PrecacheStrategy
    else if bool_decide (mode request = navigate) then Some (HandlerBoundToURL "/index.html")
    else if isUserDataPath (pathname (url request)) then Some (NetworkOnly [])
    else if startsWith (pathname (url request)) "/api/v1/" then Some (apiGetHandler request)
    else if bool_decide (destination request = dest_image)
            || startsWith (pathname (url request)) "/media/" then Some imagesStrategy
    else None.
Proof.
  intros Hm. unfold classify, findMatchingRoute, routes. cbn [find].
  cbn [routeMethod matchCallback handler precacheRoute navigationRoute contributionsRoute
       userDataRoute apiGetRoute imagesRoute mapTilesRoute registerRoute default defaultMethod].
  rewrite Hm. rewrite !(bool_decide_eq_true_2 (GET = GET)) by reflexivity.
  rewrite (bool_decide_eq_false_2 (GET = POST)) by discriminate.
  cbn [andb].
  destruct (precached (url request)); [reflexivity|].
  destruct (bool_decide (mode request = navigate)); [reflexivity|].
  destruct (isUserDataPath (pathname (url request))); [reflexivity|].
  destruct (startsWith (pathname (url request)) "/api/v1/"); [reflexivity|].
  cbn [andb negb].
  destruct (bool_decide (destination request = dest_image)); cbn [orb andb].
  - reflexivity.
  - destruct (startsWith (pathname (url request)) "/media/"); reflexivity.
Qed.

End RouteFacts.

Section Classification.

Variable precached : URL -> bool.

(** The handler of the map-tile route is never chosen: whatever its match
    callback accepts, the images route registered before it accepts too. *)
Lemma mapTiles_route_shadowed request :
  matchCallback mapTilesRoute request = true ->
  matchCallback imagesRoute request = true.
Proof.
  cbn. intros H. apply andb_true_iff in H as [H _]. now rewrite H.
Qed.

Lemma classify_never_mapTiles request :
  classify precached request <> Some mapTilesStrategy.
Proof.
  destruct (decide (method request = GET)) as [Hm|Hm].
  - rewrite (classify_GET precached request Hm).
    repeat (match goal with |- context [if ?b then _ else _] => destruct b end);
      try discriminate.
    unfold apiGetHandler. destruct (isListLike (url request)); discriminate.
  - rewrite classify_not_GET by assumption. discriminate.
Qed.

(** Whatever the request, an identity path is served by a handler that
    leaves the worker's state alone. *)
Lemma userData_state_unchanged now request net st :
  isUserDataPath (pathname (url request)) = true ->
  snd (handleRequest precached now request net st) = st.
Proof.
  intros Hu. destruct (decide (method request = GET)) as [Hm|Hm].
  - unfold handleRequest. rewrite (classify_GET precached request Hm), Hu.
    destruct (precached (url request)); [reflexivity|].
    destruct (bool_decide (mode request = navigate)); [reflexivity|].
    cbn. destruct net; reflexivity.
  - now rewrite handleRequest_not_GET.
Qed.

Lemma userData_from_network now request net st :
  isUserDataPath (pathname (url request)) = true ->
  (method request = GET ->
     mode request <> navigate /\ precached (url request) = false) ->
  handleRequest precached now request net st = (fromNetwork net, st).
Proof.
  intros Hu Hg. destruct (decide (method request = GET)) as [Hm|Hm].
  - destruct (Hg Hm) as [Hn Hp].
    unfold handleRequest. rewrite (classify_GET precached request Hm), Hu, Hp.
    rewrite bool_decide_eq_false_2 by assumption.
    cbn. destruct net; reflexivity.
  - now rewrite handleRequest_not_GET.
Qed.

Lemma userData_classify request :
  isUserDataPath (pathname (url request)) = true ->
  classify precached request = None \/
  classify precached request = Some PrecacheStrategy \/
  classify precached request = Some (HandlerBoundToURL "/index.html") \/
  classify precached request = Some (NetworkOnly []).
Proof.
  intros Hu. destruct (decide (method request = GET)) as [Hm|Hm].
  - rewrite (classify_GET precached request Hm), Hu.
    destruct (precached (url request)); [tauto|].
    destruct (bool_decide (mode request = navigate)); tauto.
  - rewrite classify_not_GET by assumption. tauto.
Qed.

End Classification.

Lemma apiResourceParts_after_root p :
  startsWith p "/api/v1/" = true ->
  apiResourceParts p = Some (segmentsAfterRoot p).
Proof.
  intros H. apply startsWith_spec in H as [t ->].
  unfold apiResourceParts, segmentsAfterRoot, split. reflexivity.
Qed.

Lemma searchParams_has_In u name :
  searchParams_has u name = true <-> In name (map fst (searchParams u)).
Proof.
  unfold searchParams_has. rewrite existsb_exists, in_map_iff. split.
  - intros [kv [Hin He]]. apply String.eqb_eq in He. eauto.
  - intros [kv [He Hin]]. exists kv. split; [assumption | now apply String.eqb_eq].
Qed.

Lemma isListLike_spec u :
  startsWith (pathname u) "/api/v1/" = true ->
  isListLike u = true <->
  (length (segmentsAfterRoot (pathname u)) <= 1
   \/ In "page" (map fst (searchParams u))).
Proof.
  intros H. unfold isListLike. rewrite (apiResourceParts_after_root _ H). cbn [default].
  rewrite orb_true_iff, Nat.leb_le, searchParams_has_In. reflexivity.
Qed.

Lemma apiList_neq_apiDetail : apiListStrategy <> apiDetailStrategy.
Proof. discriminate. Qed.

(** C1 (defect of the code). The tile request
    [GET https://a.tile.openstreetmap.org/12/2048/1361.png] of an [img]
    element satisfies the match callback of the map-tile route, yet the
    router hands it to the images route, registered first: it is served
    cache-first from [images-v1] (7 days, 500 entries) and stored there,
    and [map-tiles-osm] (30 days, 2000 entries) stays empty. No request at
    all reaches the map-tile handler. *)
Theorem tile_request_cached_under_images_tier :
  matchCallback mapTilesRoute tileRequest = true /\
  classify noPrecache tileRequest = Some imagesStrategy /\
  imagesStrategy =
    CacheFirst {| cacheName := "images-v1"; networkTimeoutSeconds := None;
                  plugins := [ CacheableResponsePlugin [0; 200];
                               ExpirationPlugin 604800%N 500 ] |} /\
  (let st := snd (handleRequest noPrecache 1000%N tileRequest
                    (NetResponse okResponse 40%N) emptyState) in
   cacheOf st "images-v1"
     = [(url tileRequest, {| cachedResponse := okResponse; storedAt := 1000%N |})] /\
   cacheOf st "map-tiles-osm" = []) /\
  (forall precached request, classify precached request <> Some mapTilesStrategy).
Proof.
  split; [reflexivity|]. split; [reflexivity|]. split; [reflexivity|].
  split; [split; vm_compute; reflexivity|].
  intros precached request. apply classify_never_mapTiles.
Qed.

(** C2, as the spec states it, fails: [GET /api/v1/users/me/] opened as a
    navigation is answered with the precached application shell, not from
    the network. *)
Lemma identity_path_navigation_served_from_shell :
  isUserDataPath (pathname (url profileNavigation)) = true /\
  handleRequest noPrecache 1000%N profileNavigation (NetResponse okResponse 40%N) emptyState
    = (RespondPrecached "/index.html", emptyState) /\
  fst (handleRequest noPrecache 1000%N profileNavigation (NetResponse okResponse 40%N) emptyState)
    <> fromNetwork (NetResponse okResponse 40%N).
Proof. split; [reflexivity|]. split; [reflexivity|]. vm_compute. discriminate. Qed.

(** C2 (amended). For every request whose path begins with
    [/api/v1/auth/], [/api/v1/users/] or [/api/v1/notifications/]:
    handling it leaves every cache tier as it was, and it is never
    classified into the api-list, api-detail, images or map-tile tier.
    Unless it is a GET request that is a navigation or whose URL is
    precached, its response is the network's, also right after an
    earlier fetch of the same request. *)
Theorem identity_paths_bypass_cache_tiers (precached : URL -> bool) (request : Request) :
  isUserDataPath (pathname (url request)) = true ->
  (forall now net st, snd (handleRequest precached now request net st) = st) /\
  (classify precached request <> Some apiListStrategy /\
   classify precached request <> Some apiDetailStrategy /\
   classify precached request <> Some imagesStrategy /\
   classify precached request <> Some mapTilesStrategy) /\
  ((method request = GET ->
      mode request <> navigate /\ precached (url request) = false) ->
   (forall now net st,
      handleRequest precached now request net st = (fromNetwork net, st)) /\
   (forall now1 net1 now2 net2 st,
      handleRequest precached now2 request net2
        (snd (handleRequest precached now1 request net1 st))
      = (fromNetwork net2, st))).
Proof.
  intros Hu. split; [|split].
  - intros now net st. now apply userData_state_unchanged.
  - destruct (userData_classify precached request Hu) as [H|[H|[H|H]]];
      rewrite H; repeat split; discriminate.
  - intros Hg. split.
    + intros now net st. now apply userData_from_network.
    + intros now1 net1 now2 net2 st.
      rewrite (userData_from_network precached now1 request net1 st Hu Hg).
      cbn [snd]. now apply userData_from_network.
Qed.

Lemma identity_paths_bypass_cache_tiers_witness :
  isUserDataPath (pathname (url profileRequest)) = true /\
  (forall now net st,
     handleRequest noPrecache now profileRequest net st = (fromNetwork net, st)).
Proof.
  split; [reflexivity|].
  apply (identity_paths_bypass_cache_tiers noPrecache profileRequest eq_refl).
  intros _. split; [discriminate | reflexivity].
Defined.

(** C3, as the spec states it, fails: [PUT /api/v1/contributions/7/] meets
    no route; it goes to the network and, when that fails, nothing is
    enqueued. *)
Lemma contribution_update_not_queued :
  method contributionUpdate = PUT /\
  startsWith (pathname (url contributionUpdate)) "/api/v1/contributions/" = true /\
  classify noPrecache contributionUpdate = None /\
  handleRequest noPrecache 1000%N contributionUpdate NetError emptyState
    = (NetworkFailure, emptyState).
Proof. repeat split. Qed.

(** C3 (amended). The match callback of the queue route accepts a request
    exactly when its method is POST and its path begins with
    [/api/v1/contributions/]; a PUT, PATCH or DELETE request is never
    handed to the queue handler and never enqueued. The queue handler is
    network-only with the background-sync queue: it returns the network's
    response and leaves the queue alone when the network answers, and
    appends the request to [contributionsQueue] only when the fetch fails. *)
Theorem contribution_queue_route_admits_POST_only :
  (forall request,
     matchCallback contributionsRoute request = true <->
     method request = POST /\
     startsWith (pathname (url request)) "/api/v1/contributions/" = true) /\
  (forall request, handler contributionsRoute request = NetworkOnly [contributionSyncQueue]) /\
  (forall precached now request net st,
     method request = PUT \/ method request = PATCH \/ method request = DELETE ->
     classify precached request <> Some (NetworkOnly [contributionSyncQueue]) /\
     queues (snd (handleRequest precached now request net st)) = queues st) /\
  (forall now request r ms st,
     handle now (NetworkOnly [contributionSyncQueue]) request (NetResponse r ms) st
       = (Respond FromNetwork r, st)) /\
  (forall now request st,
     handle now (NetworkOnly [contributionSyncQueue]) request NetError st
       = (NetworkFailure, pushRequest now "contributionsQueue" request st)).
Proof.
  split; [|split; [|split; [|split]]].
  - intros request. cbn. rewrite andb_true_iff, bool_decide_eq_true. reflexivity.
  - reflexivity.
  - intros precached now request net st Hm.
    assert (method request <> GET) as Hne by (destruct Hm as [H|[H|H]]; rewrite H; discriminate).
    rewrite classify_not_GET, handleRequest_not_GET by assumption.
    split; [discriminate | reflexivity].
  - reflexivity.
  - reflexivity.
Qed.

Lemma contribution_queue_route_admits_POST_only_witness :
  (method contributionUpdate = PUT \/ method contributionUpdate = PATCH
   \/ method contributionUpdate = DELETE) /\
  queues (snd (handleRequest noPrecache 1000%N contributionUpdate NetError emptyState))
    = queues emptyState.
Proof.
  split; [left; reflexivity|].
  apply (proj1 (proj2 (proj2 contribution_queue_route_admits_POST_only))
           noPrecache 1000%N contributionUpdate NetError emptyState).
  left; reflexivity.
Defined.

Lemma submitContribution_never_enqueues precached now apiHost contribution onLine
    net retryNet st :
  snd (submitContribution precached now apiHost contribution onLine net retryNet st) = st.
Proof.
  unfold submitContribution, apiRequest.
  rewrite handleRequest_not_GET by discriminate.
  destruct (settle (fromNetwork net)) as [|code|] eqn:Hs.
  - reflexivity.
  - destruct (code =? 401)%nat.
    + rewrite handleRequest_not_GET by discriminate.
      destruct (settle (fromNetwork retryNet)); try reflexivity;
        destruct (isOffline onLine); reflexivity.
    + destruct (isOffline onLine); reflexivity.
  - destruct (isOffline onLine); reflexivity.
Qed.

(** The form decides between the queued notice and the error alert by
    [navigator.onLine] alone, whatever made the call fail. *)
Lemma submission_failure_follows_navigator_onLine :
  submitContribution noPrecache 1000%N "localhost" "{}" (Some true) NetError NetError emptyState
    = (ShowErrorAlert, emptyState) /\
  submitContribution noPrecache 1000%N "localhost" "{}" (Some false)
    (NetResponse {| status := 500; payload := "" |} 40%N) NetError emptyState
    = (ShowQueuedOffline, emptyState).
Proof. split; reflexivity. Qed.

(** C4 (defect of the code). [POST /api/v1/contributions/] issued by the
    form while the browser is offline: the match callback of the queue
    route accepts the request, but the route is registered for GET, so the
    router finds no route for the POST; the fetch fails, nothing is
    enqueued, and the form still shows the queued-will-sync notice. No
    submission ever changes the worker's queue. *)
Theorem offline_submission_reported_queued_but_never_enqueued :
  matchCallback contributionsRoute (contributionRequest "localhost" "{}") = true /\
  routeMethod contributionsRoute = GET /\
  classify noPrecache (contributionRequest "localhost" "{}") = None /\
  submitContribution noPrecache 1000%N "localhost" "{}" (Some false) NetError NetError emptyState
    = (ShowQueuedOffline, emptyState) /\
  queues emptyState !! "contributionsQueue" = None /\
  (forall precached now apiHost contribution onLine net retryNet st,
     snd (submitContribution precached now apiHost contribution onLine net retryNet st)
     = st).
Proof.
  repeat split. intros. apply submitContribution_never_enqueues.
Qed.

(** C8, as the spec states it, fails: [GET /api/v1/heritage-items/] opened
    as a navigation enumerates a collection, and is answered with the
    application shell instead of the api-list tier. *)
Lemma api_list_navigation_served_from_shell :
  method listNavigation = GET /\
  startsWith (pathname (url listNavigation)) "/api/v1/" = true /\
  isUserDataPath (pathname (url listNavigation)) = false /\
  length (segmentsAfterRoot (pathname (url listNavigation))) <= 1 /\
  classify noPrecache listNavigation = Some (HandlerBoundToURL "/index.html") /\
  classify noPrecache listNavigation <> Some apiListStrategy.
Proof.
  split; [reflexivity|]. split; [reflexivity|]. split; [reflexivity|].
  split; [vm_compute; lia|]. split; [reflexivity | discriminate].
Qed.

(** C8 (amended). For every GET request under [/api/v1/] that is not an
    identity path, is not a navigation and whose URL is not precached:
    it is classified to the api-list tier exactly when at most one path
    segment follows the API root (no trailing resource identifier) or the
    query has a [page] parameter, and to the api-detail tier exactly when
    two or more segments follow the root and there is no [page] parameter. *)
Theorem api_get_list_or_detail (precached : URL -> bool) (request : Request) :
  method request = GET ->
  startsWith (pathname (url request)) "/api/v1/" = true ->
  isUserDataPath (pathname (url request)) = false ->
  mode request <> navigate ->
  precached (url request) = false ->
  (classify precached request = Some apiListStrategy <->
     (length (segmentsAfterRoot (pathname (url request))) <= 1
      \/ In "page" (map fst (searchParams (url request))))) /\
  (classify precached request = Some apiDetailStrategy <->
     (2 <= length (segmentsAfterRoot (pathname (url request)))
      /\ ~ In "page" (map fst (searchParams (url request))))).
Proof.
  intros Hm Hroot Hu Hnav Hp.
  rewrite (classify_GET precached request Hm), Hp, Hu, Hroot.
  rewrite bool_decide_eq_false_2 by assumption.
  unfold apiGetHandler. pose proof (isListLike_spec (url request) Hroot) as Hl.
  destruct (isListLike (url request)).
  - assert (length (segmentsAfterRoot (pathname (url request))) <= 1
            \/ In "page" (map fst (searchParams (url request)))) as He by now apply Hl.
    split; split; try discriminate; try tauto.
    intros [H2 Hn]. destruct He as [He|He]; [lia | contradiction].
  - assert (~ (length (segmentsAfterRoot (pathname (url request))) <= 1
               \/ In "page" (map fst (searchParams (url request))))) as He
      by (intros H; apply Hl in H; discriminate).
    split; split; try discriminate; try tauto.
    + intros _. split; [|tauto].
      destruct (le_lt_dec (length (segmentsAfterRoot (pathname (url request)))) 1); [tauto | lia].
Qed.

Lemma api_get_list_or_detail_witness :
  (method listRequest = GET /\
   startsWith (pathname (url listRequest)) "/api/v1/" = true /\
   isUserDataPath (pathname (url listRequest)) = false /\
   mode listRequest <> navigate /\
   noPrecache (url listRequest) = false) /\
  (classify noPrecache listRequest = Some apiListStrategy <->
     (length (segmentsAfterRoot (pathname (url listRequest))) <= 1
      \/ In "page" (map fst (searchParams (url listRequest))))).
Proof.
  split.
  - repeat split. discriminate.
  - apply (api_get_list_or_detail noPrecache listRequest);
      [reflexivity | reflexivity | reflexivity | discriminate | reflexivity].
Defined.

(* ===================================================================== *)
(** * Part XII. What the cache tiers may hold                             *)
(* ===================================================================== *)

Lemma In_drop {A} (x : A) n (l : list A) : In x (drop n l) -> In x l.
Proof.
  revert n. induction l as [|y l IH]; intros [|n]; simpl; auto.
  intros H. right. exact (IH n H).
Qed.

Lemma cacheFind_In u c e : cacheFind u c = Some e -> In (u, e) c.
Proof.
  induction c as [|[k e'] c IH]; simpl; [discriminate|].
  destruct (bool_decide (k = u)) eqn:Hk.
  - intros [= ->]. apply bool_decide_eq_true in Hk as ->. now left.
  - intros H. right. now apply IH.
Qed.

Lemma cacheOf_cachePut now o u r st name :
  cacheOf (cachePut now o u r st) name =
    if decide (cacheName o = name) then
      let c1 := List.filter (fun ke => negb (bool_decide (fst ke = u))) (cacheOf st (cacheName o))
                ++ [(u, {| cachedResponse := r; storedAt := now |})] in
      let c2 := List.filter (fun ke => isFresh now (plugins o) (snd ke)) c1 in
      match maxEntriesOf (plugins o) with
      | Some n => drop (length c2 - n) c2
      | None => c2
      end
    else cacheOf st name.
Proof.
  unfold cachePut, cacheOf at 1. cbn [caches].
  rewrite lookup_insert. destruct (decide (cacheName o = name)); reflexivity.
Qed.

Lemma cachePut_entries now o u r st name k e :
  In (k, e) (cacheOf (cachePut now o u r st) name) ->
  In (k, e) (cacheOf st name) \/ cachedResponse e = r.
Proof.
  rewrite cacheOf_cachePut. destruct (decide (cacheName o = name)) as [<-|]; [|tauto].
  cbv zeta. intros H.
  assert (In (k, e)
            (List.filter (fun ke => negb (bool_decide (fst ke = u))) (cacheOf st (cacheName o))
             ++ [(u, {| cachedResponse := r; storedAt := now |})])) as H1.
  { destruct (maxEntriesOf (plugins o)); [apply In_drop in H|];
      apply filter_In in H; tauto. }
  apply in_app_or in H1 as [H1|[H1|[]]].
  - apply filter_In in H1. tauto.
  - inversion H1. now right.
Qed.

Lemma cacheUpdate_entries dflt now o u r st name k e :
  guards dflt o ->
  In (k, e) (cacheOf (cacheUpdate dflt now o u r st) name) ->
  In (k, e) (cacheOf st name) \/ cacheableStatus (cachedResponse e).
Proof.
  intros Hg. unfold cacheUpdate.
  destruct (cacheWillUpdate dflt (plugins o) r) eqn:Hw; [|tauto].
  intros H. apply cachePut_entries in H as [H| ->]; [tauto|]. right. now apply Hg.
Qed.

Lemma fetchDidFail_caches now ps request st :
  caches (fetchDidFail now ps request st) = caches st.
Proof.
  unfold fetchDidFail. revert st. induction ps as [|p ps IH]; intros st; [reflexivity|].
  cbn [foldl]. rewrite IH. destruct p; reflexivity.
Qed.

Lemma handle_entries now s request net st name k e :
  strategyGuarded s ->
  In (k, e) (cacheOf (snd (handle now s request net st)) name) ->
  In (k, e) (cacheOf st name) \/ cacheableStatus (cachedResponse e).
Proof.
  intros Hg. destruct s as [| p | ps | o | o | o]; cbn [handle strategyGuarded] in *.
  - tauto.
  - tauto.
  - destruct net; cbn [snd]; [tauto|].
    unfold cacheOf. rewrite fetchDidFail_caches. tauto.
  - destruct net as [r ms|].
    + destruct (timedOut o ms).
      * destruct (cacheMatch now o (url request) st); cbn [snd]; tauto.
      * cbn [snd]. now apply cacheUpdate_entries.
    + destruct (cacheMatch now o (url request) st); cbn [snd]; tauto.
  - destruct (cacheMatch now o (url request) st); cbn [snd];
      (destruct net as [r' ms|]; [now apply cacheUpdate_entries | tauto]).
  - destruct (cacheMatch now o (url request) st); cbn [snd]; [tauto|].
    destruct net as [r ms|]; cbn [snd]; [now apply cacheUpdate_entries | tauto].
Qed.

Lemma statusIn_0_200 r : statusIn r [0; 200] = true -> cacheableStatus r.
Proof.
  unfold statusIn, cacheableStatus. cbn [existsb].
  rewrite !orb_true_iff, !Nat.eqb_eq. intros [H|[H|H]]; [tauto | tauto | discriminate].
Qed.

Lemma tier_guarded dflt name t age n :
  guards dflt {| cacheName := name; networkTimeoutSeconds := t;
                 plugins := [ CacheableResponsePlugin [0; 200]; ExpirationPlugin age n ] |}.
Proof.
  intros r. unfold cacheWillUpdate. cbn [plugins omap cacheableStatuses forallb list_omap].
  rewrite andb_true_r. apply statusIn_0_200.
Qed.

Lemma classify_guarded precached request s :
  classify precached request = Some s -> strategyGuarded s.
Proof.
  destruct (decide (method request = GET)) as [Hm|Hm].
  - rewrite (classify_GET precached request Hm).
    repeat (match goal with |- context [if ?b then _ else _] => destruct b end);
      intros [= <-]; try exact I; try apply tier_guarded.
    unfold apiGetHandler. destruct (isListLike (url request)); apply tier_guarded.
  - rewrite classify_not_GET by assumption. discriminate.
Qed.

Lemma handleRequest_entries precached now request net st name k e :
  In (k, e) (cacheOf (snd (handleRequest precached now request net st)) name) ->
  In (k, e) (cacheOf st name) \/ cacheableStatus (cachedResponse e).
Proof.
  unfold handleRequest. destruct (classify precached request) as [s|] eqn:Hc.
  - apply handle_entries. now apply (classify_guarded precached request).
  - cbn [snd]. tauto.
Qed.

Lemma step_clean precached st ev : cachesClean st -> cachesClean (step precached st ev).
Proof.
  intros Hc name k e H. apply handleRequest_entries in H as [H|H]; [|assumption].
  exact (Hc name k e H).
Qed.

Lemma run_clean precached es st : cachesClean st -> cachesClean (run precached st es).
Proof.
  revert st. induction es as [|ev es IH]; intros st Hc; [assumption|].
  apply IH. now apply step_clean.
Qed.

Lemma emptyState_clean : cachesClean emptyState.
Proof. intros name k e H. unfold cacheOf in H. cbn in H. rewrite lookup_empty in H. destruct H. Qed.

Lemma cacheMatch_clean now o u st r :
  cachesClean st -> cacheMatch now o u st = Some r -> cacheableStatus r.
Proof.
  intros Hc. unfold cacheMatch.
  destruct (cacheFind u (cacheOf st (cacheName o))) as [e|] eqn:Hf; [|discriminate].
  destruct (isFresh now (plugins o) e); [|discriminate].
  intros [= <-]. apply cacheFind_In in Hf. exact (Hc _ _ _ Hf).
Qed.

Lemma handle_from_cache now s request net st r :
  cachesClean st ->
  fst (handle now s request net st) = Respond FromCache r -> cacheableStatus r.
Proof.
  intros Hc. destruct s as [| p | ps | o | o | o]; cbn [handle].
  - discriminate.
  - discriminate.
  - destruct net; discriminate.
  - destruct net as [r' ms|].
    + destruct (timedOut o ms).
      * destruct (cacheMatch now o (url request) st) eqn:Hm; [|discriminate].
        intros [= <-]. eapply cacheMatch_clean; eassumption.
      * discriminate.
    + destruct (cacheMatch now o (url request) st) eqn:Hm; [|discriminate].
      intros [= <-]. eapply cacheMatch_clean; eassumption.
  - destruct (cacheMatch now o (url request) st) eqn:Hm.
    + intros [= <-]. eapply cacheMatch_clean; eassumption.
    + destruct net; discriminate.
  - destruct (cacheMatch now o (url request) st) eqn:Hm.
    + intros [= <-]. eapply cacheMatch_clean; eassumption.
    + destruct net; discriminate.
Qed.

(** C10. Each of the four cache tiers is built with the cacheable-response
    plugin for the statuses 0 and 200 and no other; handling a request adds
    to a cache only responses of status 0 or 200; so, from the empty state
    on, every cache holds only such responses, and a response served from a
    cache has status 0 or 200 (never 4xx or 5xx). *)
Theorem cache_tiers_store_only_status_0_or_200 :
  Forall (fun s => exists o, optionsOf s = Some o /\
                             omap cacheableStatuses (plugins o) = [[0; 200]]) cacheTiers /\
  (forall precached now request net st name k e,
     In (k, e) (cacheOf (snd (handleRequest precached now request net st)) name) ->
     In (k, e) (cacheOf st name) \/
     status (cachedResponse e) = 0 \/ status (cachedResponse e) = 200) /\
  (forall precached es name k e,
     In (k, e) (cacheOf (run precached emptyState es) name) ->
     status (cachedResponse e) = 0 \/ status (cachedResponse e) = 200) /\
  (forall precached es now request net r,
     fst (handleRequest precached now request net (run precached emptyState es))
       = Respond FromCache r ->
     status r = 0 \/ status r = 200).
Proof.
  split; [|split; [|split]].
  - unfold cacheTiers. repeat constructor; eexists; split; reflexivity.
  - intros. now apply (handleRequest_entries precached now request net st name k e).
  - intros precached es name k e H.
    exact (run_clean precached es emptyState emptyState_clean name k e H).
  - intros precached es now request net r.
    pose proof (run_clean precached es emptyState emptyState_clean) as Hc.
    unfold handleRequest. destruct (classify precached request) as [s|].
    + now apply handle_from_cache.
    + destruct net; discriminate.
Qed.

(* ===================================================================== *)
(** * Part XIII. The replay pass of the durable write queue               *)
(* ===================================================================== *)

Section Replay.

Variables (now m : N) (net : list Request -> Request -> Network).

Lemma filter_sublist_bool {A} (f : A -> bool) (l : list A) :
  sublist (List.filter f l) l.
Proof.
  induction l as [|x l IH]; simpl; [constructor|].
  destruct (f x); now constructor.
Qed.

(** The shape of a pass: a front part of the queue is gone, the rest is
    left untouched; the live entries of the front part were reissued in
    queue order and each was answered by the network at its turn; an
    unfinished pass stopped at the head of what is left, a live entry the
    network refused. *)
Lemma replayRequests_shape q acc :
  exists gone,
    q = gone ++ snd (fst (replayRequests now m net q acc)) /\
    (forall a e b,
       List.filter (isLive now m) gone = a ++ e :: b ->
       exists r ms, net (acc ++ (queuedRequest <$> a)) (queuedRequest e) = NetResponse r ms) /\
    let sent := acc ++ (queuedRequest <$> List.filter (isLive now m) gone) in
    if snd (replayRequests now m net q acc) then
      snd (fst (replayRequests now m net q acc)) = [] /\
      fst (fst (replayRequests now m net q acc)) = sent
    else
      exists e rest,
        snd (fst (replayRequests now m net q acc)) = e :: rest /\
        isLive now m e = true /\
        net sent (queuedRequest e) = NetError /\
        fst (fst (replayRequests now m net q acc)) = sent ++ [queuedRequest e].
Proof.
  revert acc. induction q as [|e q IH]; intros acc.
  - exists []. cbn. split; [reflexivity|].
    split; [intros [|? ?] ? ? H; discriminate|].
    split; [reflexivity|]. now rewrite app_nil_r.
  - cbn [replayRequests]. destruct (isExpired now m e) eqn:He.
    + destruct (IH acc) as [gone [Hq [Ha Hs]]]. exists (e :: gone).
      assert (List.filter (isLive now m) (e :: gone) = List.filter (isLive now m) gone) as ->
        by (cbn; unfold isLive at 1; now rewrite He).
      split; [cbn; now rewrite <- Hq|]. split; [exact Ha | exact Hs].
    + destruct (net acc (queuedRequest e)) as [r ms|] eqn:Hn.
      * destruct (IH (acc ++ [queuedRequest e])) as [gone [Hq [Ha Hs]]].
        exists (e :: gone).
        assert (List.filter (isLive now m) (e :: gone)
                = e :: List.filter (isLive now m) gone) as ->
          by (cbn; unfold isLive at 1; now rewrite He).
        split; [cbn; now rewrite <- Hq|]. split.
        -- intros a e' b Hsplit. destruct a as [|x a].
           ++ cbn in Hsplit. injection Hsplit as <- _. cbn. rewrite app_nil_r. eauto.
           ++ cbn in Hsplit. injection Hsplit as <- Hsplit.
              destruct (Ha a e' b Hsplit) as [r' [ms' Hn']].
              exists r', ms'. rewrite fmap_cons. rewrite <- app_assoc in Hn'. exact Hn'.
        -- rewrite fmap_cons. rewrite <- app_assoc in Hs. exact Hs.
      * exists []. cbn. split; [reflexivity|].
        split; [intros [|? ?] ? ? H; discriminate|].
        exists e, q. rewrite app_nil_r. unfold isLive. rewrite He. auto.
Qed.

Lemma sublist_lookup_order {A} (l1 l2 : list A) i j a b :
  sublist l1 l2 -> i < j -> l1 !! i = Some a -> l1 !! j = Some b ->
  exists i' j', i' < j' /\ l2 !! i' = Some a /\ l2 !! j' = Some b.
Proof.
  intros Hs. revert i j. induction Hs as [|x l1 l2 Hs IH|x l1 l2 Hs IH]; intros i j Hij Hi Hj.
  - discriminate.
  - destruct i as [|i]; destruct j as [|j]; try lia.
    + cbn in Hi. injection Hi as ->. cbn in Hj.
      assert (b ∈ l2) as Hb.
      { apply (sublist_subseteq _ _ Hs). eapply list_elem_of_lookup_2. exact Hj. }
      apply list_elem_of_lookup_1 in Hb as [k Hk].
      exists 0, (S k). split; [lia|]. split; [reflexivity | exact Hk].
    + cbn in Hi, Hj. destruct (IH i j ltac:(lia) Hi Hj) as [i' [j' [Hlt [H1 H2]]]].
      exists (S i'), (S j'). split; [lia|]. split; assumption.
  - destruct (IH i j Hij Hi Hj) as [i' [j' [Hlt [H1 H2]]]].
    exists (S i'), (S j'). split; [lia|]. split; assumption.
Qed.

Lemma replayRequests_sublist q :
  sublist (fst (fst (replayRequests now m net q []))) (queuedRequest <$> q).
Proof.
  destruct (replayRequests_shape q []) as [gone [Hq [_ Hs]]]. cbn [app] in Hs.
  rewrite Hq at 2. rewrite fmap_app.
  destruct (snd (replayRequests now m net q [])).
  - destruct Hs as [-> ->]. cbn. rewrite !app_nil_r.
    apply fmap_sublist, filter_sublist_bool.
  - destruct Hs as [e [rest [-> [_ [_ ->]]]]].
    apply sublist_app; [apply fmap_sublist, filter_sublist_bool|].
    cbn. apply sublist_skip, sublist_nil_l.
Qed.

Lemma inSubmissionOrder_app_head gone e rest x :
  inSubmissionOrder (gone ++ e :: rest) -> In x (e :: rest) ->
  (enqueuedAt e <= enqueuedAt x)%N.
Proof.
  unfold inSubmissionOrder. induction gone as [|g gone IH]; cbn; intros Hs Hx.
  - apply StronglySorted_inv in Hs as [_ Hall].
    destruct Hx as [<-|Hx]; [lia|].
    rewrite List.Forall_forall in Hall. now apply Hall.
  - apply StronglySorted_inv in Hs as [Hs _]. now apply IH.
Qed.

Lemma isExpired_mono a b :
  (enqueuedAt a <= enqueuedAt b)%N -> isExpired now m b = true -> isExpired now m a = true.
Proof. unfold isExpired. rewrite !N.ltb_lt. lia. Qed.

End Replay.

Lemma isExpired_24h now e :
  isExpired now contributionsRetention e = true <-> (86400000 < now - enqueuedAt e)%N.
Proof.
  unfold isExpired. rewrite N.ltb_lt.
  change (retentionMs contributionsRetention) with 86400000%N. reflexivity.
Qed.

(** A queue filled by [pushRequest] under a clock that never runs backwards
    is in submission order. *)
Lemma pushRequest_inSubmissionOrder now name request st :
  inSubmissionOrder (default [] (queues st !! name)) ->
  Forall (fun e => (enqueuedAt e <= now)%N) (default [] (queues st !! name)) ->
  inSubmissionOrder (default [] (queues (pushRequest now name request st) !! name)).
Proof.
  unfold pushRequest, inSubmissionOrder. cbn [queues]. rewrite lookup_insert_eq. cbn [default].
  generalize (default [] (queues st !! name)). intros q Hs Hall.
  induction q as [|e q IH]; cbn.
  - repeat constructor.
  - apply StronglySorted_inv in Hs as [Hs He]. inversion Hall as [|? ? Hle Hall']; subst.
    constructor; [now apply IH|].
    apply List.Forall_app. split; [assumption|]. repeat constructor. exact Hle.
Qed.

(** The connectivity signal runs the pass over the worker's queue with the
    retention the worker configures, and stores what is left. *)
Lemma onSync_contributionSyncQueue now net st :
  onSync now contributionSyncQueue net st =
    (fst (fst (replayRequests now contributionsRetention net
                 (default [] (queues st !! "contributionsQueue")) [])),
     {| caches := caches st;
        queues := <["contributionsQueue" :=
                     snd (fst (replayRequests now contributionsRetention net
                                 (default [] (queues st !! "contributionsQueue")) []))]>
                  (queues st) |}).
Proof.
  unfold onSync, contributionSyncQueue.
  change (24 * 60)%N with contributionsRetention.
  destruct (replayRequests now contributionsRetention net
              (default [] (queues st !! "contributionsQueue")) []) as [[reissued remaining] done].
  reflexivity.
Qed.

(** C5. One replay pass over a queue in submission order, with the worker's
    retention of 24 hours: requests are reissued in the order they were
    queued (if [a] is reissued before [b], then [a] stood before [b] in the
    queue); a front part of the queue is removed and the rest is left as it
    was; an entry is removed only if it was older than 24 hours, and then
    it was not sent, or if the network answered it at its turn, after the
    live entries before it; a pass finishes only with an empty queue; a
    pass that does not finish stopped at a live entry the network refused,
    which is still at the head of the queue, and nothing behind it was
    reissued; only live entries are ever reissued; and no entry older than
    24 hours is left in the queue. *)
Theorem durable_queue_replay_is_fifo (now : N)
    (net : list Request -> Request -> Network) (q : list QueuedMutation) :
  inSubmissionOrder q ->
  let pass := replayRequests now contributionsRetention net q [] in
  let reissued := fst (fst pass) in
  let remaining := snd (fst pass) in
  (forall i j a b,
     i < j -> reissued !! i = Some a -> reissued !! j = Some b ->
     exists i' j', i' < j' /\ (queuedRequest <$> q) !! i' = Some a
                   /\ (queuedRequest <$> q) !! j' = Some b) /\
  (exists gone,
     q = gone ++ remaining /\
     (forall a e b,
        List.filter (isLive now contributionsRetention) gone = a ++ e :: b ->
        exists r ms, net (queuedRequest <$> a) (queuedRequest e) = NetResponse r ms) /\
     let sent := queuedRequest <$> List.filter (isLive now contributionsRetention) gone in
     if snd pass then remaining = [] /\ reissued = sent
     else exists e rest,
            remaining = e :: rest /\
            isLive now contributionsRetention e = true /\
            net sent (queuedRequest e) = NetError /\
            reissued = sent ++ [queuedRequest e]) /\
  (forall r, In r reissued ->
     exists e, In e q /\ (now - enqueuedAt e <= 86400000)%N /\ queuedRequest e = r) /\
  (forall e, In e q -> (86400000 < now - enqueuedAt e)%N -> ~ In e remaining).
Proof.
  intros Hord pass reissued remaining.
  pose proof (replayRequests_shape now contributionsRetention net q []) as [gone [Hq [Ha Hs]]].
  fold pass in Hq, Hs. fold reissued remaining in Hq, Hs. cbn [app] in Hs, Ha.
  assert (forall e, isLive now contributionsRetention e = true ->
                    (now - enqueuedAt e <= 86400000)%N) as Hlive.
  { intros e He. unfold isLive in He. apply negb_true_iff in He.
    destruct (N.le_gt_cases (now - enqueuedAt e) 86400000) as [H|H]; [assumption|].
    apply isExpired_24h in H. congruence. }
  split; [|split; [|split]].
  - intros i j a b Hij Hi Hj.
    exact (sublist_lookup_order _ _ i j a b
             (replayRequests_sublist now contributionsRetention net q) Hij Hi Hj).
  - exists gone. split; [exact Hq|]. split; [exact Ha | exact Hs].
  - intros r Hr.
    assert (forall r', In r' (queuedRequest <$> List.filter (isLive now contributionsRetention) gone) ->
              exists e, In e q /\ (now - enqueuedAt e <= 86400000)%N /\ queuedRequest e = r') as Hsent.
    { intros r' Hr'. apply list_elem_of_In, list_elem_of_fmap in Hr' as [e [-> He]].
      apply list_elem_of_In, filter_In in He as [He Hl].
      exists e. split; [rewrite Hq; apply in_or_app; now left|]. split; [now apply Hlive | reflexivity]. }
    destruct (snd pass).
    + destruct Hs as [_ Hre]. rewrite Hre in Hr. now apply Hsent.
    + destruct Hs as [e [rest [Hrem [Hl [_ Hre]]]]]. rewrite Hre in Hr.
      apply in_app_or in Hr as [Hr|[<-|[]]]; [now apply Hsent|].
      exists e. split; [rewrite Hq, Hrem; apply in_or_app; right; now left|].
      split; [now apply Hlive | reflexivity].
  - intros e Hin Hold Hrem.
    destruct (snd pass).
    + destruct Hs as [Hnil _]. rewrite Hnil in Hrem. destruct Hrem.
    + destruct Hs as [e0 [rest [Hr [Hl _]]]]. rewrite Hr in Hq, Hrem.
      rewrite Hq in Hord.
      pose proof (inSubmissionOrder_app_head gone e0 rest e Hord Hrem) as Hle.
      apply isExpired_24h in Hold.
      pose proof (isExpired_mono now contributionsRetention e0 e Hle Hold) as He0.
      unfold isLive in Hl. rewrite He0 in Hl. discriminate.
Qed.

Lemma durable_queue_replay_is_fifo_witness :
  inSubmissionOrder sampleQueue /\
  (forall e, In e sampleQueue -> (86400000 < 90001000 - enqueuedAt e)%N ->
     ~ In e (snd (fst (replayRequests 90001000 contributionsRetention alwaysUp sampleQueue [])))).
Proof.
  assert (inSubmissionOrder sampleQueue) as Hs.
  { unfold inSubmissionOrder, sampleQueue.
    repeat (constructor; [|repeat constructor; cbn; lia]). constructor. }
  split; [exact Hs|].
  apply (durable_queue_replay_is_fifo 90001000 alwaysUp sampleQueue Hs).
Defined.

(** The sample pass: the entry older than 24 hours is dropped unsent, then
    A and B are reissued in that order and the queue is empty. *)
Example sample_replay :
  replayRequests 90001000 contributionsRetention alwaysUp sampleQueue []
  = ([contributionRequest "localhost" "A"; contributionRequest "localhost" "B"], [], true).
Proof. reflexivity. Qed.

(** The same pass when the network is gone after A: A is removed, B was
    tried and stays queued, and the pass is unfinished. *)
Example sample_replay_stops_at_refusal :
  replayRequests 90001000 contributionsRetention downAfterOne sampleQueue []
  = ([contributionRequest "localhost" "A"; contributionRequest "localhost" "B"],
     [queuedAt 90000500 "B"], false).
Proof. reflexivity. Qed.

(* ===================================================================== *)
(** * Part XIV. JSON: parsing inverts printing                            *)
(* ===================================================================== *)

Lemma append_String c s k : (String c s ++ k)%string = String c (s ++ k)%string.
Proof. reflexivity. Qed.

Lemma length_append s k :
  String.length (s ++ k)%string = String.length s + String.length k.
Proof. induction s as [|c s IH]; [reflexivity|]. rewrite append_String. cbn. now rewrite IH. Qed.

Lemma parseStringBody_escapeCharOnto c rest :
  parseStringBody (escapeCharOnto c rest) = consChar c (parseStringBody rest).
Proof. destruct c as [[] [] [] [] [] [] [] []]; reflexivity. Qed.

Lemma parseStringBody_escapeOnto s k :
  parseStringBody (escapeOnto s (String dquote k)) = Some (s, k).
Proof.
  induction s as [|c s IH]; [reflexivity|].
  cbn [escapeOnto]. rewrite parseStringBody_escapeCharOnto, IH. reflexivity.
Qed.

Lemma length_escapeCharOnto c k :
  String.length k < String.length (escapeCharOnto c k).
Proof.
  unfold escapeCharOnto.
  repeat (match goal with |- context [if ?b then _ else _] => destruct b end); cbn; lia.
Qed.

Lemma length_escapeOnto s k : String.length k <= String.length (escapeOnto s k).
Proof.
  induction s as [|c s IH]; cbn [escapeOnto]; [lia|].
  pose proof (length_escapeCharOnto c (escapeOnto s k)). lia.
Qed.

Lemma length_quoteOnto s k : String.length k + 2 <= String.length (quoteOnto s k).
Proof.
  unfold quoteOnto. cbn [String.length].
  pose proof (length_escapeOnto s (String dquote k)) as H. cbn [String.length] in H. lia.
Qed.

Lemma afterValue_nonDigitStart k : afterValue k -> nonDigitStart k.
Proof. intros [c [r [-> [-> | ->]]]]; reflexivity. Qed.

Lemma spanDigits_string_of_uint d k :
  nonDigitStart k ->
  spanDigits (NilEmpty.string_of_uint d ++ k) = (NilEmpty.string_of_uint d, k).
Proof.
  intros Hk. induction d as [|d IH|d IH|d IH|d IH|d IH|d IH|d IH|d IH|d IH|d IH];
    cbn [NilEmpty.string_of_uint];
    try (rewrite append_String; cbn [spanDigits]; rewrite IH; reflexivity).
  destruct k as [|c k]; [reflexivity|]. cbn in Hk |- *.
  change ((EmptyString ++ String c k)%string) with (String c k). cbn [spanDigits].
  now rewrite Hk.
Qed.

Lemma to_uint_nonnil n : N.to_uint n <> Decimal.Nil.
Proof.
  destruct n as [|p]; [discriminate|]. cbn. apply DecimalPos.Unsigned.to_uint_nonnil.
Qed.

Lemma to_uint_unorm n : Decimal.unorm (N.to_uint n) = N.to_uint n.
Proof.
  rewrite <- (DecimalN.Unsigned.of_to n) at 2. symmetry. apply DecimalN.Unsigned.to_of.
Qed.

Lemma parseNumber_String_of_N n k :
  nonDigitStart k -> parseNumber (String_of_N n ++ k) = Some (n, k).
Proof.
  intros Hk. unfold parseNumber, String_of_N.
  rewrite (spanDigits_string_of_uint _ _ Hk), NilEmpty.usu.
  destruct (Decimal.uint_eq_dec (N.to_uint n) Decimal.Nil) as [H|_];
    [now apply to_uint_nonnil in H|].
  destruct (Decimal.uint_eq_dec (Decimal.unorm (N.to_uint n)) (N.to_uint n)) as [_|H];
    [|now rewrite to_uint_unorm in H].
  now rewrite DecimalN.Unsigned.of_to.
Qed.

(** The text of a number opens with a digit. *)
Lemma String_of_N_head n :
  exists c s, String_of_N n = String c s /\ isDigit c = true.
Proof.
  unfold String_of_N. pose proof (to_uint_nonnil n) as H.
  destruct (N.to_uint n); [congruence| | | | | | | | | |];
    cbn [NilEmpty.string_of_uint]; eexists _, _; (split; [reflexivity | reflexivity]).
Qed.

Lemma isDigit_not_special c :
  isDigit c = true ->
  Ascii.eqb c dquote = false /\ Ascii.eqb c "t" = false /\ Ascii.eqb c "{" = false.
Proof. destruct c as [[] [] [] [] [] [] [] []]; cbn; intros H; try discriminate; auto. Qed.

Lemma parsePrim_valueOnto v k :
  nonDigitStart k -> parsePrim (valueOnto v k) = Some (v, k).
Proof.
  intros Hk. destruct v as [s| |n].
  - cbn. now rewrite parseStringBody_escapeOnto.
  - reflexivity.
  - cbn [valueOnto]. pose proof (parseNumber_String_of_N n k Hk) as Hn.
    destruct (String_of_N_head n) as [c [s [Hs Hc]]].
    rewrite Hs in Hn |- *. rewrite append_String in Hn |- *.
    destruct (isDigit_not_special c Hc) as [H1 [H2 _]].
    cbn [parsePrim]. rewrite H1, H2, Hn. reflexivity.
Qed.

Lemma length_valueOnto v k : String.length k <= String.length (valueOnto v k).
Proof.
  destruct v as [s| |n]; cbn [valueOnto].
  - pose proof (length_quoteOnto s k). lia.
  - cbn. lia.
  - rewrite length_append. lia.
Qed.

Section ObjectRoundTrip.

Context {V : Type} (printValue : V -> string -> string)
        (parseValue : string -> option (V * string)).

Hypothesis parse_print :
  forall v k, afterValue k -> parseValue (printValue v k) = Some (v, k).
Hypothesis length_print :
  forall v k, String.length k <= String.length (printValue v k).

Lemma length_membersOnto ms k :
  length ms + String.length k <= String.length (membersOnto printValue ms k).
Proof.
  induction ms as [|[key v] ms IH]; [cbn; lia|].
  cbn [membersOnto length].
  match goal with |- context [printValue v ?K] =>
    pose proof (length_quoteOnto key (String ":" (printValue v K))) as Hq;
    pose proof (length_print v K) as Hp
  end.
  cbn [String.length] in Hq. destruct ms as [|m ms].
  - cbn [length] in *. lia.
  - cbn [String.length] in Hp. cbn [length] in *. lia.
Qed.

Lemma parseMembers_membersOnto ms k fuel :
  ms <> [] -> length ms <= fuel ->
  parseMembers parseValue fuel (membersOnto printValue ms (String "}" k)) = Some (ms, k).
Proof.
  revert fuel. induction ms as [|[key v] ms IH]; intros fuel Hne Hf; [congruence|].
  destruct fuel as [|fuel]; [cbn in Hf; lia|].
  cbn [membersOnto]. unfold quoteOnto. cbn [parseMembers].
  replace (Ascii.eqb dquote dquote) with true by reflexivity.
  rewrite parseStringBody_escapeOnto.
  destruct ms as [|m ms].
  - rewrite parse_print by (eexists _, _; split; [reflexivity | now right]).
    reflexivity.
  - rewrite parse_print by (eexists _, _; split; [reflexivity | now left]).
    rewrite IH; [reflexivity | discriminate | cbn in Hf |- *; lia].
Qed.

Lemma parseObject_objectOnto ms k :
  parseObject parseValue (objectOnto printValue ms k) = Some (ms, k).
Proof.
  unfold objectOnto. destruct ms as [|[key v] ms]; [reflexivity|].
  assert (parseObject parseValue
            (String "{" (membersOnto printValue ((key, v) :: ms) (String "}" k)))
          = parseMembers parseValue
              (String.length (membersOnto printValue ((key, v) :: ms) (String "}" k)))
              (membersOnto printValue ((key, v) :: ms) (String "}" k))) as ->
    by reflexivity.
  apply parseMembers_membersOnto; [discriminate|].
  pose proof (length_membersOnto ((key, v) :: ms) (String "}" k)). lia.
Qed.

End ObjectRoundTrip.

Lemma parseParams_stringify (p : Params) k :
  parseObject parsePrim (objectOnto valueOnto p k) = Some (p, k).
Proof.
  apply parseObject_objectOnto.
  - intros v k' Hk. apply parsePrim_valueOnto. now apply afterValue_nonDigitStart.
  - apply length_valueOnto.
Qed.

(** [JSON.stringify] tells query objects apart. *)
Lemma JSON_stringify_params_inj p q :
  JSON_stringify_params p = JSON_stringify_params q -> p = q.
Proof.
  unfold JSON_stringify_params. intros H.
  pose proof (parseParams_stringify p "") as Hp. rewrite H, parseParams_stringify in Hp.
  congruence.
Qed.

Lemma length_jvalueOnto v k : String.length k <= String.length (jvalueOnto v k).
Proof.
  destruct v as [p|o]; cbn [jvalueOnto]; [apply length_valueOnto|].
  unfold objectOnto. cbn [String.length].
  pose proof (length_membersOnto valueOnto length_valueOnto o (String "}" k)) as H.
  cbn [String.length] in H. lia.
Qed.

Lemma parseJValue_jvalueOnto v k :
  afterValue k -> parseJValue (jvalueOnto v k) = Some (v, k).
Proof.
  intros Hk. destruct v as [p|o]; cbn [jvalueOnto].
  - pose proof (parsePrim_valueOnto p k (afterValue_nonDigitStart k Hk)) as Hp.
    destruct p as [s| |n].
    + unfold parseJValue. cbn [valueOnto quoteOnto] in *. now rewrite Hp.
    + reflexivity.
    + cbn [valueOnto] in *. destruct (String_of_N_head n) as [c [s [Hs Hc]]].
      rewrite Hs, append_String in Hp |- *.
      destruct (isDigit_not_special c Hc) as [_ [_ H3]].
      unfold parseJValue. rewrite Hp.
      destruct c as [[] [] [] [] [] [] [] []]; try reflexivity; discriminate.
  - pose proof (parseParams_stringify o k) as Ho.
    unfold parseJValue, objectOnto in *. now rewrite Ho.
Qed.

(** [JSON.parse(JSON.stringify(doc))] gives the document back. *)
Lemma JSON_parse_stringify doc : JSON_parse (JSON_stringify doc) = Some doc.
Proof.
  unfold JSON_parse, JSON_stringify.
  rewrite (parseObject_objectOnto jvalueOnto parseJValue parseJValue_jvalueOnto
             length_jvalueOnto doc ""). reflexivity.
Qed.

Lemma evaluateOfflineCheck_of_manifest (localStorage : gmap string string) m v :
  localStorage !! OFFLINE_AREA_STORAGE_KEY = Some (JSON_stringify (manifestDocument m)) ->
  evaluateOfflineCheck localStorage v
  = {| cached := String.eqb (JSON_stringify_params (query m))
                            (JSON_stringify_params (currentQuerySnapshot v));
       dependsOn := Some (currentQuerySnapshot v) |}.
Proof.
  intros Hls. unfold evaluateOfflineCheck. rewrite Hls.
  rewrite JSON_parse_stringify. reflexivity.
Qed.

(* ===================================================================== *)
(** * Part XV. The offline bundle builder                                 *)
(* ===================================================================== *)

Lemma listCalls_app a b : listCalls (a ++ b) = listCalls a ++ listCalls b.
Proof. unfold listCalls. apply omap_app. Qed.

Lemma detailCalls_app a b : detailCalls (a ++ b) = detailCalls a ++ detailCalls b.
Proof. unfold detailCalls. apply omap_app. Qed.

Section Builder.

Variable be : Backend.

(** Warming the media cache never rejects, whatever the media fetches
    do, and makes media calls only. *)
Lemma warm_media urls log :
  exists ev,
    Promise_all (map (fun u => catch_null (fetch be u)) urls) log = (Ok tt, log ++ ev) /\
    listCalls ev = [] /\ detailCalls ev = [] /\ noFailedFetch ev.
Proof.
  revert log. induction urls as [|u urls IH]; intros log.
  - exists []. cbn. rewrite app_nil_r. repeat split.
  - cbn [map Promise_all].
    assert (catch_null (fetch be u) log
            = (Ok tt, log ++ [MediaCall u (mediaResponse be log u)])) as -> by reflexivity.
    destruct (IH (log ++ [MediaCall u (mediaResponse be log u)])) as [ev [He [Hl [Hd Hf]]]].
    rewrite He. exists (MediaCall u (mediaResponse be log u) :: ev).
    rewrite <- app_assoc. cbn [app]. repeat split; try assumption.
Qed.

Lemma forEachItem_spec results n log :
  exists ev,
    snd (forEachItem be results n log) = log ++ ev /\
    listCalls ev = [] /\
    length (detailCalls ev) <= length results /\
    match fst (forEachItem be results n log) with
    | Ok m => m = n + length results /\
              length (detailCalls ev) = length results /\
              noFailedFetch ev
    | Threw => exists front c, ev = front ++ [c] /\ isFailedFetch c = true
    end.
Proof.
  revert n log. induction results as [|item rest IH]; intros n log.
  - exists []. cbn. rewrite app_nil_r. repeat split; lia.
  - cbn [forEachItem]. unfold bind, api_get_detail. cbn beta zeta.
    destruct (detailResponse be log (itemId item)) as [detail|] eqn:Hd.
    + destruct (warm_media (mediaUrls detail)
                  (log ++ [DetailCall (itemId item) (Ok detail)]))
        as [ev1 [He1 [Hl1 [Hd1 Hf1]]]].
      rewrite !He1.
      destruct (IH (n + 1) ((log ++ [DetailCall (itemId item) (Ok detail)]) ++ ev1))
        as [ev2 [He2 [Hl2 [Hle2 Hr2]]]].
      exists (DetailCall (itemId item) (Ok detail) :: ev1 ++ ev2).
      split; [rewrite He2, <- !app_assoc; reflexivity|].
      split; [cbn; rewrite listCalls_app, Hl1, Hl2; reflexivity|].
      split; [cbn; rewrite detailCalls_app, Hd1; cbn; lia|].
      destruct (fst (forEachItem be rest (n + 1)
                       ((log ++ [DetailCall (itemId item) (Ok detail)]) ++ ev1))).
      * destruct Hr2 as [-> [Hd2 Hf2]].
        split; [cbn; lia|]. split; [cbn; rewrite detailCalls_app, Hd1; cbn; lia|].
        unfold noFailedFetch in *. cbn. rewrite existsb_app, Hf1, Hf2. reflexivity.
      * destruct Hr2 as [front [c [-> Hc]]].
        exists (DetailCall (itemId item) (Ok detail) :: ev1 ++ front), c.
        split; [cbn; now rewrite <- app_assoc | exact Hc].
    + exists [DetailCall (itemId item) Threw]. cbn.
      split; [reflexivity|]. split; [reflexivity|]. split; [lia|].
      exists [], (DetailCall (itemId item) Threw). split; reflexivity.
Qed.

End Builder.

Section PageWalk.

Variables (be : Backend) (baseParams : Params).

Lemma continues_false_iff data :
  negb (hasNext data) || (length (resultsOf data) =? 0)%nat
  = negb (continues (Ok data)).
Proof.
  cbn [continues]. destruct (hasNext data), (length (resultsOf data) =? 0)%nat; reflexivity.
Qed.

Lemma whileLoop_spec fuel page n log :
  maxPages + 1 - page <= fuel ->
  exists ev,
    snd (whileLoop be baseParams fuel page n log) = log ++ ev /\
    walked baseParams page (listCalls ev) /\
    (honoursPageSize be ->
       length (detailCalls ev) <= length (listCalls ev) * pageSize) /\
    match fst (whileLoop be baseParams fuel page n log) with
    | Ok m => m = n + length (detailCalls ev) /\
              noFailedFetch ev /\
              (length (listCalls ev) = maxPages + 1 - page \/
               exists front p r,
                 listCalls ev = front ++ [(p, r)] /\ continues r = false)
    | Threw => exists front c, ev = front ++ [c] /\ isFailedFetch c = true
    end.
Proof.
  revert page n log. induction fuel as [|fuel IH]; intros page n log Hfuel.
  - exists []. cbn -[maxPages Nat.sub Nat.add Nat.mul]. rewrite app_nil_r.
    repeat split; lia.
  - cbn [whileLoop]. destruct (page <=? maxPages)%nat eqn:Hpage.
    2:{ apply Nat.leb_gt in Hpage. exists []. cbn -[maxPages Nat.sub Nat.add Nat.mul].
        rewrite app_nil_r. repeat split; lia. }
    apply Nat.leb_le in Hpage.
    unfold bind, api_get_list. cbn beta zeta.
    destruct (listResponse be log (pageParams baseParams page)) as [data|] eqn:Hlist.
    2:{ exists [ListCall (pageParams baseParams page) Threw].
        cbn -[pageSize maxPages Nat.mul Nat.sub Nat.add].
        split; [reflexivity|]. split; [repeat split; try lia; congruence|].
        split; [lia|].
        exists [], (ListCall (pageParams baseParams page) Threw). split; reflexivity. }
    set (log1 := log ++ [ListCall (pageParams baseParams page) (Ok data)]).
    destruct (forEachItem_spec be (resultsOf data) n log1) as [ev1 [He1 [Hl1 [Hle1 Hr1]]]].
    destruct (forEachItem be (resultsOf data) n log1) as [r1 log2] eqn:Hfe.
    cbn [fst snd] in He1, Hr1. subst log2.
    assert (honoursPageSize be -> length (resultsOf data) <= pageSize) as Hsize
      by (intros Hh; exact (Hh _ _ _ Hlist)).
    destruct r1 as [m|].
    2:{ exists (ListCall (pageParams baseParams page) (Ok data) :: ev1).
        subst log1. rewrite <- app_assoc. cbn [app fst snd].
        split; [reflexivity|]. cbn [listCalls omap list_omap]. fold (listCalls ev1). rewrite Hl1.
        split; [cbn -[pageSize maxPages Nat.mul Nat.sub Nat.add]; repeat split; try lia; congruence|].
        split; [intros Hh; specialize (Hsize Hh); cbn -[pageSize maxPages Nat.mul Nat.sub Nat.add]; fold (detailCalls ev1); lia|].
        destruct Hr1 as [front [c [-> Hc]]].
        exists (ListCall (pageParams baseParams page) (Ok data) :: front), c.
        split; [reflexivity | exact Hc]. }
    destruct Hr1 as [-> [Hd1 Hf1]].
    rewrite continues_false_iff.
    destruct (continues (Ok data)) eqn:Hcont; cbn [negb].
    + destruct (IH (page + 1) (n + length (resultsOf data)) (log1 ++ ev1) ltac:(lia))
        as [ev2 [He2 [Hw2 [Hs2 Hr2]]]].
      exists (ListCall (pageParams baseParams page) (Ok data) :: ev1 ++ ev2).
      split; [rewrite He2; subst log1; rewrite <- !app_assoc; reflexivity|].
      assert (listCalls (ListCall (pageParams baseParams page) (Ok data) :: ev1 ++ ev2)
              = (pageParams baseParams page, Ok data) :: listCalls ev2) as Hlc
        by (cbn -[pageSize maxPages Nat.mul Nat.sub Nat.add]; fold (listCalls (ev1 ++ ev2)); now rewrite listCalls_app, Hl1).
      assert (detailCalls (ListCall (pageParams baseParams page) (Ok data) :: ev1 ++ ev2)
              = detailCalls ev1 ++ detailCalls ev2) as Hdc
        by (cbn -[pageSize maxPages Nat.mul Nat.sub Nat.add]; fold (detailCalls (ev1 ++ ev2)); now rewrite detailCalls_app).
      rewrite Hlc, Hdc, length_app.
      split.
      { cbn [walked]. replace (S page) with (page + 1) by lia.
        split; [reflexivity|]. split; [exact Hpage|]. split; [intros _; exact Hcont | exact Hw2]. }
      split.
      { intros Hh. specialize (Hsize Hh). specialize (Hs2 Hh). cbn [length]. lia. }
      destruct (fst (whileLoop be baseParams fuel (page + 1)
                       (n + length (resultsOf data)) (log1 ++ ev1))).
      * destruct Hr2 as [-> [Hf2 Hstop]].
        split; [lia|]. split.
        { unfold noFailedFetch in *. cbn -[pageSize maxPages Nat.mul Nat.sub Nat.add]. now rewrite existsb_app, Hf1, Hf2. }
        destruct Hstop as [Hlen | [front [p [r [Hlast Hc]]]]].
        -- left. cbn [length]. lia.
        -- right. exists ((pageParams baseParams page, Ok data) :: front), p, r.
           split; [|assumption]. rewrite Hlast. reflexivity.
      * destruct Hr2 as [front [c [-> Hc]]].
        exists (ListCall (pageParams baseParams page) (Ok data) :: ev1 ++ front), c.
        split; [cbn; now rewrite <- app_assoc | exact Hc].
    + exists (ListCall (pageParams baseParams page) (Ok data) :: ev1).
      subst log1. rewrite <- app_assoc. cbn [app fst snd ret].
      split; [reflexivity|].
      assert (listCalls (ListCall (pageParams baseParams page) (Ok data) :: ev1)
              = [(pageParams baseParams page, Ok data)]) as Hlc
        by (cbn -[pageSize maxPages Nat.mul Nat.sub Nat.add]; fold (listCalls ev1); now rewrite Hl1).
      rewrite Hlc.
      split; [cbn -[pageSize maxPages Nat.mul Nat.sub Nat.add]; repeat split; try lia; congruence|].
      split; [intros Hh; specialize (Hsize Hh); cbn -[pageSize maxPages Nat.mul Nat.sub Nat.add]; fold (detailCalls ev1); lia|].
      split; [cbn -[pageSize maxPages Nat.mul Nat.sub Nat.add]; fold (detailCalls ev1); lia|].
      split; [exact Hf1|].
      right. exists [], (pageParams baseParams page), (Ok data).
      split; [reflexivity | assumption].
Qed.

(** The loop never runs out of fuel: any fuel that covers the pages left
    gives the same run. *)
Lemma whileLoop_fuel fuel fuel' page n log :
  maxPages + 1 - page <= fuel -> maxPages + 1 - page <= fuel' ->
  whileLoop be baseParams fuel page n log = whileLoop be baseParams fuel' page n log.
Proof.
  revert fuel' page n log. induction fuel as [|fuel IH]; intros fuel' page n log H1 H2.
  - destruct fuel' as [|fuel']; [reflexivity|]. cbn [whileLoop].
    destruct (page <=? maxPages)%nat eqn:Hp; [apply Nat.leb_le in Hp; lia | reflexivity].
  - destruct fuel' as [|fuel'].
    + cbn [whileLoop].
      destruct (page <=? maxPages)%nat eqn:Hp; [apply Nat.leb_le in Hp; lia | reflexivity].
    + cbn [whileLoop]. destruct (page <=? maxPages)%nat eqn:Hp; [|reflexivity].
      apply Nat.leb_le in Hp. unfold bind.
      destruct (api_get_list be (pageParams baseParams page) log) as [[data|] log1];
        [|reflexivity].
      destruct (forEachItem be (resultsOf data) n log1) as [[m|] log2]; [|reflexivity].
      destruct (negb (hasNext data) || (length (resultsOf data) =? 0)%nat); [reflexivity|].
      apply IH; lia.
Qed.

Lemma walked_length page calls :
  walked baseParams page calls -> length calls <= maxPages + 1 - page.
Proof.
  revert page. induction calls as [|[p r] calls IH]; intros page;
    cbn -[maxPages Nat.sub Nat.add]; [lia|].
  intros [_ [Hp [_ Hw]]]. specialize (IH _ Hw). lia.
Qed.

Lemma walked_params page calls :
  walked baseParams page calls ->
  map fst calls = map (pageParams baseParams) (seq page (length calls)).
Proof.
  revert page. induction calls as [|[p r] calls IH]; intros page; cbn; [reflexivity|].
  intros [-> [_ [_ Hw]]]. now rewrite (IH _ Hw).
Qed.

End PageWalk.

Lemma walked_continues baseParams page calls front p r rest :
  walked baseParams page calls ->
  calls = front ++ (p, r) :: rest -> rest <> [] -> continues r = true.
Proof.
  revert page calls. induction front as [|[p0 r0] front IH]; intros page calls Hw -> Hrest.
  - cbn in Hw. destruct Hw as [_ [_ [Hc _]]]. now apply Hc.
  - cbn in Hw. destruct Hw as [_ [_ [_ Hw]]]. exact (IH _ _ Hw eq_refl Hrest).
Qed.

Lemma failed_fetch_exists front c :
  isFailedFetch c = true -> existsb isFailedFetch (front ++ [c]) = true.
Proof. intros Hc. rewrite existsb_app. cbn. rewrite Hc. now rewrite orb_true_r. Qed.

(** What a run of the builder that was not refused leaves behind. *)
Lemma downloadForOffline_online be onLine now v later st :
  isOffline onLine = false ->
  let result := downloadForOffline be onLine now v later st in
  let log := snd result in
  walked (currentQuerySnapshot v) 1 (listCalls log) /\
  (honoursPageSize be -> length (detailCalls log) <= length (listCalls log) * pageSize) /\
  ((noFailedFetch log /\
    fst result =
      {| localStorage :=
           <[OFFLINE_AREA_STORAGE_KEY :=
               JSON_stringify (manifestDocument
                 {| query := currentQuerySnapshot later; downloadedAt := now;
                    itemCount := N.of_nat (length (detailCalls log)) |})]>
             (storageAfter be log (localStorage st));
         offlineDownloadError := None;
         offlineDownloading := false |} /\
    (length (listCalls log) = maxPages \/
     exists front p r, listCalls log = front ++ [(p, r)] /\ continues r = false))
   \/
   ((exists front c, log = front ++ [c] /\ isFailedFetch c = true) /\
    fst result =
      {| localStorage := storageAfter be log (localStorage st);
         offlineDownloadError := Some "explore.offline.downloadError";
         offlineDownloading := false |})).
Proof.
  intros Hon. unfold downloadForOffline. rewrite Hon.
  destruct (whileLoop_spec be (currentQuerySnapshot v) (S maxPages) 1 0 [] ltac:(lia))
    as [ev [He [Hw [Hs Hr]]]].
  destruct (whileLoop be (currentQuerySnapshot v) (S maxPages) 1 0 []) as [r log] eqn:Hrun.
  cbn [fst snd app] in He, Hr. subst ev.
  destruct r as [totalItems|]; cbn zeta; cbn [fst snd].
  - destruct Hr as [-> [Hf Hstop]]. split; [exact Hw|]. split; [exact Hs|]. left.
    split; [exact Hf|]. split; [reflexivity|].
    destruct Hstop as [Hlen|Hstop]; [left; lia | right; exact Hstop].
  - split; [exact Hw|]. split; [exact Hs|]. right. split; [exact Hr | reflexivity].
Qed.

(** The response interceptor touches [token] and [user] only, and removes
    both or neither. *)
Lemma storageAfter_spec be log (stored : gmap string string) :
  (forall k, k <> "token" -> k <> "user" -> storageAfter be log stored !! k = stored !! k) /\
  ((met401 be [] log = false /\ storageAfter be log stored = stored) \/
   (met401 be [] log = true /\
    storageAfter be log stored !! "token" = None /\
    storageAfter be log stored !! "user" = None)).
Proof.
  unfold storageAfter. destruct (met401 be [] log).
  - split.
    + intros k Ht Hu. rewrite !lookup_delete_ne by congruence. reflexivity.
    + right. split; [reflexivity|]. split.
      * rewrite lookup_delete_ne by discriminate. apply lookup_delete_eq.
      * apply lookup_delete_eq.
  - split; [reflexivity | left; split; reflexivity].
Qed.

(** C6, as the spec states it, fails: the builder has no ceiling on items.
    When the list endpoint answers with a bare array of 501 items, all 501
    details are fetched and the manifest records 501. *)
Lemma bundle_exceeds_500_items_on_oversized_page :
  let result :=
    downloadForOffline oversizedBackend (Some true) 1234 churchView churchView freshState in
  length (listCalls (snd result)) = 1 /\
  length (detailCalls (snd result)) = 501 /\
  ~ length (detailCalls (snd result)) <= 500 /\
  localStorage (fst result) !! OFFLINE_AREA_STORAGE_KEY
    = Some (JSON_stringify (manifestDocument
              {| query := currentQuerySnapshot churchView;
                 downloadedAt := 1234; itemCount := 501 |})).
Proof.
  cbv zeta.
  assert (length (detailCalls
            (snd (downloadForOffline oversizedBackend (Some true) 1234 churchView churchView
                    freshState)))
          = 501) as Hn by (vm_compute; reflexivity).
  split; [vm_compute; reflexivity|]. split; [exact Hn|].
  split; [rewrite Hn; lia | vm_compute; reflexivity].
Qed.

(** C6 (amended). For every query, a run of the bundle builder that is
    not refused asks the list endpoint for the pages 1, 2, ... in order,
    each with page size 100 and the filters as they were when the download
    started, and for at most 5 pages; it fetches at most 500 items
    provided no page holds more than the 100 results asked for; a page
    without a next pointer or without results is the last one asked for,
    and a run that completes short of 5 pages ended on such a page; failed
    media fetches do not abort it: the run completes exactly when no list
    or detail fetch was rejected; and on completion the manifest
    [{query, downloadedAt: now, itemCount}] is stored under the fixed key,
    whatever was there, with the filters as they are at that moment for
    [query] and the number of items fetched for [itemCount]. The rest of
    the storage is what the API client has left of it: [token] and [user]
    are gone when one of the requests met a 401, and no other key is
    touched. *)
Theorem offline_bundle_walks_at_most_five_pages (be : Backend) (onLine : option bool)
    (now : N) (v later : ExploreView) (st : ViewState) :
  isOffline onLine = false ->
  let result := downloadForOffline be onLine now v later st in
  let log := snd result in
  (length (listCalls log) <= 5 /\
   map fst (listCalls log)
     = map (fun page => currentQuerySnapshot v
                        ++ [("page", PNumber (N.of_nat page)); ("page_size", PNumber 100)])
           (seq 1 (length (listCalls log)))) /\
  ((forall calls params data,
      listResponse be calls params = Ok data -> length (resultsOf data) <= 100) ->
   length (detailCalls log) <= 500) /\
  (forall front p r rest,
     listCalls log = front ++ (p, r) :: rest -> rest <> [] ->
     exists data, r = Ok data /\ hasNext data = true /\ resultsOf data <> []) /\
  (offlineDownloadError (fst result) = None <-> existsb isFailedFetch log = false) /\
  (existsb isFailedFetch log = false ->
   localStorage (fst result) !! OFFLINE_AREA_STORAGE_KEY
     = Some (JSON_stringify (manifestDocument
               {| query := currentQuerySnapshot later; downloadedAt := now;
                  itemCount := N.of_nat (length (detailCalls log)) |})) /\
   (forall k, k <> OFFLINE_AREA_STORAGE_KEY -> k <> "token" -> k <> "user" ->
      localStorage (fst result) !! k = localStorage st !! k) /\
   (if met401 be [] log
    then localStorage (fst result) !! "token" = None /\
         localStorage (fst result) !! "user" = None
    else localStorage (fst result) !! "token" = localStorage st !! "token" /\
         localStorage (fst result) !! "user" = localStorage st !! "user") /\
   (length (listCalls log) = 5 \/
    exists front p data,
      listCalls log = front ++ [(p, Ok data)] /\
      (hasNext data = false \/ resultsOf data = []))).
Proof.
  intros Hon result log.
  destruct (downloadForOffline_online be onLine now v later st Hon) as [Hw [Hs Hr]].
  fold result in Hw, Hs, Hr. fold log in Hw, Hs, Hr.
  pose proof (walked_length _ _ _ Hw) as Hlen.
  pose proof (walked_params _ _ _ Hw) as Hpar.
  change (maxPages + 1 - 1) with 5 in Hlen.
  assert (forall front c, log = front ++ [c] -> isFailedFetch c = true ->
                          existsb isFailedFetch log = false -> False) as Hcontra.
  { intros front c -> Hc Hf. rewrite (failed_fetch_exists front c Hc) in Hf. discriminate. }
  split; [split; [exact Hlen | exact Hpar]|].
  split.
  { intros Hh. assert (honoursPageSize be) as Hh' by exact Hh. specialize (Hs Hh').
    unfold pageSize in Hs. nia. }
  split.
  { intros front p r rest Hcalls Hrest.
    pose proof (walked_continues _ _ _ front p r rest Hw Hcalls Hrest) as Hc.
    destruct r as [data|]; [|discriminate]. exists data. cbn in Hc.
    apply andb_true_iff in Hc as [Hn Hre]. split; [reflexivity|]. split; [exact Hn|].
    intros Hnil. rewrite Hnil in Hre. discriminate. }
  destruct Hr as [[Hf [Hres Hstop]] | [[front [c [Hlog Hc]]] Hres]].
  - split; [rewrite Hres; split; [intros _; exact Hf | reflexivity]|].
    intros _. rewrite Hres. cbn [localStorage].
    destruct (storageAfter_spec be log (localStorage st)) as [Hother Hauth].
    split; [apply lookup_insert_eq|].
    split.
    { intros k Hk Ht Hu. rewrite lookup_insert_ne by congruence. now apply Hother. }
    split.
    { rewrite !lookup_insert_ne by discriminate.
      destruct Hauth as [[-> ->] | [-> Hgone]]; [split; reflexivity | exact Hgone]. }
    destruct Hstop as [H5 | [front [p [r [Hcalls Hc]]]]]; [left; exact H5|].
    right. destruct r as [data|].
    + exists front, p, data. split; [exact Hcalls|]. cbn in Hc.
      apply andb_false_iff in Hc as [Hc|Hc]; [now left|].
      right. apply negb_false_iff, Nat.eqb_eq in Hc. now apply length_zero_iff_nil.
    + exfalso. assert (In (p, Threw) (listCalls log)) as Hin
        by (rewrite Hcalls; apply in_or_app; right; now left).
      unfold listCalls in Hin. apply list_elem_of_In, list_elem_of_omap in Hin as [c [Hin Hm]].
      destruct c as [p' r'| |]; try discriminate. injection Hm as -> ->.
      unfold noFailedFetch in Hf.
      assert (existsb isFailedFetch log = true) as Ht
        by (apply existsb_exists; exists (ListCall p Threw); split;
            [now apply list_elem_of_In | reflexivity]).
      congruence.
  - split.
    + rewrite Hres. cbn. split; [discriminate|]. intros Hf. exfalso. eauto.
    + intros Hf. exfalso. eauto.
Qed.

Lemma offline_bundle_walks_at_most_five_pages_witness :
  isOffline (Some true) = false /\
  let result := downloadForOffline mediaDownBackend (Some true) 1234 churchView
                  churchImagesView stateWithManifest in
  (existsb isFailedMedia (snd result) = true /\
   existsb isFailedFetch (snd result) = false /\
   offlineDownloadError (fst result) = None) /\
  localStorage (fst result) !! OFFLINE_AREA_STORAGE_KEY
    = Some (JSON_stringify (manifestDocument
              {| query := currentQuerySnapshot churchImagesView; downloadedAt := 1234;
                 itemCount := N.of_nat (length (detailCalls (snd result))) |})).
Proof.
  split; [reflexivity|]. cbv zeta.
  assert (existsb isFailedFetch
            (snd (downloadForOffline mediaDownBackend (Some true) 1234 churchView
                    churchImagesView stateWithManifest)) = false) as Hok
    by (vm_compute; reflexivity).
  split; [split; [|split; [exact Hok|]]; vm_compute; reflexivity|].
  destruct (offline_bundle_walks_at_most_five_pages mediaDownBackend (Some true) 1234
              churchView churchImagesView stateWithManifest eq_refl)
    as [_ [_ [_ [_ Hdone]]]].
  exact (proj1 (Hdone Hok)).
Defined.

(** C9. If a list-page fetch or an item-detail fetch of the download is
    rejected, the run ends there (the rejected fetch is the last call
    made), the download error is shown, and the stored manifest, if any,
    is what it was: what is stored under the manifest's key is unchanged.
    So is every other key but [token] and [user], which the API client
    removes when one of the requests met a 401. *)
Theorem failed_fetch_aborts_bundle_and_keeps_manifest (be : Backend)
    (onLine : option bool) (now : N) (v later : ExploreView) (st : ViewState) :
  let result := downloadForOffline be onLine now v later st in
  existsb isFailedFetch (snd result) = true ->
  localStorage (fst result) !! OFFLINE_AREA_STORAGE_KEY
    = localStorage st !! OFFLINE_AREA_STORAGE_KEY /\
  (forall k, k <> "token" -> k <> "user" ->
     localStorage (fst result) !! k = localStorage st !! k) /\
  (if met401 be [] (snd result)
   then localStorage (fst result) !! "token" = None /\
        localStorage (fst result) !! "user" = None
   else localStorage (fst result) = localStorage st) /\
  offlineDownloadError (fst result) = Some "explore.offline.downloadError" /\
  offlineDownloading (fst result) = false /\
  exists front c, snd result = front ++ [c] /\ isFailedFetch c = true.
Proof.
  intros result Hfail. destruct (isOffline onLine) eqn:Hon.
  - unfold result, downloadForOffline in Hfail. rewrite Hon in Hfail. discriminate.
  - destruct (downloadForOffline_online be onLine now v later st Hon) as [_ [_ Hr]].
    fold result in Hr. destruct Hr as [[Hf _] | [Hlast Hres]].
    + unfold noFailedFetch in Hf. congruence.
    + rewrite Hres. cbn [localStorage offlineDownloadError offlineDownloading].
      destruct (storageAfter_spec be (snd result) (localStorage st)) as [Hother Hauth].
      split; [apply Hother; discriminate|]. split; [exact Hother|].
      split; [|split; [reflexivity|split; [reflexivity | exact Hlast]]].
      destruct Hauth as [[-> ->] | [-> Hgone]]; [reflexivity | exact Hgone].
Qed.

Lemma failed_fetch_aborts_bundle_and_keeps_manifest_witness :
  let result := downloadForOffline expiredTokenBackend (Some true) 1234 churchImagesView
                  churchImagesView signedInWithManifest in
  existsb isFailedFetch (snd result) = true /\
  localStorage (fst result) !! OFFLINE_AREA_STORAGE_KEY = Some earlierManifest /\
  localStorage signedInWithManifest !! "token" = Some "abc" /\
  localStorage (fst result) !! "token" = None.
Proof.
  cbv zeta.
  assert (existsb isFailedFetch
            (snd (downloadForOffline expiredTokenBackend (Some true) 1234 churchImagesView
                    churchImagesView signedInWithManifest)) = true) as Hfail
    by (vm_compute; reflexivity).
  split; [exact Hfail|].
  destruct (failed_fetch_aborts_bundle_and_keeps_manifest expiredTokenBackend (Some true) 1234
              churchImagesView churchImagesView signedInWithManifest Hfail) as [Hkey _].
  split; [rewrite Hkey; reflexivity|]. split; vm_compute; reflexivity.
Defined.

(* ===================================================================== *)
(** * Part XVI. The query signature and the offline-copy check            *)
(* ===================================================================== *)

Lemma map_fst_setIf c k v (p : Params) :
  map fst (setIf c k v p) = map fst p ++ (if c then [k] else []).
Proof. unfold setIf. destruct c; [now rewrite map_app | now rewrite app_nil_r]. Qed.

Lemma In_setIf c k v (p : Params) x :
  In x (setIf c k v p) -> In x p \/ (c = true /\ x = (k, v)).
Proof.
  unfold setIf. destruct c; [|tauto].
  intros H. apply in_app_or in H as [H|[H|[]]]; [tauto | right; split; congruence].
Qed.

Lemma sublist_optional {A} (c : bool) (k : A) : sublist (if c then [k] else []) [k].
Proof. destruct c; [reflexivity | apply sublist_nil_l]. Qed.

Lemma sublist_optional_app {A} (c : bool) (k : A) l r :
  sublist l r -> sublist ((if c then [k] else []) ++ l) (k :: r).
Proof. intros H. apply (sublist_app _ [k] l r); [apply sublist_optional | exact H]. Qed.

Lemma snapshot_keys_in_order v :
  sublist (map fst (currentQuerySnapshot v)) snapshotKeys.
Proof.
  unfold currentQuerySnapshot. cbv zeta. rewrite !map_fst_setIf. cbn [map app].
  rewrite <- !app_assoc. unfold snapshotKeys.
  do 9 (apply sublist_optional_app). apply sublist_optional.
Qed.

Lemma snapshot_values_not_empty v k s :
  In (k, PString s) (currentQuerySnapshot v) -> s <> "".
Proof.
  unfold currentQuerySnapshot. cbv zeta. intros H.
  repeat (apply In_setIf in H as [H|[Hc H]];
          [|try discriminate; injection H as _ ->;
            unfold truthy in Hc; apply negb_true_iff, String.eqb_neq in Hc; exact Hc]).
  destruct H.
Qed.

Lemma snapshot_search_trimmed v s :
  In ("search", PString s) (currentQuerySnapshot v) -> s = trim (search v).
Proof.
  unfold currentQuerySnapshot. cbv zeta. intros H.
  repeat (apply In_setIf in H as [H|[Hc H]]; [|try discriminate; congruence]).
  destruct H.
Qed.


(** One evaluation of the check reads the storage at the manifest's key
    only, and the filters through the query object only. *)
Lemma evaluateOfflineCheck_ext (stored stored' : gmap string string) v v' :
  stored !! OFFLINE_AREA_STORAGE_KEY = stored' !! OFFLINE_AREA_STORAGE_KEY ->
  currentQuerySnapshot v = currentQuerySnapshot v' ->
  evaluateOfflineCheck stored v = evaluateOfflineCheck stored' v'.
Proof. unfold evaluateOfflineCheck. intros -> ->. reflexivity. Qed.

(** An evaluation that returns before it reads the query object answers
    false; one that reads it has read the current one. *)
Lemma evaluateOfflineCheck_deps (stored : gmap string string) v :
  match dependsOn (evaluateOfflineCheck stored v) with
  | None => cached (evaluateOfflineCheck stored v) = false
  | Some seen => seen = currentQuerySnapshot v
  end.
Proof.
  unfold evaluateOfflineCheck.
  destruct (stored !! OFFLINE_AREA_STORAGE_KEY) as [raw|]; [|reflexivity].
  destruct (truthy raw); [|reflexivity].
  destruct (JSON_parse raw); reflexivity.
Qed.

Lemma evaluateOfflineCheck_nothing_stored (stored : gmap string string) v :
  stored !! OFFLINE_AREA_STORAGE_KEY = None ->
  evaluateOfflineCheck stored v = {| cached := false; dependsOn := None |}.
Proof. intros H. unfold evaluateOfflineCheck. now rewrite H. Qed.

Lemma evaluateOfflineCheck_iff (stored : gmap string string) m v :
  stored !! OFFLINE_AREA_STORAGE_KEY = Some (JSON_stringify (manifestDocument m)) ->
  (cached (evaluateOfflineCheck stored v) = true <-> query m = currentQuerySnapshot v) /\
  dependsOn (evaluateOfflineCheck stored v) = Some (currentQuerySnapshot v).
Proof.
  intros Hs. rewrite (evaluateOfflineCheck_of_manifest stored m v Hs).
  cbn [cached dependsOn]. split; [|reflexivity]. rewrite String.eqb_eq.
  split; [apply JSON_stringify_params_inj | now intros ->].
Qed.

(** The end of a download does not take away the offline copy of the
    filters as they are at that moment. *)
Lemma downloadForOffline_keeps_check be onLine now v0 later st :
  cached (evaluateOfflineCheck (localStorage st) later) = true ->
  cached (evaluateOfflineCheck
            (localStorage (fst (downloadForOffline be onLine now v0 later st))) later) = true.
Proof.
  intros Hc. destruct (isOffline onLine) eqn:Hon.
  - unfold downloadForOffline. rewrite Hon. exact Hc.
  - destruct (downloadForOffline_online be onLine now v0 later st Hon) as [_ [_ Hr]].
    destruct Hr as [[_ [Hres _]] | [_ Hres]]; rewrite Hres; cbn [localStorage].
    + match goal with
      | |- context [manifestDocument ?m] =>
          apply (proj1 (evaluateOfflineCheck_iff _ m later (lookup_insert_eq _ _ _)))
      end.
      reflexivity.
    + rewrite <- Hc. f_equal. apply evaluateOfflineCheck_ext; [|reflexivity].
      apply (proj1 (storageAfter_spec be _ (localStorage st))); discriminate.
Qed.

Lemma pageStep_sound ev pg : badgeSound pg -> badgeSound (pageStep ev pg).
Proof.
  intros Hpg. destruct ev as [v' triggered | be onLine now v0 | k value |]; intros c Hc;
    cbn [pageStep badge filters viewState invalidated] in *.
  - specialize (Hpg c Hc). destruct (dependsOn c) as [seen|]; [|exact Hpg].
    intros Hinv. apply orb_false_iff in Hinv as [Hinv Hsame].
    apply orb_false_iff in Hinv as [Hinv _].
    apply negb_false_iff, bool_decide_eq_true_1 in Hsame.
    destruct (Hpg Hinv) as [Hseen Hcached]. split; [congruence|].
    intros Ht. rewrite <- (Hcached Ht). f_equal.
    now apply evaluateOfflineCheck_ext.
  - specialize (Hpg c Hc). destruct (dependsOn c) as [seen|]; [|exact Hpg].
    intros Hinv. destruct (Hpg Hinv) as [Hseen Hcached]. split; [exact Hseen|].
    intros Ht. apply downloadForOffline_keeps_check. now apply Hcached.
  - specialize (Hpg c Hc). destruct (dependsOn c) as [seen|]; [|exact Hpg].
    intros Hinv. destruct (Hpg Hinv) as [Hseen Hcached]. split; [exact Hseen|].
    intros Ht. rewrite <- (Hcached Ht). f_equal.
    apply evaluateOfflineCheck_ext; [|reflexivity]. cbn [localStorage].
    destruct value as [s|]; destruct k;
      (apply lookup_insert_ne || apply lookup_delete_ne); discriminate.
  - injection Hc as <-. unfold hasOfflineBundleForCurrentQuery.
    pose proof (evaluateOfflineCheck_deps (localStorage (viewState pg)) (filters pg)) as Hev.
    assert (match dependsOn (evaluateOfflineCheck (localStorage (viewState pg)) (filters pg)) with
            | None => cached (evaluateOfflineCheck (localStorage (viewState pg)) (filters pg))
                      = false
            | Some seen =>
                false = false ->
                seen = currentQuerySnapshot (filters pg) /\
                (cached (evaluateOfflineCheck (localStorage (viewState pg)) (filters pg)) = true ->
                 cached (evaluateOfflineCheck (localStorage (viewState pg)) (filters pg)) = true)
            end) as Hfresh.
    { destruct (dependsOn (evaluateOfflineCheck (localStorage (viewState pg)) (filters pg)));
        [intros _; split; [exact Hev | tauto] | exact Hev]. }
    destruct (badge pg) as [c0|] eqn:Hb; [|exact Hfresh].
    specialize (Hpg c0 Hb).
    destruct (dependsOn c0) as [seen|] eqn:Hd.
    + destruct (invalidated pg); [exact Hfresh|]. rewrite Hd. intros _. now apply Hpg.
    + rewrite Hd. exact Hpg.
Qed.

Lemma pageRun_sound evs pg : badgeSound pg -> badgeSound (pageRun evs pg).
Proof.
  revert pg. induction evs as [|ev evs IH]; intros pg Hpg; [exact Hpg|].
  apply IH, pageStep_sound, Hpg.
Qed.

Lemma mountedPage_sound v st : badgeSound (mountedPage v st).
Proof. intros c Hc. discriminate. Qed.

(** A computed whose last run read nothing reactive is never run again. *)
Lemma pageRun_untracked evs pg c :
  badge pg = Some c -> dependsOn c = None -> badge (pageRun evs pg) = Some c.
Proof.
  revert pg. induction evs as [|ev evs IH]; intros pg Hb Hd; [exact Hb|].
  apply IH; [|exact Hd].
  destruct ev; cbn [pageStep badge]; try exact Hb.
  rewrite Hb. unfold hasOfflineBundleForCurrentQuery. now rewrite Hd.
Qed.



(** The manifest of the search "church" is no offline copy of the same
    search narrowed to items with images, and is one of the search itself. *)
Example narrowed_query_has_no_offline_copy :
  cached (evaluateOfflineCheck (localStorage stateWithManifest) churchImagesView) = false /\
  cached (evaluateOfflineCheck (localStorage stateWithManifest) churchView) = true.
Proof. split; vm_compute; reflexivity. Qed.

(** A page rendered with nothing in store, then a download that completes,
    then a second render: an evaluation would now find the offline copy,
    and the page goes on showing that there is none. With a manifest in
    store at the first render, the page follows the filters. *)
Example badge_of_a_page_that_started_empty :
  let pg := pageRun [Render; DownloadEnds mediaDownBackend (Some true) 1234 churchView; Render]
              (mountedPage churchView freshState) in
  cached (evaluateOfflineCheck (localStorage (viewState pg)) (filters pg)) = true /\
  badgeShown pg = false /\
  badgeShown (pageRun [Render; SetFilters churchImagesView false; Render;
                       SetFilters churchView false; Render]
                (mountedPage churchView stateWithManifest)) = true.
Proof. cbv zeta. split; [|split]; vm_compute; reflexivity. Qed.

(* ===================================================================== *)
(** * Part XVII. More about the route table                               *)
(* ===================================================================== *)

Lemma isUserDataPath_under_root p :
  isUserDataPath p = true -> startsWith p "/api/v1/" = true.
Proof.
  unfold isUserDataPath. rewrite !orb_true_iff.
  intros [[H|H]|H]; apply startsWith_spec in H as [t ->]; reflexivity.
Qed.

(** X1. A GET navigation whose URL is not precached is answered with the
    precached [/index.html], whatever the network does (also when it is
    down), and the worker's caches and queue stay as they were. *)
Theorem navigation_served_from_app_shell (precached : URL -> bool) (now : N)
    (request : Request) (net : Network) (st : WorkerState) :
  method request = GET ->
  mode request = navigate ->
  precached (url request) = false ->
  handleRequest precached now request net st = (RespondPrecached "/index.html", st).
Proof.
  intros Hm Hn Hp. unfold handleRequest.
  rewrite (classify_GET precached request Hm), Hp, Hn. reflexivity.
Qed.

Lemma navigation_served_from_app_shell_witness :
  (method listNavigation = GET /\ mode listNavigation = navigate /\
   noPrecache (url listNavigation) = false) /\
  handleRequest noPrecache 1000%N listNavigation NetError emptyState
    = (RespondPrecached "/index.html", emptyState).
Proof.
  split; [repeat split|].
  apply (navigation_served_from_app_shell noPrecache 1000%N listNavigation NetError
           emptyState); reflexivity.
Defined.

(** X2. The images tier serves exactly the GET requests that are neither
    precached nor navigations, whose path is not under [/api/v1/], and
    that ask for an image or for a path under [/media/]: an image
    requested from the API never lands in the images cache. *)
Theorem images_tier_requests (precached : URL -> bool) (request : Request) :
  classify precached request = Some imagesStrategy <->
  (method request = GET /\
   precached (url request) = false /\
   mode request <> navigate /\
   startsWith (pathname (url request)) "/api/v1/" = false /\
   (destination request = dest_image \/
    startsWith (pathname (url request)) "/media/" = true)).
Proof.
  destruct (decide (method request = GET)) as [Hm|Hm].
  2:{ rewrite classify_not_GET by assumption. split; [discriminate | tauto]. }
  rewrite (classify_GET precached request Hm).
  destruct (precached (url request)) eqn:Hp.
  { split; [discriminate | intros [_ [H _]]; discriminate]. }
  destruct (bool_decide (mode request = navigate)) eqn:Hn.
  { apply bool_decide_eq_true in Hn. split; [discriminate | tauto]. }
  apply bool_decide_eq_false in Hn.
  destruct (isUserDataPath (pathname (url request))) eqn:Hu.
  { apply isUserDataPath_under_root in Hu. rewrite Hu.
    split; [discriminate | intros [_ [_ [_ [H _]]]]; discriminate]. }
  destruct (startsWith (pathname (url request)) "/api/v1/") eqn:Hr.
  { split; [|intros [_ [_ [_ [H _]]]]; discriminate].
    unfold apiGetHandler. destruct (isListLike (url request)); discriminate. }
  destruct (bool_decide (destination request = dest_image)) eqn:Hd; cbn [orb].
  - apply bool_decide_eq_true in Hd. split; [intros _; tauto | reflexivity].
  - apply bool_decide_eq_false in Hd.
    destruct (startsWith (pathname (url request)) "/media/") eqn:Hmedia.
    + split; [intros _; tauto | reflexivity].
    + split; [discriminate|]. intros [_ [_ [_ [_ [H|H]]]]]; [contradiction | discriminate].
Qed.

Lemma images_tier_requests_witness :
  (method mediaFileRequest = GET /\
   noPrecache (url mediaFileRequest) = false /\
   mode mediaFileRequest <> navigate /\
   startsWith (pathname (url mediaFileRequest)) "/api/v1/" = false /\
   (destination mediaFileRequest = dest_image \/
    startsWith (pathname (url mediaFileRequest)) "/media/" = true)) /\
  classify noPrecache mediaFileRequest = Some imagesStrategy.
Proof.
  assert (method mediaFileRequest = GET /\
          noPrecache (url mediaFileRequest) = false /\
          mode mediaFileRequest <> navigate /\
          startsWith (pathname (url mediaFileRequest)) "/api/v1/" = false /\
          (destination mediaFileRequest = dest_image \/
           startsWith (pathname (url mediaFileRequest)) "/media/" = true)) as H
    by (repeat split; [discriminate | right; reflexivity]).
  split; [exact H|].
  exact (proj2 (images_tier_requests noPrecache mediaFileRequest) H).
Defined.

(** X3. The worker leaves a request alone (no route matches, the browser
    fetches it, nothing is cached) exactly when its method is not GET, or
    it is not precached, not a navigation, not under [/api/v1/], asks for
    no image and is not under [/media/]. *)
Theorem unmatched_requests (precached : URL -> bool) (request : Request) :
  classify precached request = None <->
  (method request <> GET \/
   (precached (url request) = false /\
    mode request <> navigate /\
    startsWith (pathname (url request)) "/api/v1/" = false /\
    destination request <> dest_image /\
    startsWith (pathname (url request)) "/media/" = false)).
Proof.
  destruct (decide (method request = GET)) as [Hm|Hm].
  2:{ rewrite classify_not_GET by assumption. tauto. }
  rewrite (classify_GET precached request Hm).
  destruct (precached (url request)) eqn:Hp.
  { split; [discriminate | intros [H|[H _]]; [contradiction | discriminate]]. }
  destruct (bool_decide (mode request = navigate)) eqn:Hn.
  { apply bool_decide_eq_true in Hn. split; [discriminate | tauto]. }
  apply bool_decide_eq_false in Hn.
  destruct (isUserDataPath (pathname (url request))) eqn:Hu.
  { apply isUserDataPath_under_root in Hu. rewrite Hu.
    split; [discriminate | intros [H|[_ [_ [H _]]]]; [contradiction | discriminate]]. }
  destruct (startsWith (pathname (url request)) "/api/v1/") eqn:Hr.
  { split; [discriminate | intros [H|[_ [_ [H _]]]]; [contradiction | discriminate]]. }
  destruct (bool_decide (destination request = dest_image)) eqn:Hd; cbn [orb].
  - apply bool_decide_eq_true in Hd. split; [discriminate | tauto].
  - apply bool_decide_eq_false in Hd.
    destruct (startsWith (pathname (url request)) "/media/") eqn:Hmedia.
    + split; [discriminate | intros [H|[_ [_ [_ [_ H]]]]]; [contradiction | discriminate]].
    + split; [intros _; right; tauto | reflexivity].
Qed.

Lemma unmatched_requests_witness :
  (method fontRequest <> GET \/
   (noPrecache (url fontRequest) = false /\
    mode fontRequest <> navigate /\
    startsWith (pathname (url fontRequest)) "/api/v1/" = false /\
    destination fontRequest <> dest_image /\
    startsWith (pathname (url fontRequest)) "/media/" = false)) /\
  classify noPrecache fontRequest = None.
Proof.
  assert (method fontRequest <> GET \/
          (noPrecache (url fontRequest) = false /\
           mode fontRequest <> navigate /\
           startsWith (pathname (url fontRequest)) "/api/v1/" = false /\
           destination fontRequest <> dest_image /\
           startsWith (pathname (url fontRequest)) "/media/" = false)) as H
    by (right; repeat split; discriminate).
  split; [exact H|].
  exact (proj2 (unmatched_requests noPrecache fontRequest) H).
Defined.

Lemma cachePut_queues now o u r st : queues (cachePut now o u r st) = queues st.
Proof. reflexivity. Qed.

Lemma cacheUpdate_queues dflt now o u r st :
  queues (cacheUpdate dflt now o u r st) = queues st.
Proof. unfold cacheUpdate. destruct (cacheWillUpdate dflt (plugins o) r); reflexivity. Qed.

Lemma handle_caching_queues now s request net st :
  (forall ps, s <> NetworkOnly ps) ->
  queues (snd (handle now s request net st)) = queues st.
Proof.
  intros Hs. destruct s as [| p | ps | o | o | o]; cbn [handle].
  - reflexivity.
  - reflexivity.
  - now destruct (Hs ps).
  - destruct net as [r ms|].
    + destruct (timedOut o ms).
      * destruct (cacheMatch now o (url request) st); reflexivity.
      * cbn [snd]. apply cacheUpdate_queues.
    + destruct (cacheMatch now o (url request) st); reflexivity.
  - destruct (cacheMatch now o (url request) st); cbn [snd];
      (destruct net as [r' ms|]; [apply cacheUpdate_queues | reflexivity]).
  - destruct (cacheMatch now o (url request) st); cbn [snd]; [reflexivity|].
    destruct net as [r' ms|]; cbn [snd]; [apply cacheUpdate_queues | reflexivity].
Qed.

Lemma handleRequest_queues precached now request net st :
  queues (snd (handleRequest precached now request net st)) = queues st.
Proof.
  unfold handleRequest.
  destruct (decide (method request = GET)) as [Hm|Hm].
  2:{ now rewrite classify_not_GET by assumption. }
  rewrite (classify_GET precached request Hm).
  destruct (precached (url request)); [reflexivity|].
  destruct (bool_decide (mode request = navigate)); [reflexivity|].
  destruct (isUserDataPath (pathname (url request))).
  { cbn [handle]. destruct net; reflexivity. }
  destruct (startsWith (pathname (url request)) "/api/v1/").
  { apply handle_caching_queues. intros ps. unfold apiGetHandler.
    destruct (isListLike (url request)); discriminate. }
  destruct (bool_decide (destination request = dest_image)
            || startsWith (pathname (url request)) "/media/"); [|reflexivity].
  apply handle_caching_queues. discriminate.
Qed.

(** X4. No fetch event ever adds to a background-sync queue: the only
    handler that enqueues belongs to a route registered for GET whose
    match callback asks for POST. Whatever the browsing session, the
    queues are what they were at its start. *)
Theorem worker_never_enqueues (precached : URL -> bool) (es : list FetchEvent)
    (st : WorkerState) :
  queues (run precached st es) = queues st.
Proof.
  revert st. induction es as [|e es IH]; intros st; [reflexivity|].
  cbn [run foldl]. fold (run precached (step precached st e) es).
  rewrite IH. apply handleRequest_queues.
Qed.

Lemma indexOf_None x l : indexOf x l = None <-> ~ In x l.
Proof.
  induction l as [|y l IH]; cbn; [tauto|].
  destruct (String.eqb y x) eqn:He.
  - apply String.eqb_eq in He. split; [discriminate | intros H; exfalso; apply H; now left].
  - apply String.eqb_neq in He.
    assert (S <$> indexOf x l = None <-> indexOf x l = None) as ->
      by (destruct (indexOf x l); cbn; split; congruence).
    rewrite IH. split; [intros H [H'|H']; [congruence | contradiction] | tauto].
Qed.

Lemma indexOf_first x a b :
  ~ In x a -> indexOf x (a ++ x :: b) = Some (length a).
Proof.
  induction a as [|y a IH]; cbn; intros Hn.
  - now rewrite String.eqb_refl.
  - destruct (String.eqb y x) eqn:He.
    + apply String.eqb_eq in He. exfalso. apply Hn. now left.
    + rewrite IH by tauto. reflexivity.
Qed.

(** X5. [apiResourceParts] gives nothing exactly when no segment of the
    path is [v1]; otherwise it gives the segments that follow the first
    [v1], and none of them is empty (repeated and closing slashes leave
    no trace). *)
Theorem apiResourceParts_after_first_v1 (p : string) :
  (apiResourceParts p = None <-> ~ In "v1" (List.filter truthy (split "/" p))) /\
  (forall a b,
     List.filter truthy (split "/" p) = a ++ "v1" :: b -> ~ In "v1" a ->
     apiResourceParts p = Some b) /\
  (forall parts, apiResourceParts p = Some parts -> Forall (fun s => s <> "") parts).
Proof.
  unfold apiResourceParts. cbv zeta.
  set (segs := List.filter truthy (split "/" p)).
  assert (Forall (fun s => s <> "") segs) as Hne.
  { apply List.Forall_forall. intros s Hs. apply filter_In in Hs as [_ Hs].
    unfold truthy in Hs. now apply negb_true_iff, String.eqb_neq in Hs. }
  split; [|split].
  - rewrite <- indexOf_None. destruct (indexOf "v1" segs); split; congruence.
  - intros a b Hsegs Ha. rewrite Hsegs, (indexOf_first "v1" a b Ha).
    f_equal. clear. induction a as [|y a IH]; [reflexivity | exact IH].
  - intros parts. destruct (indexOf "v1" segs) as [i|]; [|discriminate].
    intros [= <-]. apply Forall_drop. exact Hne.
Qed.

Lemma apiResourceParts_after_first_v1_witness :
  (List.filter truthy (split "/" "/v1/api/v1//items/") = [] ++ "v1" :: ["api"; "v1"; "items"]
   /\ ~ In "v1" (@nil string)) /\
  apiResourceParts "/v1/api/v1//items/" = Some ["api"; "v1"; "items"].
Proof.
  split; [split; [reflexivity | intros []]|].
  apply (proj1 (proj2 (apiResourceParts_after_first_v1 "/v1/api/v1//items/")) []
           ["api"; "v1"; "items"]); [reflexivity | intros []].
Defined.

Lemma split_go_closing_slash sep s cur :
  split_go sep (s ++ String sep "") cur = split_go sep s cur ++ [""].
Proof.
  revert cur. induction s as [|c s IH]; intros cur.
  - change (("" ++ String sep "")%string) with (String sep ""). cbn.
    now rewrite Ascii.eqb_refl.
  - rewrite append_String. cbn [split_go]. destruct (Ascii.eqb c sep).
    + now rewrite IH.
    + apply IH.
Qed.

Lemma segments_closing_slash p :
  List.filter truthy (split "/" (p ++ "/")) = List.filter truthy (split "/" p).
Proof.
  unfold split. rewrite split_go_closing_slash, List.filter_app. cbn. apply app_nil_r.
Qed.

(** X6. A closing slash does not change what [apiResourceParts] gives, nor
    whether the API handler takes a request for a list:
    [/api/v1/heritage-items/42] and [/api/v1/heritage-items/42/] are
    treated alike. *)
Theorem closing_slash_is_ignored (p : string) (host : string)
    (params : list (string * string)) :
  apiResourceParts (p ++ "/") = apiResourceParts p /\
  isListLike {| hostname := host; pathname := p ++ "/"; searchParams := params |}
  = isListLike {| hostname := host; pathname := p; searchParams := params |}.
Proof.
  assert (apiResourceParts (p ++ "/") = apiResourceParts p) as H
    by (unfold apiResourceParts; now rewrite segments_closing_slash).
  split; [exact H|]. unfold isListLike. cbn [pathname]. now rewrite H.
Qed.

(* ===================================================================== *)
(** * Part XVIII. More about the explore view                             *)
(* ===================================================================== *)

Lemma setIf_app c k x (p : Params) :
  setIf c k x p = p ++ (if c then [(k, x)] else []).
Proof. unfold setIf. destruct c; [reflexivity | now rewrite app_nil_r]. Qed.

(** The snapshot, piece by piece. *)
Lemma currentQuerySnapshot_pieces v :
  currentQuerySnapshot v =
    (if truthy (trim (search v)) then [("search", PString (trim (search v)))] else [])
    ++ (if truthy (selectedTypeId v) then [("heritage_type", PString (selectedTypeId v))] else [])
    ++ (if truthy (selectedCategoryId v)
        then [("heritage_category", PString (selectedCategoryId v))] else [])
    ++ (if truthy (selectedParishId v) then [("parish", PString (selectedParishId v))] else [])
    ++ (if truthy (selectedOrdering v) then [("ordering", PString (selectedOrdering v))] else [])
    ++ (if String.eqb (selectedMedia v) "images" then [("has_images", PTrue)] else [])
    ++ (if String.eqb (selectedMedia v) "audio" then [("has_audio", PTrue)] else [])
    ++ (if String.eqb (selectedMedia v) "video" then [("has_video", PTrue)] else [])
    ++ (if String.eqb (selectedMedia v) "documents" then [("has_documents", PTrue)] else [])
    ++ (if String.eqb (selectedMedia v) "text" then [("text_only", PTrue)] else []).
Proof.
  unfold currentQuerySnapshot. cbv zeta. rewrite !setIf_app. cbn [app].
  now rewrite <- !app_assoc.
Qed.

Lemma In_optional {A} (c : bool) (x y : A) :
  In y (if c then [x] else []) <-> c = true /\ y = x.
Proof. destruct c; cbn; [split; [intros [H|[]]; auto | intros [_ ->]; now left] | split; [intros [] | intros [H _]; discriminate]]. Qed.

Lemma In_map_fst_optional (c : bool) (k y : string) (x : ParamValue) :
  In y (map fst (if c then [(k, x)] else [])) <-> c = true /\ y = k.
Proof.
  destruct c; cbn; [split; [intros [H|[]]; auto | intros [_ ->]; now left]
                   | split; [intros [] | intros [H _]; discriminate]].
Qed.

Lemma filter_flags_string (c : bool) (k s : string) :
  List.filter (fun kv : string * ParamValue => bool_decide (snd kv = PTrue))
    (if c then [(k, PString s)] else []) = [].
Proof. destruct c; reflexivity. Qed.

Lemma length_filter_flags_true (c : bool) (k : string) :
  length (List.filter (fun kv : string * ParamValue => bool_decide (snd kv = PTrue))
            (if c then [(k, PTrue)] else [])) = if c then 1 else 0.
Proof. destruct c; reflexivity. Qed.

Lemma String_of_N_truthy n : truthy (String_of_N n) = true.
Proof. destruct (String_of_N_head n) as [c [s [-> _]]]. reflexivity. Qed.

Lemma selectedTypeId_truthy v :
  truthy (selectedTypeId v) = true <->
  selectedTypeSlug v <> "all" /\
  exists t, In t (types v) /\ typeSlug t = selectedTypeSlug v.
Proof.
  unfold selectedTypeId. destruct (String.eqb (selectedTypeSlug v) "all") eqn:Hall.
  - apply String.eqb_eq in Hall. split; [discriminate | tauto].
  - apply String.eqb_neq in Hall.
    destruct (List.find (fun t => String.eqb (typeSlug t) (selectedTypeSlug v)) (types v))
      as [t|] eqn:Hf.
    + apply find_some in Hf as [Hin He]. apply String.eqb_eq in He.
      rewrite String_of_N_truthy. split; [intros _; split; [assumption | eauto] | reflexivity].
    + split; [discriminate|]. intros [_ [t [Hin He]]].
      pose proof (find_none _ _ Hf t Hin) as Hn. cbn in Hn.
      apply String.eqb_neq in Hn. contradiction.
Qed.

(** X7. The query carries a [heritage_type] exactly when the chosen slug
    is not [all] and one of the loaded types has it; its value is then the
    id, in decimal, of the first such type. While the types are not loaded
    the type filter is silently left out. *)
Theorem heritage_type_needs_a_loaded_type (v : ExploreView) :
  (In "heritage_type" (map fst (currentQuerySnapshot v)) <->
   selectedTypeSlug v <> "all" /\
   exists t, In t (types v) /\ typeSlug t = selectedTypeSlug v) /\
  (forall x, In ("heritage_type", x) (currentQuerySnapshot v) ->
     exists t,
       List.find (fun t => String.eqb (typeSlug t) (selectedTypeSlug v)) (types v) = Some t /\
       x = PString (String_of_N (typeId t))) /\
  (types v = [] -> ~ In "heritage_type" (map fst (currentQuerySnapshot v))).
Proof.
  assert (In "heritage_type" (map fst (currentQuerySnapshot v)) <->
          truthy (selectedTypeId v) = true) as Hkey.
  { rewrite currentQuerySnapshot_pieces, !map_app, !in_app_iff, !In_map_fst_optional.
    intuition discriminate. }
  split; [|split].
  - rewrite Hkey. apply selectedTypeId_truthy.
  - intros x. rewrite currentQuerySnapshot_pieces, !in_app_iff, !In_optional.
    intros [H|[H|[H|[H|[H|[H|[H|[H|[H|H]]]]]]]]]; destruct H as [Hc H]; try discriminate.
    injection H as ->. revert Hc. unfold selectedTypeId.
    destruct (String.eqb (selectedTypeSlug v) "all"); [discriminate|].
    destruct (List.find _ (types v)) as [t|]; [|discriminate]. eauto.
  - intros Hnil. rewrite Hkey, selectedTypeId_truthy, Hnil. intros [_ [t [[] _]]].
Qed.

(** X8. The media select sets at most one flag, and only for its five
    values: [has_images] for [images], [has_audio] for [audio],
    [has_video] for [video], [has_documents] for [documents], [text_only]
    for [text]; any other value filters nothing. *)
Theorem media_select_sets_one_flag (v : ExploreView) :
  (forall k, In (k, PTrue) (currentQuerySnapshot v) <->
     (k = "has_images" /\ selectedMedia v = "images") \/
     (k = "has_audio" /\ selectedMedia v = "audio") \/
     (k = "has_video" /\ selectedMedia v = "video") \/
     (k = "has_documents" /\ selectedMedia v = "documents") \/
     (k = "text_only" /\ selectedMedia v = "text")) /\
  length (List.filter (fun kv => bool_decide (snd kv = PTrue)) (currentQuerySnapshot v)) <= 1.
Proof.
  split.
  - intros k. rewrite currentQuerySnapshot_pieces, !in_app_iff, !In_optional, !String.eqb_eq.
    split.
    + intros [H|[H|[H|[H|[H|[H|[H|[H|[H|H]]]]]]]]]; destruct H as [Hc H];
        try discriminate; injection H as ->; tauto.
    + intros [[-> H]|[[-> H]|[[-> H]|[[-> H]|[-> H]]]]]; tauto.
  - rewrite currentQuerySnapshot_pieces, !List.filter_app, !filter_flags_string.
    cbn [app]. rewrite !length_app, !length_filter_flags_true.
    destruct (String.eqb (selectedMedia v) "images") eqn:H1;
      [apply String.eqb_eq in H1; rewrite H1; cbn; lia|].
    destruct (String.eqb (selectedMedia v) "audio") eqn:H2;
      [apply String.eqb_eq in H2; rewrite H2; cbn; lia|].
    destruct (String.eqb (selectedMedia v) "video") eqn:H3;
      [apply String.eqb_eq in H3; rewrite H3; cbn; lia|].
    destruct (String.eqb (selectedMedia v) "documents") eqn:H4;
      [apply String.eqb_eq in H4; rewrite H4; cbn; lia|].
    destruct (String.eqb (selectedMedia v) "text"); cbn; lia.
Qed.

Lemma string_app_assoc (a b c : string) : ((a ++ b) ++ c = a ++ (b ++ c))%string.
Proof. induction a as [|x a IH]; [reflexivity|]. rewrite !append_String. now rewrite IH. Qed.

Lemma string_app_nil_r (a : string) : (a ++ "")%string = a.
Proof. induction a as [|x a IH]; [reflexivity|]. rewrite append_String. now rewrite IH. Qed.

Lemma rev_app_spec (s t : string) : String.rev_app s t = (String.rev s ++ t)%string.
Proof.
  unfold String.rev. revert t. induction s as [|c s IH]; intros t; [reflexivity|].
  cbn [String.rev_app]. rewrite (IH (String c t)), (IH (String c "")).
  now rewrite string_app_assoc.
Qed.

Lemma rev_String c s : String.rev (String c s) = (String.rev s ++ String c "")%string.
Proof. unfold String.rev at 1. cbn [String.rev_app]. apply rev_app_spec. Qed.

Lemma rev_append (a b : string) :
  String.rev (a ++ b) = (String.rev b ++ String.rev a)%string.
Proof.
  induction a as [|c a IH].
  - change (("" ++ b)%string) with b. now rewrite string_app_nil_r.
  - rewrite append_String, !rev_String, IH. apply string_app_assoc.
Qed.

Lemma rev_involutive (s : string) : String.rev (String.rev s) = s.
Proof.
  induction s as [|c s IH]; [reflexivity|].
  rewrite rev_String, rev_append, IH. reflexivity.
Qed.

Lemma trimStart_split s : exists w, s = (w ++ trimStart s)%string.
Proof.
  induction s as [|c s [w IH]]; [now exists ""|]. cbn [trimStart].
  destruct (isWhiteSpace c).
  - exists (String c w). rewrite append_String. now rewrite <- IH.
  - now exists "".
Qed.

Lemma trimStart_head s c t :
  trimStart s = String c t -> isWhiteSpace c = false.
Proof.
  induction s as [|d s IH]; cbn [trimStart]; [discriminate|].
  destruct (isWhiteSpace d) eqn:Hd; [exact IH|]. intros [= <- _]. exact Hd.
Qed.

Lemma trimStart_fixed c t : isWhiteSpace c = false -> trimStart (String c t) = String c t.
Proof. intros H. cbn [trimStart]. now rewrite H. Qed.

Lemma trimStart_idem s : trimStart (trimStart s) = trimStart s.
Proof.
  destruct (trimStart s) as [|c t] eqn:H; [reflexivity|].
  apply trimStart_fixed. exact (trimStart_head s c t H).
Qed.

(** Trimming twice is trimming once. *)
Lemma trim_idem s : trim (trim s) = trim s.
Proof.
  unfold trim.
  set (x := trimStart s).
  destruct (trimStart_split (String.rev x)) as [w Hw].
  set (r := trimStart (String.rev x)) in *.
  assert (trimStart (String.rev r) = String.rev r) as HA.
  { destruct (String.rev r) as [|c t] eqn:Hr; [reflexivity|].
    apply trimStart_fixed.
    assert (x = (String.rev r ++ String.rev w)%string) as Hx
      by (rewrite <- rev_append, <- Hw; symmetry; apply rev_involutive).
    rewrite Hr, append_String in Hx.
    exact (trimStart_head s c _ Hx). }
  rewrite HA, rev_involutive. unfold r at 1. now rewrite trimStart_idem.
Qed.

Lemma withQuery_lookup key value (q : gmap string string) k :
  withQuery key value q !! k = if decide (key = k) then value else q !! k.
Proof.
  unfold withQuery. destruct value as [s|].
  - rewrite lookup_insert. reflexivity.
  - rewrite lookup_delete. destruct (decide (key = k)); reflexivity.
Qed.

Lemma truthy_false s : truthy s = false -> s = "".
Proof. unfold truthy. intros H. now apply negb_false_iff, String.eqb_eq in H. Qed.

Lemma queryOr_orUndefined (q : gmap string string) key s :
  q !! key = orUndefined s -> queryOr q key "" = s.
Proof.
  unfold queryOr, orUndefined. intros ->. destruct (truthy s) eqn:H.
  - now rewrite H.
  - symmetry. now apply truthy_false.
Qed.

Lemma queryOr_default (q : gmap string string) key dflt s :
  s <> "" ->
  q !! key = (if String.eqb s dflt then None else Some s) ->
  queryOr q key dflt = s.
Proof.
  unfold queryOr. intros Hs ->. destruct (String.eqb s dflt) eqn:He.
  - symmetry. now apply String.eqb_eq.
  - assert (truthy s = true) as ->
      by (unfold truthy; now apply negb_true_iff, String.eqb_neq).
    reflexivity.
Qed.

Lemma syncQuery_lookups (q : gmap string string) v :
  syncQuery q v !! "search" = orUndefined (trim (search v)) /\
  syncQuery q v !! "type"
    = (if String.eqb (selectedTypeSlug v) "all" then None else Some (selectedTypeSlug v)) /\
  syncQuery q v !! "category" = orUndefined (selectedCategoryId v) /\
  syncQuery q v !! "parish" = orUndefined (selectedParishId v) /\
  syncQuery q v !! "media" = orUndefined (selectedMedia v) /\
  syncQuery q v !! "sort"
    = (if String.eqb (selectedOrdering v) "-created_at" then None
       else Some (selectedOrdering v)).
Proof.
  unfold syncQuery. cbv zeta. rewrite !withQuery_lookup.
  repeat split; repeat (case_decide; try discriminate); reflexivity.
Qed.

Lemma watch_after_sync (routeQuery : gmap string string) (v : ExploreView) :
  selectedTypeSlug v <> "" ->
  selectedOrdering v <> "" ->
  watchRouteQuery (syncQuery routeQuery v) v
    = {| search := trim (search v);
         selectedTypeSlug := selectedTypeSlug v;
         types := types v;
         selectedCategoryId := selectedCategoryId v;
         selectedParishId := selectedParishId v;
         selectedMedia := selectedMedia v;
         selectedOrdering := selectedOrdering v |}.
Proof.
  intros Hslug Hord.
  destruct (syncQuery_lookups routeQuery v) as [H1 [H2 [H3 [H4 [H5 H6]]]]].
  unfold watchRouteQuery.
  rewrite (queryOr_orUndefined _ _ _ H1), (queryOr_default _ _ _ _ Hslug H2),
    (queryOr_orUndefined _ _ _ H3), (queryOr_orUndefined _ _ _ H4),
    (queryOr_orUndefined _ _ _ H5), (queryOr_default _ _ _ _ Hord H6).
  reflexivity.
Qed.

Lemma snapshot_after_sync (routeQuery : gmap string string) (v : ExploreView) :
  selectedTypeSlug v <> "" ->
  selectedOrdering v <> "" ->
  currentQuerySnapshot (watchRouteQuery (syncQuery routeQuery v) v) = currentQuerySnapshot v.
Proof.
  intros Hslug Hord. rewrite (watch_after_sync _ _ Hslug Hord).
  unfold currentQuerySnapshot, selectedTypeId.
  cbn [search selectedTypeSlug types selectedCategoryId selectedParishId selectedMedia
       selectedOrdering].
  now rewrite trim_idem.
Qed.

(** X9. Writing the filters to the URL and reading them back restores
    them: after [syncQuery] the watcher of [route.query] finds every ref
    as it was, the search term trimmed; the query sent to the server is
    unchanged; and the other keys of the location are kept. (A type slug
    and an ordering are never empty in the view.) *)
Theorem syncQuery_then_watch_restores_filters (routeQuery : gmap string string)
    (v : ExploreView) :
  selectedTypeSlug v <> "" ->
  selectedOrdering v <> "" ->
  watchRouteQuery (syncQuery routeQuery v) v
    = {| search := trim (search v);
         selectedTypeSlug := selectedTypeSlug v;
         types := types v;
         selectedCategoryId := selectedCategoryId v;
         selectedParishId := selectedParishId v;
         selectedMedia := selectedMedia v;
         selectedOrdering := selectedOrdering v |} /\
  currentQuerySnapshot (watchRouteQuery (syncQuery routeQuery v) v) = currentQuerySnapshot v /\
  (forall k, ~ In k syncedKeys -> syncQuery routeQuery v !! k = routeQuery !! k).
Proof.
  intros Hslug Hord.
  split; [now apply watch_after_sync|]. split; [now apply snapshot_after_sync|].
  intros k Hk. unfold syncQuery. cbv zeta. rewrite !withQuery_lookup.
  repeat (case_decide; [exfalso; apply Hk; subst k; cbn; tauto|]). reflexivity.
Qed.

Lemma syncQuery_then_watch_restores_filters_witness :
  (selectedTypeSlug filteredView <> "" /\ selectedOrdering filteredView <> "") /\
  currentQuerySnapshot (watchRouteQuery (syncQuery ∅ filteredView) filteredView)
    = currentQuerySnapshot filteredView.
Proof.
  split; [split; discriminate|].
  apply (syncQuery_then_watch_restores_filters ∅ filteredView); discriminate.
Defined.

(** X10. [clearFilters] keeps the search term: afterwards the location has
    no type, category, parish, media or sort, and its search is the
    trimmed search if there is one; type, category, parish, media and
    ordering are back at their defaults; the search box holds the trimmed
    search when the location has changed, and is left as it was typed when
    the location was already the cleared one (the router drops the
    navigation and the watcher does not run); in both cases the query sent
    to the server is the search (if any) under the default ordering. *)
Theorem clearFilters_keeps_search (routeQuery : gmap string string) (v : ExploreView) :
  let q := fst (clearFilters routeQuery v) in
  let v' := snd (clearFilters routeQuery v) in
  (q !! "type" = None /\ q !! "category" = None /\ q !! "parish" = None /\
   q !! "media" = None /\ q !! "sort" = None /\
   q !! "search" = orUndefined (trim (search v))) /\
  q = syncQuery routeQuery (clearedFilters v) /\
  search v' = (if bool_decide (syncQuery routeQuery (clearedFilters v) = routeQuery)
               then search v else trim (search v)) /\
  trim (search v') = trim (search v) /\
  (selectedTypeSlug v' = "all" /\ selectedCategoryId v' = "" /\ selectedParishId v' = "" /\
   selectedMedia v' = "" /\ selectedOrdering v' = "-created_at" /\ types v' = types v) /\
  currentQuerySnapshot v' =
    (if truthy (trim (search v)) then [("search", PString (trim (search v)))] else [])
    ++ [("ordering", PString "-created_at")].
Proof.
  cbv zeta.
  destruct (syncQuery_lookups routeQuery (clearedFilters v)) as [H1 [H2 [H3 [H4 [H5 H6]]]]].
  assert (selectedTypeSlug (clearedFilters v) <> "") as Hslug by discriminate.
  assert (selectedOrdering (clearedFilters v) <> "") as Hord by discriminate.
  assert (currentQuerySnapshot (clearedFilters v) =
            (if truthy (trim (search v)) then [("search", PString (trim (search v)))] else [])
            ++ [("ordering", PString "-created_at")]) as Hsnap.
  { rewrite currentQuerySnapshot_pieces.
    change (search (clearedFilters v)) with (search v).
    change (selectedTypeId (clearedFilters v)) with "".
    change (selectedCategoryId (clearedFilters v)) with "".
    change (selectedParishId (clearedFilters v)) with "".
    change (selectedMedia (clearedFilters v)) with "".
    change (selectedOrdering (clearedFilters v)) with "-created_at".
    destruct (truthy (trim (search v))); reflexivity. }
  unfold clearFilters. cbv zeta.
  destruct (bool_decide (syncQuery routeQuery (clearedFilters v) = routeQuery)) eqn:Hsame;
    cbn [fst snd].
  - apply bool_decide_eq_true_1 in Hsame. rewrite <- Hsame at 1 2 3 4 5 6 7.
    split; [repeat split; [exact H2 | exact H3 | exact H4 | exact H5 | exact H6 | exact H1]|].
    split; [reflexivity|]. split; [reflexivity|]. split; [reflexivity|].
    split; [repeat split | exact Hsnap].
  - split; [repeat split; [exact H2 | exact H3 | exact H4 | exact H5 | exact H6 | exact H1]|].
    split; [reflexivity|].
    rewrite (watch_after_sync _ _ Hslug Hord) at 1 2 3 4 5 6 7 8.
    cbn [search selectedTypeSlug selectedCategoryId selectedParishId selectedMedia
         selectedOrdering types clearedFilters].
    split; [reflexivity|]. split; [apply trim_idem|]. split; [repeat split|].
    rewrite (snapshot_after_sync _ _ Hslug Hord). exact Hsnap.
Qed.

(** Clearing the filters at the location of the search "church" with
    " church " in the box leaves the box as it is; from any other
    location the box is trimmed. *)
Example clearFilters_at_the_cleared_location :
  clearFilters churchLocation paddedSearchView = (churchLocation, paddedSearchView) /\
  search (snd (clearFilters (<["type" := "tangible"]> churchLocation) paddedSearchView))
    = "church".
Proof. split; vm_compute; reflexivity. Qed.

(* ===================================================================== *)
(** * Part XIX. More about the offline bundle builder                     *)
(* ===================================================================== *)

Lemma mediaCalls_app a b : mediaCalls (a ++ b) = mediaCalls a ++ mediaCalls b.
Proof. unfold mediaCalls. apply omap_app. Qed.

Lemma fetchedDetails_app a b :
  fetchedDetails (a ++ b) = fetchedDetails a ++ fetchedDetails b.
Proof. unfold fetchedDetails. apply omap_app. Qed.

Lemma mediaUrls_truthy detail : Forall (fun u => truthy u = true) (mediaUrls detail).
Proof.
  unfold mediaUrls. apply List.Forall_forall. intros u Hu.
  apply List.filter_In in Hu. tauto.
Qed.

Section BuilderTrace.

Variable be : Backend.

(** Warming the media cache fetches the given URLs, each once, in order. *)
Lemma warm_media_trace urls log :
  exists ev,
    Promise_all (map (fun u => catch_null (fetch be u)) urls) log = (Ok tt, log ++ ev) /\
    listCalls ev = [] /\ detailCalls ev = [] /\ fetchedDetails ev = [] /\
    mediaCalls ev = urls.
Proof.
  revert log. induction urls as [|u urls IH]; intros log.
  - exists []. cbn. rewrite app_nil_r. repeat split.
  - cbn [map Promise_all].
    assert (catch_null (fetch be u) log
            = (Ok tt, log ++ [MediaCall u (mediaResponse be log u)])) as -> by reflexivity.
    destruct (IH (log ++ [MediaCall u (mediaResponse be log u)]))
      as [ev [He [Hl [Hd [Hf Hm]]]]].
    rewrite He. exists (MediaCall u (mediaResponse be log u) :: ev).
    rewrite <- app_assoc. cbn [app]. repeat split; try assumption.
    cbn. fold (mediaCalls ev). now rewrite Hm.
Qed.

Lemma forEachItem_trace results n log :
  exists ev,
    snd (forEachItem be results n log) = log ++ ev /\
    listCalls ev = [] /\
    mediaCalls ev = flat_map mediaUrls (fetchedDetails ev) /\
    detailCalls ev `prefix_of` map itemId results /\
    (forall m, fst (forEachItem be results n log) = Ok m ->
               detailCalls ev = map itemId results).
Proof.
  revert n log. induction results as [|item rest IH]; intros n log.
  - exists []. cbn. rewrite app_nil_r. repeat split. reflexivity.
  - cbn [forEachItem]. unfold bind, api_get_detail. cbn beta zeta.
    destruct (detailResponse be log (itemId item)) as [detail|] eqn:Hd.
    + destruct (warm_media_trace (mediaUrls detail)
                  (log ++ [DetailCall (itemId item) (Ok detail)]))
        as [ev1 [He1 [Hl1 [Hd1 [Hf1 Hm1]]]]].
      rewrite !He1.
      destruct (IH (n + 1) ((log ++ [DetailCall (itemId item) (Ok detail)]) ++ ev1))
        as [ev2 [He2 [Hl2 [Hm2 [Hp2 Hr2]]]]].
      exists (DetailCall (itemId item) (Ok detail) :: ev1 ++ ev2).
      assert (detailCalls (DetailCall (itemId item) (Ok detail) :: ev1 ++ ev2)
              = itemId item :: detailCalls ev2) as Hdc
        by (cbn; fold (detailCalls (ev1 ++ ev2)); now rewrite detailCalls_app, Hd1).
      split; [rewrite He2, <- !app_assoc; reflexivity|].
      split; [cbn; fold (listCalls (ev1 ++ ev2)); rewrite listCalls_app, Hl1, Hl2;
              reflexivity|].
      split.
      { cbn. fold (mediaCalls (ev1 ++ ev2)). fold (fetchedDetails (ev1 ++ ev2)).
        rewrite mediaCalls_app, fetchedDetails_app, Hf1, Hm1, Hm2. reflexivity. }
      rewrite Hdc. cbn [map]. split.
      * now apply prefix_cons.
      * intros m Hm. now rewrite (Hr2 m Hm).
    + exists [DetailCall (itemId item) Threw]. cbn.
      split; [reflexivity|]. split; [reflexivity|]. split; [reflexivity|].
      split; [|discriminate].
      apply prefix_cons, prefix_nil.
Qed.

Lemma whileLoop_trace baseParams fuel page n log :
  exists ev,
    snd (whileLoop be baseParams fuel page n log) = log ++ ev /\
    mediaCalls ev = flat_map mediaUrls (fetchedDetails ev) /\
    detailCalls ev `prefix_of` map itemId (listedItems (listCalls ev)) /\
    (forall m, fst (whileLoop be baseParams fuel page n log) = Ok m ->
               detailCalls ev = map itemId (listedItems (listCalls ev))).
Proof.
  revert page n log. induction fuel as [|fuel IH]; intros page n log.
  - exists []. cbn. rewrite app_nil_r. repeat split. reflexivity.
  - cbn [whileLoop]. destruct (page <=? maxPages)%nat.
    2:{ exists []. cbn. rewrite app_nil_r. repeat split. reflexivity. }
    unfold bind, api_get_list. cbn beta zeta.
    destruct (listResponse be log (pageParams baseParams page)) as [data|] eqn:Hlist.
    2:{ exists [ListCall (pageParams baseParams page) Threw]. cbn.
        split; [reflexivity|]. split; [reflexivity|]. split; [reflexivity | discriminate]. }
    set (log1 := log ++ [ListCall (pageParams baseParams page) (Ok data)]).
    destruct (forEachItem_trace (resultsOf data) n log1)
      as [ev1 [He1 [Hl1 [Hm1 [Hp1 Hr1]]]]].
    destruct (forEachItem be (resultsOf data) n log1) as [r1 log2] eqn:Hfe.
    cbn [fst snd] in He1, Hr1. subst log2.
    destruct r1 as [m1|].
    2:{ exists (ListCall (pageParams baseParams page) (Ok data) :: ev1).
        subst log1. rewrite <- app_assoc. cbn [app fst snd].
        split; [reflexivity|].
        split; [cbn; fold (mediaCalls ev1); fold (fetchedDetails ev1); exact Hm1|].
        split; [|discriminate].
        cbn. fold (listCalls ev1). fold (detailCalls ev1). rewrite Hl1. cbn.
        now rewrite app_nil_r. }
    specialize (Hr1 m1 eq_refl).
    destruct (negb (hasNext data) || (length (resultsOf data) =? 0)%nat).
    + exists (ListCall (pageParams baseParams page) (Ok data) :: ev1).
      subst log1. rewrite <- app_assoc. cbn [app fst snd ret].
      split; [reflexivity|].
      split; [cbn; fold (mediaCalls ev1); fold (fetchedDetails ev1); exact Hm1|].
      assert (detailCalls (ListCall (pageParams baseParams page) (Ok data) :: ev1)
              = map itemId (listedItems
                  (listCalls (ListCall (pageParams baseParams page) (Ok data) :: ev1))))
        as Heq.
      { cbn. fold (listCalls ev1). fold (detailCalls ev1). rewrite Hl1. cbn.
        now rewrite app_nil_r. }
      split; [rewrite Heq; reflexivity | intros _ _; exact Heq].
    + destruct (IH (page + 1) m1 (log1 ++ ev1)) as [ev2 [He2 [Hm2 [Hp2 Hr2]]]].
      exists (ListCall (pageParams baseParams page) (Ok data) :: ev1 ++ ev2).
      split; [rewrite He2; subst log1; rewrite <- !app_assoc; reflexivity|].
      assert (listCalls (ListCall (pageParams baseParams page) (Ok data) :: ev1 ++ ev2)
              = (pageParams baseParams page, Ok data) :: listCalls ev2) as Hlc
        by (cbn; fold (listCalls (ev1 ++ ev2)); now rewrite listCalls_app, Hl1).
      assert (detailCalls (ListCall (pageParams baseParams page) (Ok data) :: ev1 ++ ev2)
              = map itemId (resultsOf data) ++ detailCalls ev2) as Hdc
        by (cbn; fold (detailCalls (ev1 ++ ev2)); now rewrite detailCalls_app, Hr1).
      split.
      { cbn. fold (mediaCalls (ev1 ++ ev2)). fold (fetchedDetails (ev1 ++ ev2)).
        rewrite mediaCalls_app, fetchedDetails_app, flat_map_app, Hm1, Hm2. reflexivity. }
      rewrite Hlc, Hdc. cbn [listedItems flat_map snd]. rewrite map_app.
      split.
      * now apply prefix_app.
      * intros m Hm. now rewrite (Hr2 m Hm).
Qed.

End BuilderTrace.

(** X11. What the download fetches: the item details are asked for in the
    order the list pages gave the items, with no item skipped before the
    run ends (all of them when the download ends without an error); the
    media fetched are exactly the non-empty media URLs of the details that
    came back, in order. *)
Theorem bundle_fetches_listed_items_and_their_media (be : Backend)
    (onLine : option bool) (now : N) (v later : ExploreView) (st : ViewState) :
  let result := downloadForOffline be onLine now v later st in
  let log := snd result in
  detailCalls log `prefix_of` map itemId (listedItems (listCalls log)) /\
  (offlineDownloadError (fst result) = None ->
   detailCalls log = map itemId (listedItems (listCalls log))) /\
  mediaCalls log = flat_map mediaUrls (fetchedDetails log) /\
  Forall (fun u => u <> "") (mediaCalls log).
Proof.
  cbv zeta.
  assert (forall log, mediaCalls log = flat_map mediaUrls (fetchedDetails log) ->
                      Forall (fun u => u <> "") (mediaCalls log)) as Hne.
  { intros log ->. apply List.Forall_forall. intros u Hu.
    apply in_flat_map in Hu. destruct Hu as [d [_ Hu]].
    pose proof (mediaUrls_truthy d) as Hall.
    rewrite List.Forall_forall in Hall. specialize (Hall u Hu).
    intros ->. discriminate. }
  unfold downloadForOffline. destruct (isOffline onLine) eqn:Hon.
  - cbn. repeat split; try discriminate; try constructor. reflexivity.
  - destruct (whileLoop_trace be (currentQuerySnapshot v) (S maxPages) 1 0 [])
      as [ev [He [Hm [Hp Hr]]]].
    destruct (whileLoop be (currentQuerySnapshot v) (S maxPages) 1 0 []) as [r log] eqn:Hw.
    cbn [fst snd app] in He, Hr. subst log.
    destruct r as [m|]; cbn [fst snd].
    + split; [exact Hp|]. split; [intros _; exact (Hr m eq_refl)|].
      split; [exact Hm | exact (Hne _ Hm)].
    + split; [exact Hp|]. split; [discriminate|].
      split; [exact Hm | exact (Hne _ Hm)].
Qed.

(** X12. The download needs a connection. When the browser reports that
    it is offline, nothing is fetched, the store and the progress flag are
    left as they were and the must-be-online message is shown. In every
    other case the first fetch is page 1 of the list under the current
    filters, and the progress flag is down again at the end. *)
Theorem download_needs_a_connection (be : Backend)
    (onLine : option bool) (now : N) (v later : ExploreView) (st : ViewState) :
  let result := downloadForOffline be onLine now v later st in
  (onLine = Some false ->
     snd result = [] /\
     localStorage (fst result) = localStorage st /\
     offlineDownloading (fst result) = offlineDownloading st /\
     offlineDownloadError (fst result) = Some "explore.offline.mustBeOnline") /\
  (onLine <> Some false ->
     (exists r rest,
        snd result = ListCall (currentQuerySnapshot v
                               ++ [("page", PNumber 1); ("page_size", PNumber 100)]) r
                     :: rest) /\
     offlineDownloading (fst result) = false /\
     offlineDownloadError (fst result) <> Some "explore.offline.mustBeOnline").
Proof.
  cbv zeta. unfold downloadForOffline, isOffline. split; intros Hon.
  - rewrite bool_decide_eq_true_2 by exact Hon. repeat split.
  - rewrite bool_decide_eq_false_2 by exact Hon.
    assert (exists r rest,
              snd (whileLoop be (currentQuerySnapshot v) (S maxPages) 1 0 [])
              = ListCall (pageParams (currentQuerySnapshot v) 1) r :: rest) as Hfirst.
    { cbn [whileLoop]. change (1 <=? maxPages)%nat with true. cbv iota.
      unfold bind, api_get_list. cbn beta zeta. cbn [app].
      destruct (listResponse be [] (pageParams (currentQuerySnapshot v) 1)) as [data|].
      2:{ eexists _, _. reflexivity. }
      destruct (forEachItem_trace be (resultsOf data) 0
                  [ListCall (pageParams (currentQuerySnapshot v) 1) (Ok data)])
        as [ev1 [He1 _]].
      destruct (forEachItem be (resultsOf data) 0
                  [ListCall (pageParams (currentQuerySnapshot v) 1) (Ok data)])
        as [[m|] log1]; cbn [snd] in He1; subst log1.
      2:{ eexists _, _. reflexivity. }
      destruct (negb (hasNext data) || (length (resultsOf data) =? 0)%nat).
      - eexists _, _. reflexivity.
      - destruct (whileLoop_trace be (currentQuerySnapshot v) maxPages (1 + 1) m
                    ([ListCall (pageParams (currentQuerySnapshot v) 1) (Ok data)] ++ ev1))
          as [ev2 [He2 _]].
        rewrite He2. eexists _, _. reflexivity. }
    destruct Hfirst as [r [rest Hfirst]].
    destruct (whileLoop be (currentQuerySnapshot v) (S maxPages) 1 0 []) as [[m|] log];
      cbn [fst snd] in *; subst log.
    + split; [exists r, rest; reflexivity|]. split; [reflexivity | discriminate].
    + split; [exists r, rest; reflexivity|]. split; [reflexivity | discriminate].
Qed.

(* ===================================================================== *)
(** * Part XX. The API client                                             *)
(* ===================================================================== *)

Module ApiClientFacts.
Import ApiClient.

Lemma getItemOr_truthy ls key dflt :
  truthy dflt = true -> truthy (getItemOr ls key dflt) = true.
Proof.
  intros Hd. unfold getItemOr. destruct (ls !! key) as [s|]; [|exact Hd].
  destruct (truthy s) eqn:Hs; [exact Hs | exact Hd].
Qed.

Lemma lookup_insert_case (h : gmap string string) key v k :
  <[key := v]> h !! k = if bool_decide (k = key) then Some v else h !! k.
Proof.
  case_bool_decide as Hk.
  - subst k. apply lookup_insert_eq.
  - apply lookup_insert_ne. congruence.
Qed.

Lemma lookup_delete_case (h : gmap string string) key k :
  delete key h !! k = if bool_decide (k = key) then None else h !! k.
Proof.
  case_bool_decide as Hk.
  - subst k. apply lookup_delete_eq.
  - apply lookup_delete_ne. congruence.
Qed.

(** Every header of the outgoing config, by name. *)
Lemma requestInterceptor_lookup ls config k :
  headersOf (requestInterceptor ls config) !! k =
    if isFormData (data config)
       && (bool_decide (k = "Content-Type") || bool_decide (k = "content-type"))
    then None
    else if bool_decide (k = "Accept-Language")
    then Some (getItemOr ls LOCALE_STORAGE_KEY DEFAULT_LOCALE)
    else if bool_decide (k = "Authorization")
    then match bearer ls with
         | Some b => Some b
         | None => headersOf config !! k
         end
    else headersOf config !! k.
Proof.
  unfold headersOf, requestInterceptor, bearer. cbn [headers default from_option id].
  destruct (data config); cbn [isFormData andb];
    rewrite ?lookup_delete_case, lookup_insert_case;
    destruct (bool_decide (k = "Content-Type")), (bool_decide (k = "content-type"));
    cbn [orb]; try reflexivity;
    destruct (bool_decide (k = "Accept-Language")); try reflexivity;
    (destruct (ls !! "token") as [token|];
      [destruct (truthy token)|]; rewrite ?lookup_insert_case;
      destruct (bool_decide (k = "Authorization")); reflexivity).
Qed.

Lemma requestInterceptor_eta ls config :
  requestInterceptor ls config
  = {| url := url config;
       headers := Some (headersOf (requestInterceptor ls config));
       data := data config;
       __isRetry := __isRetry config |}.
Proof. reflexivity. Qed.

(** X13. The headers of every outgoing request: [Accept-Language] is
    always sent, with the stored locale, or [es] when none is stored or
    the stored one is empty; a form-data body goes without [Content-Type]
    in either spelling; a stored token that is not empty is sent as
    [Authorization], and with no token in store, or an empty one, an
    [Authorization] header the config already carries is left where it
    is; every other header, the URL and the body are untouched; and a
    second pass changes nothing more. *)
Theorem request_interceptor_headers (localStorage : gmap string string)
    (config : AxiosRequestConfig) :
  let out := requestInterceptor localStorage config in
  (exists locale,
     headersOf out !! "Accept-Language" = Some locale /\ locale <> "" /\
     (forall s, localStorage !! "hp_locale" = Some s -> s <> "" -> locale = s) /\
     (localStorage !! "hp_locale" = None \/ localStorage !! "hp_locale" = Some "" ->
      locale = "es")) /\
  (forall entries, data config = FormData entries ->
     headersOf out !! "Content-Type" = None /\ headersOf out !! "content-type" = None) /\
  (forall token, localStorage !! "token" = Some token -> token <> "" ->
     headersOf out !! "Authorization" = Some ("Bearer " ++ token)%string) /\
  (localStorage !! "token" = None \/ localStorage !! "token" = Some "" ->
     headersOf out !! "Authorization" = headersOf config !! "Authorization") /\
  (forall k, ~ In k ["Accept-Language"; "Authorization"; "Content-Type"; "content-type"] ->
     headersOf out !! k = headersOf config !! k) /\
  url out = url config /\ data out = data config /\
  requestInterceptor localStorage out = out.
Proof.
  cbv zeta.
  assert (forall s, s <> "" -> truthy s = true) as Htruthy.
  { intros s Hs. unfold truthy. now apply negb_true_iff, String.eqb_neq. }
  split; [|split; [|split; [|split; [|split; [|split; [|split]]]]]].
  - exists (getItemOr localStorage LOCALE_STORAGE_KEY DEFAULT_LOCALE).
    split; [|split; [|split]].
    + rewrite requestInterceptor_lookup. destruct (isFormData (data config)); reflexivity.
    + pose proof (getItemOr_truthy localStorage LOCALE_STORAGE_KEY DEFAULT_LOCALE eq_refl) as H.
      intros Heq. rewrite Heq in H. discriminate.
    + intros s Hs Hne. unfold getItemOr, LOCALE_STORAGE_KEY. rewrite Hs.
      now rewrite (Htruthy s Hne).
    + intros [Hs|Hs]; unfold getItemOr, LOCALE_STORAGE_KEY; now rewrite Hs.
  - intros entries Hd. rewrite !requestInterceptor_lookup, Hd. split; reflexivity.
  - intros token Ht Hne. rewrite requestInterceptor_lookup. unfold bearer.
    rewrite Ht, (Htruthy token Hne). destruct (isFormData (data config)); reflexivity.
  - intros [Ht|Ht]; rewrite requestInterceptor_lookup; unfold bearer; rewrite Ht;
      destruct (isFormData (data config)); reflexivity.
  - intros k Hk. rewrite requestInterceptor_lookup.
    repeat case_bool_decide; subst; try (exfalso; apply Hk; cbn; tauto).
    cbn [orb]. rewrite andb_false_r. reflexivity.
  - reflexivity.
  - reflexivity.
  - assert (headersOf (requestInterceptor localStorage (requestInterceptor localStorage config))
            = headersOf (requestInterceptor localStorage config)) as Hheaders.
    { apply map_eq. intros k. rewrite requestInterceptor_lookup.
      change (data (requestInterceptor localStorage config)) with (data config).
      rewrite !requestInterceptor_lookup.
      destruct (isFormData (data config)
                && (bool_decide (k = "Content-Type") || bool_decide (k = "content-type")));
        [reflexivity|].
      destruct (bool_decide (k = "Accept-Language")); [reflexivity|].
      destruct (bool_decide (k = "Authorization")); [|reflexivity].
      destruct (bearer localStorage); reflexivity. }
    rewrite (requestInterceptor_eta localStorage (requestInterceptor localStorage config)).
    rewrite Hheaders. exact (eq_sym (requestInterceptor_eta localStorage config)).
Qed.

Lemma dispatchRequest_sent server config st :
  snd (dispatchRequest server config st)
  = {| localStorage := localStorage st;
       sent := sent st ++ [requestInterceptor (localStorage st) config] |}.
Proof.
  unfold dispatchRequest. destruct (server _ _) as [status|]; [|reflexivity].
  destruct ((200 <=? status)%nat && (status <? 300)%nat); reflexivity.
Qed.

Lemma dispatchRequest_result server config st :
  fst (dispatchRequest server config st)
  = let c := requestInterceptor (localStorage st) config in
    match server (sent st) c with
    | Status status =>
        if (200 <=? status)%nat && (status <? 300)%nat then inl status
        else inr {| response := Some status; config := Some c |}
    | NoResponse => inr {| response := None; config := Some c |}
    end.
Proof.
  unfold dispatchRequest. cbv zeta. destruct (server _ _) as [status|]; [|reflexivity].
  destruct ((200 <=? status)%nat && (status <? 300)%nat); reflexivity.
Qed.

Lemma request_unfold fuel server config st :
  request (S fuel) server config st =
    match dispatchRequest server config st with
    | (inl response, st1) => Some (inl response, st1)
    | (inr error, st1) =>
        if bool_decide (response error = Some 401) then
          let st2 := {| localStorage := delete "user" (delete "token" (localStorage st1));
                        sent := sent st1 |} in
          match ApiClient.config error with
          | Some c =>
              if negb (__isRetry c) then request fuel server (markRetry c) st2
              else Some (inr error, st2)
          | None => Some (inr error, st2)
          end
        else Some (inr error, st1)
    end.
Proof. reflexivity. Qed.

Lemma unauthorized_spec r : unauthorized r = true <-> r = Status 401.
Proof.
  destruct r as [status|]; cbn; [|split; discriminate].
  rewrite Nat.eqb_eq. split; [now intros -> | now intros [= ->]].
Qed.

(** A config already marked as a retry is sent once, whatever the fuel. *)
Lemma request_retry fuel server config st :
  __isRetry config = true ->
  let c := requestInterceptor (localStorage st) config in
  request (S fuel) server config st =
    Some (fst (dispatchRequest server config st),
          {| localStorage :=
               if unauthorized (server (sent st) c)
               then delete "user" (delete "token" (localStorage st))
               else localStorage st;
             sent := sent st ++ [c] |}).
Proof.
  intros Hretry. cbv zeta. rewrite request_unfold.
  pose proof (dispatchRequest_sent server config st) as Hs.
  pose proof (dispatchRequest_result server config st) as Hr. cbv zeta in Hr.
  destruct (dispatchRequest server config st) as [res st1]. cbn [fst snd] in *. subst st1.
  destruct (server (sent st) (requestInterceptor (localStorage st) config)) as [status|].
  - cbn [unauthorized].
    destruct ((200 <=? status)%nat && (status <? 300)%nat) eqn:H2xx; subst res.
    + destruct (Nat.eqb_spec status 401) as [->|Hne]; [discriminate | reflexivity].
    + cbn [response ApiClient.config]. case_bool_decide as H401.
      * injection H401 as ->. rewrite Nat.eqb_refl.
        cbn [__isRetry requestInterceptor]. rewrite Hretry. reflexivity.
      * destruct (Nat.eqb_spec status 401) as [->|Hne]; [congruence | reflexivity].
  - subst res. cbn [response]. rewrite bool_decide_eq_false_2 by discriminate.
    reflexivity.
Qed.

(** X14. A 401 signs the user out and is retried once. Whatever the
    server does, a call of the client ends; it sends the request once, or
    twice when the first answer was a 401 and the config was not already
    a retry; a 401 removes [token] and [user] from the store (and nothing
    else), any other outcome leaves the store alone; and a 401 to the
    retry is handed to the caller. *)
Theorem unauthorized_reply_signs_out_and_retries_once (fuel : nat) (server : Server)
    (config : AxiosRequestConfig) (st : ClientState) :
  let c1 := requestInterceptor (localStorage st) config in
  let signedOut := delete "user" (delete "token" (localStorage st)) in
  let c2 := requestInterceptor signedOut (markRetry c1) in
  exists result st',
    request (S (S fuel)) server config st = Some (result, st') /\
    (server (sent st) c1 <> Status 401 ->
       sent st' = sent st ++ [c1] /\ localStorage st' = localStorage st) /\
    (server (sent st) c1 = Status 401 ->
       localStorage st' = signedOut /\
       (__isRetry config = true ->
          sent st' = sent st ++ [c1] /\
          result = inr {| response := Some 401; config := Some c1 |}) /\
       (__isRetry config = false ->
          sent st' = sent st ++ [c1; c2] /\
          (server (sent st ++ [c1]) c2 = Status 401 ->
             result = inr {| response := Some 401; config := Some c2 |}))).
Proof.
  cbv zeta. rewrite request_unfold.
  pose proof (dispatchRequest_sent server config st) as Hs.
  pose proof (dispatchRequest_result server config st) as Hr. cbv zeta in Hr.
  destruct (dispatchRequest server config st) as [res st1]. cbn [fst snd] in *. subst st1.
  set (c1 := requestInterceptor (localStorage st) config) in *.
  destruct (server (sent st) c1) as [status|] eqn:Hreply.
  2:{ subst res. cbn [response]. rewrite bool_decide_eq_false_2 by discriminate.
      eexists _, _. split; [reflexivity|]. split; [intros _; split; reflexivity|].
      discriminate. }
  destruct ((200 <=? status)%nat && (status <? 300)%nat) eqn:H2xx; subst res.
  { eexists _, _. split; [reflexivity|]. split; [intros _; split; reflexivity|].
    intros [= ->]. discriminate. }
  cbn [response ApiClient.config]. case_bool_decide as H401.
  2:{ eexists _, _. split; [reflexivity|]. split; [intros _; split; reflexivity|].
      intros [= ->]. congruence. }
  injection H401 as ->.
  change (__isRetry c1) with (__isRetry config).
  destruct (__isRetry config) eqn:Hretry; cbn [negb].
  - eexists _, _. split; [reflexivity|]. split; [congruence|].
    intros _. split; [reflexivity|]. split; [intros _; split; reflexivity | discriminate].
  - rewrite (request_retry fuel server (markRetry c1) _ eq_refl). cbn [localStorage sent].
    eexists _, _. split; [reflexivity|]. split; [congruence|].
    intros _. cbn [localStorage sent]. split.
    + destruct (unauthorized _); [|reflexivity].
      apply map_eq. intros k. rewrite !lookup_delete_case.
      repeat case_bool_decide; reflexivity.
    + split; [discriminate|]. intros _. split.
      * rewrite <- app_assoc. reflexivity.
      * intros H2. rewrite dispatchRequest_result. cbv zeta. cbn [localStorage sent].
        rewrite H2. reflexivity.
Qed.

(** X15. The request sent again after a 401 still carries the token that
    was refused: the store has lost the token by then, but the
    [Authorization] header of the first pass is on the config that is
    sent again, and the request interceptor leaves it there. *)
Theorem retry_carries_the_refused_token (fuel : nat) (server : Server)
    (config : AxiosRequestConfig) (st : ClientState) (token : string) :
  localStorage st !! "token" = Some token ->
  token <> "" ->
  __isRetry config = false ->
  server (sent st) (requestInterceptor (localStorage st) config) = Status 401 ->
  exists result st' c1 c2,
    request (S (S fuel)) server config st = Some (result, st') /\
    sent st' = sent st ++ [c1; c2] /\
    localStorage st' !! "token" = None /\
    headersOf c1 !! "Authorization" = Some ("Bearer " ++ token)%string /\
    headersOf c2 !! "Authorization" = Some ("Bearer " ++ token)%string.
Proof.
  intros Htoken Hne Hretry H401.
  assert (truthy token = true) as Htruthy
    by (unfold truthy; now apply negb_true_iff, String.eqb_neq).
  set (c1 := requestInterceptor (localStorage st) config) in *.
  set (signedOut := delete "user" (delete "token" (localStorage st))).
  set (c2 := requestInterceptor signedOut (markRetry c1)).
  assert (headersOf c1 !! "Authorization" = Some ("Bearer " ++ token)%string) as Hc1.
  { unfold c1. rewrite requestInterceptor_lookup. unfold bearer.
    rewrite Htoken, Htruthy. destruct (isFormData (data config)); reflexivity. }
  assert (signedOut !! "token" = None) as Hout.
  { unfold signedOut. rewrite !lookup_delete_case. reflexivity. }
  rewrite request_unfold.
  pose proof (dispatchRequest_sent server config st) as Hs.
  pose proof (dispatchRequest_result server config st) as Hr. cbv zeta in Hr.
  destruct (dispatchRequest server config st) as [res st1]. cbn [fst snd] in *. subst st1.
  fold c1 in Hr. rewrite H401 in Hr. cbn in Hr. subst res.
  cbn [response ApiClient.config]. rewrite bool_decide_eq_true_2 by reflexivity.
  change (__isRetry c1) with (__isRetry config). rewrite Hretry. cbn [negb].
  rewrite (request_retry fuel server (markRetry c1) _ eq_refl). cbn [localStorage sent].
  fold signedOut. fold c2.
  eexists _, _, c1, c2. split; [reflexivity|]. cbn [sent localStorage].
  split; [now rewrite <- app_assoc|]. split.
  - destruct (unauthorized _); [|exact Hout].
    rewrite !lookup_delete_case. reflexivity.
  - split; [exact Hc1|].
    unfold c2. rewrite requestInterceptor_lookup. unfold bearer. rewrite Hout.
    change (headersOf (markRetry c1)) with (headersOf c1). rewrite Hc1.
    destruct (isFormData (data (markRetry c1))); reflexivity.
Qed.

Lemma retry_carries_the_refused_token_witness :
  exists result st' c1 c2,
    request 2 refusingServer sampleConfig {| localStorage := signedInStorage; sent := [] |}
      = Some (result, st') /\
    sent st' = [c1; c2] /\
    localStorage st' !! "token" = None /\
    headersOf c1 !! "Authorization" = Some "Bearer abc" /\
    headersOf c2 !! "Authorization" = Some "Bearer abc".
Proof.
  apply (retry_carries_the_refused_token 0 refusingServer sampleConfig
           {| localStorage := signedInStorage; sent := [] |} "abc").
  - reflexivity.
  - discriminate.
  - reflexivity.
  - reflexivity.
Defined.

End ApiClientFacts.

(* ===================================================================== *)
(** * Part XXI. The contribution wizard                                   *)
(* ===================================================================== *)

Module ContributionFormFacts.
Import ContributionForm.

Lemma length_mediaOf ty id :
  length (images (mediaOf ty id) ++ audio (mediaOf ty id)
          ++ video (mediaOf ty id) ++ documents (mediaOf ty id)) <= 1.
Proof. destruct ty; cbn; lia. Qed.

Lemma uploadSettled_wellFormed e st : wellFormed st -> wellFormed (uploadSettled e st).
Proof.
  intros [Hstep [Hids [Hfiles [Hup Hpend]]]]. unfold uploadSettled.
  destruct (upload st) as [pending|] eqn:Hu;
    [|unfold wellFormed; rewrite Hu; repeat split; tauto || lia || congruence].
  destruct (Hpend ltac:(discriminate)) as [H1 Hx].
  unfold wellFormed, uploadedIds, chosenFiles, totalSteps in *.
  destruct (ofText pending), (uploadOneFile e) as [id|err]; cbn;
    repeat split; try lia; try congruence; try discriminate;
    try apply length_mediaOf.
Qed.

Lemma afterAbort_wellFormed st st' :
  (if aborts st then
     (upload st' <> None /\ currentStep st' = 1 /\ step1UploadXhr st' = false
      \/ wellFormed st') /\ upload st' <> None
   else wellFormed st') ->
  (1 <= currentStep st' <= totalSteps) ->
  length (uploadedIds st') <= 1 ->
  length (chosenFiles st') <= 1 ->
  wellFormed (afterAbort (aborts st) st').
Proof.
  unfold afterAbort. destruct (aborts st); [|tauto].
  intros [_ Hu] Hstep Hids Hfiles. unfold uploadSettled.
  destruct (upload st') as [pending|]; [|congruence].
  unfold wellFormed, uploadedIds, chosenFiles, totalSteps in *.
  destruct (ofText pending); cbn; repeat split; try lia; try congruence; try discriminate.
Qed.

Lemma aborts_false st :
  wellFormed st -> aborts st = false -> upload st = None.
Proof.
  intros [_ [_ [_ [_ Hpend]]]]. unfold aborts. intros H.
  destruct (upload st) as [p|] eqn:Hu; [|reflexivity].
  destruct (Hpend ltac:(discriminate)) as [_ Hx]. rewrite Hx in H. cbn in H.
  try rewrite bool_decide_eq_true_2 in H by discriminate. discriminate.
Qed.

Lemma aborts_true st : aborts st = true -> upload st <> None.
Proof.
  unfold aborts. intros H. apply andb_true_iff in H as [_ H].
  now apply bool_decide_eq_true_1 in H.
Qed.

Lemma handle_wellFormed ev st : wellFormed st -> wellFormed (handle ev st).
Proof.
  intros Hwf. destruct ev as [|e| | |ty|fileList targetId|text| |view|]; cbn [handle].
  - (* nextStep *)
    destruct Hwf as [Hstep [Hids [Hfiles [Hup Hpend]]]].
    unfold nextStep. destruct (submitting st); [repeat split; tauto|].
    destruct (currentStep st =? 1)%nat eqn:H1.
    + apply Nat.eqb_eq in H1.
      destruct (step1Uploading st) eqn:Hbusy; [repeat split; tauto|].
      assert (upload st = None) as Hnone.
      { destruct (upload st); [|reflexivity].
        assert (false = true) by (apply Hup; discriminate). discriminate. }
      unfold wellFormed, uploadedIds, chosenFiles, totalSteps in *.
      destruct (resourceType st).
      1-4: destruct (selectedFile st); cbn; rewrite ?Hnone;
        repeat split; try lia; try congruence; try discriminate; try tauto.
      destruct (negb (truthy (plainText (narrativeText st)))); cbn; rewrite ?Hnone;
        repeat split; try lia; try congruence; try discriminate; try tauto.
    + apply Nat.eqb_neq in H1.
      assert (upload st = None) as Hnone.
      { destruct (upload st); [|reflexivity].
        destruct (Hpend ltac:(discriminate)). lia. }
      unfold wellFormed, uploadedIds, chosenFiles, totalSteps in *.
      cbv zeta. change (currentStep (set_step1Error "" st)) with (currentStep st).
      destruct (Nat.ltb_spec (currentStep st) 5) as [H5|H5]; cbn; rewrite ?Hnone;
        repeat split; try lia; try congruence; try discriminate; try tauto.
  - now apply uploadSettled_wellFormed.
  - (* cancelUpload *)
    unfold cancelUpload, afterAbort. destruct (aborts st); [|exact Hwf].
    now apply uploadSettled_wellFormed.
  - (* prevStep *)
    destruct Hwf as [Hstep [Hids [Hfiles [Hup Hpend]]]].
    unfold prevStep. destruct (1 <? currentStep st)%nat eqn:H1; [|repeat split; tauto].
    apply Nat.ltb_lt in H1.
    assert (upload st = None) as Hnone.
    { destruct (upload st); [|reflexivity].
      destruct (Hpend ltac:(discriminate)). lia. }
    unfold wellFormed, uploadedIds, chosenFiles, totalSteps in *. cbn. rewrite ?Hnone.
    repeat split; try lia; try congruence; try discriminate; try tauto.
  - (* setResourceType *)
    unfold setResourceType. apply afterAbort_wellFormed.
    + destruct (aborts st) eqn:Ha.
      * pose proof (aborts_true st Ha) as Hu. destruct Hwf as [_ [_ [_ [_ Hpend]]]].
        destruct (Hpend Hu) as [H1 _]. split; [left|]; cbn; tauto.
      * pose proof (aborts_false st Hwf Ha) as Hnone.
        destruct Hwf as [Hstep [Hids [Hfiles [Hup Hpend]]]].
        unfold wellFormed, uploadedIds, chosenFiles, totalSteps in *. cbn. rewrite ?Hnone.
        repeat split; try lia; try congruence; try discriminate; try tauto.
    + destruct Hwf as [Hstep _]. exact Hstep.
    + cbn. lia.
    + cbn. lia.
  - (* handleFileUpload *)
    destruct Hwf as [Hstep [Hids [Hfiles [Hup Hpend]]]].
    unfold handleFileUpload. destruct fileList as [fileList|]; [|repeat split; tauto].
    destruct (head fileList) as [firstFile|]; [|repeat split; tauto].
    unfold wellFormed, uploadedIds, chosenFiles, totalSteps in *.
    destruct (String.eqb targetId "images"); [cbn; repeat split; try lia; tauto|].
    destruct (String.eqb targetId "audio"); [cbn; repeat split; try lia; tauto|].
    destruct (String.eqb targetId "video"); [cbn; repeat split; try lia; tauto|].
    destruct (String.eqb targetId "documents"); cbn; repeat split; try lia; tauto.
  - (* v-model of the narrative *)
    exact Hwf.
  - exact Hwf.
  - destruct Hwf as [Hstep [Hids [Hfiles [Hup Hpend]]]].
    unfold wellFormed, uploadedIds, chosenFiles, totalSteps in *.
    destruct view; cbn; repeat split; try lia; tauto.
  - (* resetForm *)
    unfold resetForm. cbv zeta. apply afterAbort_wellFormed.
    + destruct (aborts st) eqn:Ha.
      * pose proof (aborts_true st Ha) as Hu. split; [left|]; cbn; tauto.
      * pose proof (aborts_false st Hwf Ha) as Hnone.
        destruct Hwf as [Hstep [Hids [Hfiles [Hup Hpend]]]].
        unfold wellFormed, uploadedIds, chosenFiles, totalSteps in *. cbn. rewrite ?Hnone.
        repeat split; try lia; try congruence; try discriminate; try tauto.
    + cbn. unfold totalSteps. lia.
    + cbn. lia.
    + cbn. lia.
Qed.

Lemma initialForm_wellFormed : wellFormed initialForm.
Proof.
  unfold wellFormed, totalSteps. cbn.
  repeat split; try lia; try congruence; try discriminate.
Qed.

Lemma runEvents_wellFormed evs st : wellFormed st -> wellFormed (runEvents evs st).
Proof.
  revert st. induction evs as [|ev evs IH]; intros st Hwf; [exact Hwf|].
  cbn. apply IH. now apply handle_wellFormed.
Qed.

(** X16. Whatever the user does and however the uploads end, the wizard
    stays between step 1 and step 5, the contribution carries at most one
    uploaded resource and at most one file is chosen; an upload is under
    way exactly when [step1Uploading] is set, and then the wizard is at
    step 1. *)
Theorem wizard_keeps_one_resource_and_its_step_in_range (evs : list Event) :
  let st := runEvents evs initialForm in
  1 <= currentStep st <= 5 /\
  length (uploadedIds st) <= 1 /\
  length (chosenFiles st) <= 1 /\
  (step1Uploading st = true <-> upload st <> None) /\
  (step1Uploading st = true -> currentStep st = 1).
Proof.
  cbv zeta.
  destruct (runEvents_wellFormed evs initialForm initialForm_wellFormed)
    as [Hstep [Hids [Hfiles [Hup Hpend]]]].
  split; [exact Hstep|]. split; [exact Hids|]. split; [exact Hfiles|].
  split; [tauto|]. intros H. apply Hup in H. now apply Hpend.
Qed.

Lemma uploadOneFile_resolves e id :
  uploadOneFile e = inl id ->
  exists status,
    e = XhrDone status (DataObject (Some id)) /\ 200 <= status < 300 /\ id <> "".
Proof.
  destruct e as [status data| | |]; unfold uploadOneFile; try discriminate.
  destruct ((200 <=? status)%nat && (status <? 300)%nat) eqn:H2xx; [|discriminate].
  destruct data as [|s|[i|]|]; try discriminate.
  destruct (truthy i) eqn:Hi; [|discriminate]. intros [= ->].
  apply andb_true_iff in H2xx as [Hlo Hhi].
  apply Nat.leb_le in Hlo. apply Nat.ltb_lt in Hhi.
  exists status. split; [reflexivity|]. split; [lia|]. intros ->. discriminate.
Qed.

Lemma uploadSettled_step e st :
  currentStep (uploadSettled e st) = currentStep st \/
  exists pending id,
    upload st = Some pending /\ uploadOneFile e = inl id /\
    currentStep (uploadSettled e st) = 2 /\
    step1Uploading (uploadSettled e st) = false /\
    contribution (uploadSettled e st)
      = mediaOf (if ofText pending then Document else resourceType st) id.
Proof.
  unfold uploadSettled. destruct (upload st) as [pending|]; [|now left].
  destruct (uploadOneFile e) as [id|err].
  - right. exists pending, id. destruct (ofText pending); repeat split.
  - left. destruct (ofText pending); reflexivity.
Qed.

Lemma afterAbort_step b st : currentStep (afterAbort b st) = currentStep st.
Proof.
  unfold afterAbort. destruct b; [|reflexivity].
  destruct (uploadSettled_step XhrAbort st) as [H|[p [id [_ [H _]]]]]; [exact H|].
  cbn in H. discriminate.
Qed.

(** X17. Step 1 is left only through an upload that succeeded: if the
    wizard is at step 1 and an event takes it elsewhere, the event is the
    end of the upload with a 2xx status and a non-empty string [id]; the
    wizard is then at step 2, the upload is over, and the contribution is
    set from that [id]: under documents for a narrative, and for a file
    under the list of the resource type selected at that moment. *)
Theorem step_one_is_left_only_by_an_upload (ev : Event) (st : Form) :
  currentStep st = 1 ->
  currentStep (handle ev st) <> 1 ->
  exists status id pending,
    ev = UploadSettled (XhrDone status (DataObject (Some id))) /\
    200 <= status < 300 /\ id <> "" /\
    upload st = Some pending /\
    currentStep (handle ev st) = 2 /\
    step1Uploading (handle ev st) = false /\
    contribution (handle ev st)
      = mediaOf (if ofText pending then Document else resourceType st) id.
Proof.
  intros H1 Hleft.
  destruct ev as [|e| | |ty|fileList targetId|text| |view|]; cbn [handle] in *.
  - exfalso. apply Hleft. unfold nextStep. rewrite H1. cbn [Nat.eqb].
    destruct (submitting st); [exact H1|].
    destruct (step1Uploading st); [exact H1|].
    destruct (resourceType st); try (destruct (selectedFile st); exact H1).
    destruct (negb (truthy (plainText (narrativeText st)))); exact H1.
  - destruct (uploadSettled_step e st) as [H|[pending [id [Hu [Hr [H2 [Hbusy Hc]]]]]]];
      [congruence|].
    destruct (uploadOneFile_resolves e id Hr) as [status [-> [Hs Hid]]].
    exists status, id, pending. repeat split; try assumption; lia.
  - exfalso. apply Hleft. unfold cancelUpload. now rewrite afterAbort_step.
  - exfalso. apply Hleft. unfold prevStep. rewrite H1. exact H1.
  - exfalso. apply Hleft. unfold setResourceType. now rewrite afterAbort_step.
  - exfalso. apply Hleft. unfold handleFileUpload.
    destruct fileList as [fileList|]; [|exact H1].
    destruct (head fileList); [|exact H1].
    destruct (String.eqb targetId "images"); [exact H1|].
    destruct (String.eqb targetId "audio"); [exact H1|].
    destruct (String.eqb targetId "video"); [exact H1|].
    destruct (String.eqb targetId "documents"); exact H1.
  - exfalso. apply Hleft. exact H1.
  - exfalso. apply Hleft. exact H1.
  - exfalso. apply Hleft. destruct view; exact H1.
  - exfalso. apply Hleft. unfold resetForm. cbv zeta. now rewrite afterAbort_step.
Qed.

Lemma step_one_is_left_only_by_an_upload_witness :
  let st := runEvents [InputNarrative "<p>hello</p>"; NextStep] initialForm in
  let ev := UploadSettled (XhrDone 201 (DataObject (Some "m1"))) in
  (currentStep st = 1 /\ currentStep (handle ev st) <> 1) /\
  exists status id pending,
    ev = UploadSettled (XhrDone status (DataObject (Some id))) /\
    200 <= status < 300 /\ id <> "" /\
    upload st = Some pending /\
    currentStep (handle ev st) = 2 /\
    step1Uploading (handle ev st) = false /\
    contribution (handle ev st)
      = mediaOf (if ofText pending then Document else resourceType st) id.
Proof.
  cbv zeta. split; [split; [reflexivity | discriminate]|].
  apply (step_one_is_left_only_by_an_upload
           (UploadSettled (XhrDone 201 (DataObject (Some "m1"))))
           (runEvents [InputNarrative "<p>hello</p>"; NextStep] initialForm)).
  - reflexivity.
  - discriminate.
Defined.

Lemma trimStart_app_visible a c b :
  isWhiteSpace c = false -> trimStart (a ++ String c b) <> "".
Proof.
  intros Hc. induction a as [|d a IH].
  - change (("" ++ String c b)%string) with (String c b).
    rewrite trimStart_fixed by exact Hc. discriminate.
  - rewrite append_String. cbn [trimStart]. destruct (isWhiteSpace d); [exact IH|].
    discriminate.
Qed.

Lemma rev_empty s : String.rev s = "" -> s = "".
Proof. intros H. rewrite <- (rev_involutive s), H. reflexivity. Qed.

(** Trimming leaves nothing exactly when there is white space only. *)
Lemma trim_empty_iff s : trim s = "" <-> trimStart s = "".
Proof.
  unfold trim. split.
  - intros H. apply rev_empty in H.
    destruct (trimStart s) as [|c t] eqn:Hs; [reflexivity|]. exfalso.
    rewrite rev_String in H.
    exact (trimStart_app_visible _ c "" (trimStart_head s c t Hs) H).
  - intros ->. reflexivity.
Qed.

Lemma trim_visible_head c s : isWhiteSpace c = false -> trim (String c s) <> "".
Proof.
  intros Hc H. apply trim_empty_iff in H. rewrite trimStart_fixed in H by exact Hc.
  discriminate.
Qed.

Lemma uploadErrorMessage_shown err : uploadErrorMessage err <> "".
Proof.
  destruct err as [status data|message|]; cbn [uploadErrorMessage]; try discriminate.
  destruct (status =? 0)%nat; [discriminate|].
  rewrite append_String. now apply trim_visible_head.
Qed.

(** X18. An upload that fails keeps the wizard where it is and says so:
    whatever the failure (a status outside 2xx, a 2xx answer without a
    string [id], a network error, a timeout, an abort), the step and the
    contribution are unchanged, a message is shown, and the wizard is
    ready for the next attempt. *)
Theorem failed_upload_keeps_the_step_and_shows_a_message (e : XhrEvent)
    (st : Form) (pending : PendingUpload) (err : UploadError) :
  upload st = Some pending ->
  uploadOneFile e = inr err ->
  let st' := handle (UploadSettled e) st in
  currentStep st' = currentStep st /\
  contribution st' = contribution st /\
  step1Error st' <> "" /\
  step1Uploading st' = false /\
  upload st' = None.
Proof.
  intros Hu He. cbn [handle]. unfold uploadSettled. rewrite Hu, He.
  destruct (ofText pending); cbn; repeat split; try discriminate.
  apply uploadErrorMessage_shown.
Qed.

Lemma failed_upload_keeps_the_step_and_shows_a_message_witness :
  let st := runEvents [InputNarrative "<p>hello</p>"; NextStep] initialForm in
  let st' := handle (UploadSettled (XhrDone 201 (DataObject None))) st in
  currentStep st' = currentStep st /\
  contribution st' = contribution st /\
  step1Error st' <> "" /\
  step1Uploading st' = false /\
  upload st' = None.
Proof.
  cbv zeta.
  apply (failed_upload_keeps_the_step_and_shows_a_message
           (XhrDone 201 (DataObject None))
           (runEvents [InputNarrative "<p>hello</p>"; NextStep] initialForm)
           {| ofText := true;
              request := {| file := narrativeFile "<p>hello</p>";
                            file_type := "document" |} |}
           (ErrResponse 201 (DataObject None))).
  - reflexivity.
  - reflexivity.
Defined.

Lemma hasGt_app body s : hasGt (body ++ ">" ++ s) = true.
Proof.
  induction body as [|c body IH]; [reflexivity|].
  rewrite append_String. cbn [hasGt]. destruct (Ascii.eqb c ">"); [reflexivity | exact IH].
Qed.

Lemma removeTags_tag body s :
  hasGt body = false -> removeTags true (body ++ ">" ++ s) = removeTags false s.
Proof.
  induction body as [|c body IH]; [reflexivity|].
  cbn [hasGt]. rewrite append_String. cbn [removeTags].
  destruct (Ascii.eqb c ">"); [discriminate | exact IH].
Qed.

Lemma isWhiteSpace_not_lt c : isWhiteSpace c = true -> Ascii.eqb c "<" = false.
Proof.
  intros Hc. destruct (Ascii.eqb_spec c "<") as [->|]; [discriminate | reflexivity].
Qed.

Lemma markupOnly_removed s : markupOnly s -> trimStart (removeTags false s) = "".
Proof.
  induction 1 as [|c s Hc _ IH|body s Hbody _ IH]; [reflexivity| |].
  - cbn [removeTags]. rewrite (isWhiteSpace_not_lt c Hc). cbn [andb trimStart].
    now rewrite Hc.
  - rewrite append_String. change ("" ++ (body ++ ">" ++ s))%string with (body ++ ">" ++ s)%string.
    cbn [removeTags]. rewrite hasGt_app. cbn [Ascii.eqb Bool.eqb andb].
    now rewrite removeTags_tag.
Qed.

Lemma removed_markupOnly s :
  (trimStart (removeTags false s) = "" -> markupOnly s) /\
  (hasGt s = true -> trimStart (removeTags true s) = "" ->
   exists body rest,
     s = (body ++ ">" ++ rest)%string /\ hasGt body = false /\ markupOnly rest).
Proof.
  induction s as [|c s [IHout IHin]].
  - split; [intros _; constructor | discriminate].
  - split.
    + cbn [removeTags]. destruct (Ascii.eqb_spec c "<") as [->|Hc]; cbn [andb].
      * destruct (hasGt s) eqn:Hgt.
        -- intros H. destruct (IHin eq_refl H) as [body [rest [-> [Hb Hm]]]].
           exact (markup_tag body rest Hb Hm).
        -- cbn [trimStart]. change (isWhiteSpace "<") with false. discriminate.
      * cbn [trimStart]. destruct (isWhiteSpace c) eqn:Hw; [|discriminate].
        intros H. apply markup_space; [exact Hw | now apply IHout].
    + cbn [hasGt removeTags]. destruct (Ascii.eqb_spec c ">") as [->|Hc].
      * intros _ H. exists "", s. split; [reflexivity|]. split; [reflexivity|].
        now apply IHout.
      * intros Hgt H. destruct (IHin Hgt H) as [body [rest [-> [Hb Hm]]]].
        exists (String c body), rest. split; [now rewrite append_String|].
        split; [|exact Hm]. cbn [hasGt].
        destruct (Ascii.eqb_spec c ">"); [contradiction | exact Hb].
Qed.

Lemma plainText_empty_iff s : plainText s = "" <-> markupOnly s.
Proof.
  unfold plainText. rewrite trim_empty_iff. split.
  - apply removed_markupOnly.
  - apply markupOnly_removed.
Qed.

(** X19. At step 1 a narrative is uploaded exactly when something of it
    shows: for white space and tags only, the step does not count as
    valid and Next does nothing at all; otherwise it starts the upload of
    the narrative, as the document [narrative_text.html]. *)
Theorem narrative_is_uploaded_unless_markup_only (st : Form) :
  submitting st = false ->
  currentStep st = 1 ->
  step1Uploading st = false ->
  resourceType st = Text ->
  (isStepValid1 st = false <-> markupOnly (narrativeText st)) /\
  (markupOnly (narrativeText st) -> handle NextStep st = st) /\
  (~ markupOnly (narrativeText st) ->
     upload (handle NextStep st)
       = Some {| ofText := true;
                 request := {| file := {| name := "narrative_text.html";
                                          mediaType := "text/html";
                                          content := narrativeText st |};
                               file_type := "document" |} |} /\
     step1Uploading (handle NextStep st) = true /\
     currentStep (handle NextStep st) = 1).
Proof.
  intros Hsub H1 Hbusy Hty. split.
  { unfold isStepValid1. rewrite Hty, <- plainText_empty_iff.
    destruct (plainText (narrativeText st)); cbn; split; congruence. }
  cbn [handle]. unfold nextStep.
  rewrite Hsub, H1, Hbusy, Hty. cbn [Nat.eqb].
  destruct (truthy (plainText (narrativeText st))) eqn:Hplain; cbn [negb].
  - split.
    + intros Hm. apply plainText_empty_iff in Hm. rewrite Hm in Hplain. discriminate.
    + intros _. cbn. rewrite H1. repeat split.
  - split; [reflexivity|].
    intros Hm. exfalso. apply Hm, plainText_empty_iff. now apply truthy_false.
Qed.

Lemma narrative_is_uploaded_unless_markup_only_witness :
  let st := handle (InputNarrative emptyEditor) initialForm in
  (submitting st = false /\ currentStep st = 1 /\ step1Uploading st = false /\
   resourceType st = Text /\ markupOnly (narrativeText st)) /\
  isStepValid1 st = false /\ handle NextStep st = st.
Proof.
  cbv zeta.
  assert (markupOnly emptyEditor) as Hm.
  { apply (markup_tag "p" "<br></p>" eq_refl).
    apply (markup_tag "br" "</p>" eq_refl).
    apply (markup_tag "/p" "" eq_refl). constructor. }
  split; [repeat split; exact Hm|].
  destruct (narrative_is_uploaded_unless_markup_only
              (handle (InputNarrative emptyEditor) initialForm)
              eq_refl eq_refl eq_refl eq_refl) as [Hvalid [Hnext _]].
  split; [apply Hvalid; exact Hm | apply Hnext; exact Hm].
Defined.

Lemma selectedFile_listOf st :
  selectedFile st = head (listOf (resourceType st) (files st)).
Proof. unfold selectedFile, listOf. destruct (resourceType st); reflexivity. Qed.

Lemma listOf_mediaOf ty ty' id :
  listOf ty (mediaOf ty' id) <> [] -> ty = ty' /\ ty <> Text.
Proof. destruct ty, ty'; cbn; intros H; try congruence; split; congruence. Qed.

Lemma listOf_noMedia {A} ty : listOf ty (@noMedia A) = [].
Proof. destruct ty; reflexivity. Qed.

Lemma uploadSettled_fileBacked e st : fileBacked st -> fileBacked (uploadSettled e st).
Proof.
  intros [J1 J2]. unfold uploadSettled.
  destruct (upload st) as [pending|] eqn:Hu; [|split; [exact J1 | rewrite Hu; congruence]].
  specialize (J2 ltac:(discriminate)).
  destruct (ofText pending), (uploadOneFile e) as [id|err]; split; cbn;
    try congruence; try exact J1.
  - intros H. apply listOf_mediaOf in H as [H1 H2]. now apply J2.
  - intros H. apply listOf_mediaOf in H as [H1 H2]. now apply J2.
Qed.

Lemma afterAbort_cleared b st :
  contribution st = noMedia -> (b = false -> upload st = None) ->
  fileBacked (afterAbort b st).
Proof.
  intros Hc Hu. unfold afterAbort. destruct b.
  - unfold uploadSettled. destruct (upload st) as [pending|] eqn:Hp.
    + destruct (ofText pending); split; cbn; try congruence;
        rewrite Hc, listOf_noMedia; congruence.
    + split; [rewrite Hc, listOf_noMedia; congruence | rewrite Hp; congruence].
  - split; [rewrite Hc, listOf_noMedia; congruence | rewrite (Hu eq_refl); congruence].
Qed.

Lemma fileBacked_keep st st' :
  fileBacked st ->
  resourceType st' = resourceType st ->
  contribution st' = contribution st ->
  files st' = files st ->
  (upload st' = upload st \/
   (resourceType st <> Text -> listOf (resourceType st) (files st) <> [])) ->
  fileBacked st'.
Proof.
  intros [J1 J2] Hty Hc Hf Hu. unfold fileBacked. rewrite Hty, Hc, Hf.
  split; [exact J1|]. destruct Hu as [Hu|Hu]; [rewrite Hu; exact J2 | intros _; exact Hu].
Qed.

Lemma nextStep_keeps st :
  resourceType (nextStep st) = resourceType st /\
  contribution (nextStep st) = contribution st /\
  files (nextStep st) = files st /\
  (upload (nextStep st) = upload st \/
   (resourceType st <> Text -> listOf (resourceType st) (files st) <> [])).
Proof.
  unfold nextStep. destruct (submitting st); [tauto|].
  destruct (currentStep st =? 1)%nat.
  - destruct (step1Uploading st); [tauto|].
    pose proof (selectedFile_listOf st) as Hsel.
    destruct (selectedFile st) as [f|].
    + assert (listOf (resourceType st) (files st) <> []) as Hne
        by (intros H; rewrite H in Hsel; discriminate).
      destruct (resourceType st) eqn:Hty; try (cbn; rewrite ?Hty; tauto);
        destruct (negb (truthy (plainText (narrativeText st)))); cbn; rewrite ?Hty;
        tauto.
    + destruct (resourceType st) eqn:Hty; try (cbn; rewrite ?Hty; tauto).
      destruct (negb (truthy (plainText (narrativeText st)))); cbn; rewrite ?Hty;
        [tauto | repeat split; right; congruence].
  - cbv zeta. destruct (currentStep (set_step1Error "" st) <? totalSteps)%nat; cbn; tauto.
Qed.

Lemma handle_fileBacked ev st :
  wellFormed st -> fileBacked st -> fileBacked (handle ev st).
Proof.
  intros Hwf Hfb. destruct ev as [|e| | |ty|fileList targetId|text| |view|]; cbn [handle].
  - (* nextStep *)
    destruct (nextStep_keeps st) as [Hty [Hc [Hf Hu]]].
    exact (fileBacked_keep st (nextStep st) Hfb Hty Hc Hf Hu).
  - now apply uploadSettled_fileBacked.
  - unfold cancelUpload, afterAbort. destruct (aborts st); [|exact Hfb].
    now apply uploadSettled_fileBacked.
  - unfold prevStep. destruct (1 <? currentStep st)%nat; [|exact Hfb].
    destruct Hfb as [J1 J2]. split; assumption.
  - unfold setResourceType. apply afterAbort_cleared; [reflexivity|].
    intros Ha. exact (aborts_false st Hwf Ha).
  - destruct Hfb as [J1 J2]. unfold handleFileUpload.
    destruct fileList as [fileList|]; [|split; assumption].
    destruct (head fileList) as [firstFile|]; [|split; assumption].
    destruct (String.eqb targetId "images"); [split; cbn; congruence|].
    destruct (String.eqb targetId "audio"); [split; cbn; congruence|].
    destruct (String.eqb targetId "video"); [split; cbn; congruence|].
    destruct (String.eqb targetId "documents"); [split; cbn; congruence|].
    split; assumption.
  - exact Hfb.
  - exact Hfb.
  - destruct Hfb as [J1 J2]. destruct view; split; assumption.
  - unfold resetForm. cbv zeta. apply afterAbort_cleared; [reflexivity|].
    intros Ha. exact (aborts_false st Hwf Ha).
Qed.

Lemma runEvents_fileBacked evs st :
  wellFormed st -> fileBacked st -> fileBacked (runEvents evs st).
Proof.
  revert st. induction evs as [|ev evs IH]; intros st Hwf Hfb; [exact Hfb|].
  cbn. apply IH; [now apply handle_wellFormed | now apply handle_fileBacked].
Qed.

Lemma initialForm_fileBacked : fileBacked initialForm.
Proof. split; cbn; congruence. Qed.

Lemma nextStep_starts st :
  submitting st = false -> currentStep st = 1 -> step1Uploading st = false ->
  upload st = None ->
  (upload (nextStep st) <> None <->
   match resourceType st with
   | Text => truthy (plainText (narrativeText st)) = true
   | _ => selectedFile st <> None
   end).
Proof.
  intros Hsub H1 Hbusy Hu. unfold nextStep. rewrite Hsub, H1, Hbusy. cbn [Nat.eqb].
  destruct (resourceType st).
  1-4: destruct (selectedFile st) as [f|]; cbn; rewrite ?Hu; split; congruence.
  destruct (truthy (plainText (narrativeText st))); cbn; rewrite ?Hu; split; congruence.
Qed.

Lemma isStepValid1_file st :
  resourceType st <> Text ->
  (listOf (resourceType st) (contribution st) <> [] ->
   listOf (resourceType st) (files st) <> []) ->
  (isStepValid1 st = true <->
   match resourceType st with
   | Text => truthy (plainText (narrativeText st)) = true
   | _ => selectedFile st <> None
   end).
Proof.
  unfold isStepValid1, selectedFile, listOf. intros Hty J.
  destruct (resourceType st); try congruence.
  - destruct (images (contribution st)), (images (files st)); cbn in *;
      split; congruence || (intros _; exfalso; apply J; [discriminate | reflexivity]).
  - destruct (audio (contribution st)), (audio (files st)); cbn in *;
      split; congruence || (intros _; exfalso; apply J; [discriminate | reflexivity]).
  - destruct (video (contribution st)), (video (files st)); cbn in *;
      split; congruence || (intros _; exfalso; apply J; [discriminate | reflexivity]).
  - destruct (documents (contribution st)), (documents (files st)); cbn in *;
      split; congruence || (intros _; exfalso; apply J; [discriminate | reflexivity]).
Qed.

(** X20. At step 1 the step counts as valid exactly when Next starts an
    upload. Whatever happened before, with nothing being uploaded or
    submitted, [isStepValid] holds if and only if the Next button sends
    the narrative or the chosen file: an uploaded id never stands in for
    a file that is no longer chosen. *)
Theorem step_one_is_valid_exactly_when_next_uploads (evs : list Event) :
  let st := runEvents evs initialForm in
  submitting st = false ->
  step1Uploading st = false ->
  currentStep st = 1 ->
  (isStepValid1 st = true <-> upload (handle NextStep st) <> None).
Proof.
  cbv zeta. intros Hsub Hbusy H1.
  pose proof (runEvents_wellFormed evs initialForm initialForm_wellFormed) as Hwf.
  pose proof (runEvents_fileBacked evs initialForm initialForm_wellFormed
                initialForm_fileBacked) as [J1 _].
  set (st := runEvents evs initialForm) in *.
  assert (upload st = None) as Hu.
  { destruct Hwf as [_ [_ [_ [Hup _]]]]. destruct (upload st); [|reflexivity].
    assert (step1Uploading st = true) by (apply Hup; discriminate). congruence. }
  cbn [handle]. rewrite (nextStep_starts st Hsub H1 Hbusy Hu).
  destruct (resourceType st) eqn:Hty.
  5:{ unfold isStepValid1, truthy. rewrite Hty.
      destruct (plainText (narrativeText st)); cbn; split; congruence. }
  all: pose proof (isStepValid1_file st) as H; rewrite Hty in H; apply H;
    [discriminate | exact J1].
Qed.

Lemma step_one_is_valid_exactly_when_next_uploads_witness :
  let st := runEvents [HandleFileUpload (Some [sampleRecording]) "audio"] initialForm in
  (submitting st = false /\ step1Uploading st = false /\ currentStep st = 1) /\
  isStepValid1 st = true /\ upload (handle NextStep st) <> None.
Proof.
  cbv zeta. split; [repeat split|].
  split; [reflexivity|].
  apply (step_one_is_valid_exactly_when_next_uploads
           [HandleFileUpload (Some [sampleRecording]) "audio"]); reflexivity.
Defined.

End ContributionFormFacts.

(* ===================================================================== *)
(** * Part XXII. The AI assistant                                         *)
(* ===================================================================== *)

Module AIAssistFacts.
Import AIAssist.

Lemma draftSettled_probe outcome st :
  loading (draftSettled outcome st) = loading st /\
  probes (draftSettled outcome st) = probes st /\
  (available (draftSettled outcome st) = available st \/
   available (draftSettled outcome st) = Some false).
Proof.
  unfold draftSettled. destruct (drafts st); [tauto|].
  destruct outcome as [t d|status]; [cbn; tauto|].
  destruct (statusIs 503 status); [cbn; tauto|].
  destruct (statusIs 429 status); cbn; tauto.
Qed.

Lemma handle_probe ev st :
  (loading st = true <-> probes st = 1) -> probes st <= 1 ->
  (loading (handle ev st) = true <-> probes (handle ev st) = 1) /\
  probes (handle ev st) <= 1 /\
  (available st <> None -> available (handle ev st) <> None).
Proof.
  intros Hl Hp.
  destruct ev as [|answer|submitting|outcome|text|text|]; cbn [handle].
  - unfold refresh. destruct (loading st) eqn:Hload; [tauto|]. cbn.
    assert (probes st = 0) as -> by (destruct (probes st) as [|[|n]]; [reflexivity| |lia];
      destruct Hl as [_ Hl]; specialize (Hl eq_refl); discriminate).
    cbn. repeat split; try tauto; lia.
  - unfold refreshSettled. destruct (probes st) as [|n] eqn:Hn; [rewrite Hn; tauto|]. cbn.
    repeat split; try discriminate; lia.
  - unfold generateAIDraft. destruct (aiDraftLoading st || submitting); cbn; tauto.
  - destruct (draftSettled_probe outcome st) as [H1 [H2 H3]]. rewrite H1, H2.
    repeat split; try tauto. destruct H3 as [-> | ->]; [tauto | discriminate].
  - cbn. tauto.
  - cbn. tauto.
  - cbn. tauto.
Qed.

(** X21. The availability of the assistant is asked for by one request at
    a time, whoever calls [refresh] and however often: [loading] is set
    exactly while a status request is under way; and an availability that
    is known never becomes unknown again. *)
Theorem one_availability_probe_at_a_time (evs : list Event) :
  let st := runEvents evs initialState in
  probes st <= 1 /\
  (loading st = true <-> probes st = 1) /\
  (forall more, isKnown st = true -> isKnown (runEvents more st) = true).
Proof.
  cbv zeta.
  assert (forall evs st,
            (loading st = true <-> probes st = 1) -> probes st <= 1 ->
            (loading (runEvents evs st) = true <-> probes (runEvents evs st) = 1) /\
            probes (runEvents evs st) <= 1 /\
            (available st <> None -> available (runEvents evs st) <> None)) as Hrun.
  { clear evs. induction evs as [|ev evs IH]; intros st Hl Hp; [cbn; tauto|].
    destruct (handle_probe ev st Hl Hp) as [Hl' [Hp' Hk']].
    destruct (IH (handle ev st) Hl' Hp') as [Hl'' [Hp'' Hk'']].
    cbn. tauto. }
  assert (loading initialState = true <-> probes initialState = 1) as Hl0
    by (cbn; split; discriminate).
  assert (probes initialState <= 1) as Hp0 by (cbn; lia).
  destruct (Hrun evs initialState Hl0 Hp0) as [Hl [Hp _]].
  split; [exact Hp|]. split; [exact Hl|].
  intros more Hknown. destruct (Hrun more _ Hl Hp) as [_ [_ Hk]].
  unfold isKnown in *. apply negb_true_iff, bool_decide_eq_false_1 in Hknown.
  apply negb_true_iff, bool_decide_eq_false_2. now apply Hk.
Qed.

Lemma handle_unavailable ev st :
  match ev with RefreshSettled _ => False | _ => True end ->
  available st = Some false -> available (handle ev st) = Some false.
Proof.
  intros Hev Hav.
  destruct ev as [|answer|submitting|outcome|text|text|]; cbn [handle]; try exact Hav.
  - unfold refresh. destruct (loading st); exact Hav.
  - contradiction.
  - unfold generateAIDraft. destruct (aiDraftLoading st || submitting); exact Hav.
  - destruct (draftSettled_probe outcome st) as [_ [_ [H|H]]]; congruence.
Qed.

(** X22. A draft that fails leaves the title and the description as they
    were typed and shows a message; after a 503 the draft button stays
    disabled, whatever else happens, until a status request settles. *)
Theorem failed_draft_keeps_the_text_and_503_turns_the_assistant_off
    (status : option nat) (st : State) :
  drafts st <> 0 ->
  let st' := handle (DraftSettled (DraftRejected status)) st in
  title st' = title st /\ description st' = description st /\
  aiDraftError st' <> "" /\ aiDraftLoading st' = false /\
  (status = Some 503 ->
     forall evs submitting,
       noProbeSettles evs -> draftDisabled submitting (runEvents evs st') = true).
Proof.
  intros Hd. cbn [handle]. unfold draftSettled.
  destruct (drafts st) as [|n]; [congruence|].
  split; [|split; [|split; [|split]]].
  - destruct (statusIs 503 status); [reflexivity|].
    destruct (statusIs 429 status); reflexivity.
  - destruct (statusIs 503 status); [reflexivity|].
    destruct (statusIs 429 status); reflexivity.
  - destruct (statusIs 503 status); [discriminate|].
    destruct (statusIs 429 status); discriminate.
  - reflexivity.
  - intros -> evs submitting Hevs.
    change (statusIs 503 (Some 503)) with true. cbv iota.
    match goal with |- draftDisabled _ (runEvents _ ?s) = true =>
      assert (available s = Some false) as Hav by reflexivity; revert Hav;
      generalize s end.
    induction Hevs as [|ev evs Hev _ IH]; intros s Hav.
    + cbn. unfold draftDisabled, isAvailable. rewrite Hav.
      rewrite bool_decide_eq_false_2 by discriminate. apply orb_true_r.
    + cbn. apply IH. now apply handle_unavailable.
Qed.

Lemma failed_draft_keeps_the_text_and_503_turns_the_assistant_off_witness :
  let st := runEvents [Refresh; RefreshSettled (Some true); InputTitle "Mill";
                       GenerateAIDraft false] initialState in
  let st' := handle (DraftSettled (DraftRejected (Some 503))) st in
  (drafts st <> 0 /\ draftDisabled false (handle (DraftSettled (DraftAnswer None None)) st)
                     = false) /\
  title st' = "Mill" /\ draftDisabled false (runEvents [Refresh; InputTitle "x"] st') = true.
Proof.
  cbv zeta. split; [split; [discriminate | reflexivity]|].
  destruct (failed_draft_keeps_the_text_and_503_turns_the_assistant_off (Some 503)
              (runEvents [Refresh; RefreshSettled (Some true); InputTitle "Mill";
                          GenerateAIDraft false] initialState))
    as [Ht [_ [_ [_ Hoff]]]]; [discriminate|].
  split; [exact Ht|].
  apply (Hoff eq_refl [Refresh; InputTitle "x"] false).
  repeat constructor.
Defined.

End AIAssistFacts.

(* ===================================================================== *)
(** * Part XXIII. The locale                                              *)
(* ===================================================================== *)

Module I18nFacts.
Import I18n.

Lemma append_nil_l (s : string) : ("" ++ s)%string = s.
Proof. reflexivity. Qed.

Lemma toLowerCase_app a b :
  toLowerCase (a ++ b) = (toLowerCase a ++ toLowerCase b)%string.
Proof.
  induction a as [|c a IH]; [reflexivity|].
  rewrite append_String. cbn [toLowerCase]. now rewrite append_String, IH.
Qed.

Lemma toLowerAscii_idem c : toLowerAscii (toLowerAscii c) = toLowerAscii c.
Proof. destruct c as [[] [] [] [] [] [] [] []]; reflexivity. Qed.

Lemma isWhiteSpace_toLowerAscii c : isWhiteSpace (toLowerAscii c) = isWhiteSpace c.
Proof. destruct c as [[] [] [] [] [] [] [] []]; reflexivity. Qed.

Lemma toLowerCase_idem s : toLowerCase (toLowerCase s) = toLowerCase s.
Proof.
  induction s as [|c s IH]; [reflexivity|]. cbn [toLowerCase].
  now rewrite toLowerAscii_idem, IH.
Qed.

Lemma toLowerCase_rev s : toLowerCase (String.rev s) = String.rev (toLowerCase s).
Proof.
  induction s as [|c s IH]; [reflexivity|]. cbn [toLowerCase].
  rewrite !rev_String, toLowerCase_app, IH. reflexivity.
Qed.

Lemma toLowerCase_trimStart s : toLowerCase (trimStart s) = trimStart (toLowerCase s).
Proof.
  induction s as [|c s IH]; [reflexivity|]. cbn [toLowerCase trimStart].
  rewrite isWhiteSpace_toLowerAscii. destruct (isWhiteSpace c); [exact IH | reflexivity].
Qed.

Lemma toLowerCase_trim s : toLowerCase (trim s) = trim (toLowerCase s).
Proof.
  unfold trim.
  now rewrite toLowerCase_rev, toLowerCase_trimStart, toLowerCase_rev, toLowerCase_trimStart.
Qed.

Lemma trimStart_app_keep y c x :
  isWhiteSpace c = false -> exists w, trimStart (y ++ String c x) = (w ++ String c x)%string.
Proof.
  intros Hc. induction y as [|d y [w IH]].
  - exists "". rewrite append_nil_l. now apply trimStart_fixed.
  - rewrite append_String. cbn [trimStart]. destruct (isWhiteSpace d).
    + now exists w.
    + exists (String d y). now rewrite append_String.
Qed.

(** Trimming keeps a string up to its last visible character. *)
Lemma trim_upto a c b :
  trimStart (a ++ String c b) = (a ++ String c b)%string ->
  isWhiteSpace c = false ->
  exists b', trim (a ++ String c b) = (a ++ String c b')%string.
Proof.
  intros Hstart Hc. unfold trim. rewrite Hstart.
  rewrite rev_append, rev_String, string_app_assoc, append_String, append_nil_l.
  destruct (trimStart_app_keep (String.rev b) c (String.rev a) Hc) as [w ->].
  exists (String.rev w).
  rewrite rev_append, rev_String, rev_involutive, string_app_assoc, append_String,
    append_nil_l. reflexivity.
Qed.

Lemma normalizeLocale_range raw l :
  normalizeLocale raw = Some l -> l = "es" \/ l = "en".
Proof.
  destruct raw as [raw|]; [|discriminate]. unfold normalizeLocale.
  destruct (negb (truthy raw)); [discriminate|]. cbv zeta.
  set (n := default "" (head (split "-" (toLowerCase (trim raw))))).
  cbn [existsb SUPPORTED_LOCALES].
  destruct (String.eqb_spec n "es") as [->|_]; [intros [= <-]; now left|].
  destruct (String.eqb_spec n "en") as [->|_]; [intros [= <-]; now right|].
  discriminate.
Qed.

Lemma normalizeLocale_region l region :
  l = "es" \/ l = "en" -> normalizeLocale (Some (l ++ "-" ++ region)%string) = Some l.
Proof.
  intros Hl.
  assert (exists b', trim (l ++ String "-" region) = (l ++ String "-" b')%string) as [b' Hb].
  { apply trim_upto; [|reflexivity]. destruct Hl as [-> | ->]; reflexivity. }
  assert (("-" ++ region)%string = String "-" region) as Hdash by reflexivity.
  unfold normalizeLocale. rewrite Hdash, Hb.
  destruct Hl as [-> | ->]; rewrite !append_String, append_nil_l; reflexivity.
Qed.

(** X23. [normalizeLocale] gives one of the supported locales, [es] or
    [en], or nothing; it looks at the part before the first hyphen only,
    so that [es-EC] counts as [es]; it ignores the case of the letters;
    and a locale it gave is given back as it is. *)
Theorem normalizeLocale_gives_a_supported_locale :
  (forall raw l, normalizeLocale raw = Some l -> l = "es" \/ l = "en") /\
  (forall l region, In l SUPPORTED_LOCALES ->
     normalizeLocale (Some (l ++ "-" ++ region)%string) = Some l) /\
  (forall raw, normalizeLocale (Some (toLowerCase raw)) = normalizeLocale (Some raw)) /\
  (forall raw l, normalizeLocale raw = Some l -> normalizeLocale (Some l) = Some l) /\
  normalizeLocale None = None /\ normalizeLocale (Some "") = None.
Proof.
  split; [exact normalizeLocale_range|]. split; [|split; [|split; [|split; reflexivity]]].
  - intros l region [<-|[<-|[]]]; apply normalizeLocale_region; tauto.
  - intros raw. unfold normalizeLocale.
    assert (truthy (toLowerCase raw) = truthy raw) as -> by (destruct raw; reflexivity).
    now rewrite <- toLowerCase_trim, toLowerCase_idem.
  - intros raw l H. destruct (normalizeLocale_range raw l H) as [-> | ->]; reflexivity.
Qed.

(** X24. The start-up settles on a supported locale and persists it: a
    stored locale wins over the browser's, the browser's over [es]; the
    store then holds that locale under [hp_locale] (its other keys are
    untouched), a later start-up picks the same locale whatever the
    browser says, and the API client sends it as [Accept-Language]. *)
Theorem start_up_persists_a_supported_locale (localStorage : gmap string string)
    (navigator : option Navigator) :
  let locale := fst (startUp localStorage navigator) in
  let stored := snd (startUp localStorage navigator) in
  (locale = "es" \/ locale = "en") /\
  (forall l, normalizeLocale (localStorage !! "hp_locale") = Some l -> locale = l) /\
  (normalizeLocale (localStorage !! "hp_locale") = None ->
     forall l, normalizeLocale (browserLanguage navigator) = Some l -> locale = l) /\
  (normalizeLocale (localStorage !! "hp_locale") = None ->
     normalizeLocale (browserLanguage navigator) = None -> locale = "es") /\
  stored !! "hp_locale" = Some locale /\
  (forall k, k <> "hp_locale" -> stored !! k = localStorage !! k) /\
  (forall navigator', getInitialLocale stored navigator' = locale) /\
  (forall config,
     ApiClient.headersOf (ApiClient.requestInterceptor stored config) !! "Accept-Language"
     = Some locale).
Proof.
  cbv zeta. unfold startUp. cbn [fst snd].
  assert (getInitialLocale localStorage navigator = "es"
          \/ getInitialLocale localStorage navigator = "en") as Hrange.
  { unfold getInitialLocale.
    destruct (normalizeLocale (localStorage !! LOCALE_STORAGE_KEY)) as [l|] eqn:Hs;
      [exact (normalizeLocale_range _ _ Hs)|].
    destruct (normalizeLocale (browserLanguage navigator)) as [l|] eqn:Hb;
      [exact (normalizeLocale_range _ _ Hb) | now left]. }
  assert (normalizeLocale (Some (getInitialLocale localStorage navigator))
          = Some (getInitialLocale localStorage navigator)) as Hfix
    by (destruct Hrange as [-> | ->]; reflexivity).
  rewrite Hfix.
  set (locale := getInitialLocale localStorage navigator) in *.
  assert (<[LOCALE_STORAGE_KEY := locale]> localStorage !! "hp_locale" = Some locale)
    as Hstored by apply lookup_insert_eq.
  split; [exact Hrange|]. split; [|split; [|split; [|split; [|split; [|split]]]]].
  - intros l Hl. unfold locale, getInitialLocale, LOCALE_STORAGE_KEY. now rewrite Hl.
  - intros Hs l Hl. unfold locale, getInitialLocale, LOCALE_STORAGE_KEY. now rewrite Hs, Hl.
  - intros Hs Hb. unfold locale, getInitialLocale, LOCALE_STORAGE_KEY. now rewrite Hs, Hb.
  - exact Hstored.
  - intros k Hk. apply lookup_insert_ne. unfold LOCALE_STORAGE_KEY. congruence.
  - intros navigator'. unfold getInitialLocale at 1.
    change (<[LOCALE_STORAGE_KEY:=locale]> localStorage !! LOCALE_STORAGE_KEY)
      with (<[LOCALE_STORAGE_KEY:=locale]> localStorage !! "hp_locale").
    now rewrite Hstored, Hfix.
  - intros config. rewrite ApiClientFacts.requestInterceptor_lookup.
    assert (ApiClient.getItemOr (<[LOCALE_STORAGE_KEY:=locale]> localStorage)
              ApiClient.LOCALE_STORAGE_KEY ApiClient.DEFAULT_LOCALE = locale) as ->.
    { unfold ApiClient.getItemOr.
      change (<[LOCALE_STORAGE_KEY:=locale]> localStorage !! ApiClient.LOCALE_STORAGE_KEY)
        with (<[LOCALE_STORAGE_KEY:=locale]> localStorage !! "hp_locale").
      rewrite Hstored. destruct Hrange as [-> | ->]; reflexivity. }
    destruct (ApiClient.isFormData (ApiClient.data config)); reflexivity.
Qed.

End I18nFacts.

(* ===================================================================== *)
(** * Part XXIV. The auth store                                           *)
(* ===================================================================== *)

Module AuthStoreFacts.
Import AuthStore.

Lemma trimmedName_trimmed x n :
  trimmedName x = Some n -> n <> "" /\ trim n = n /\ exists s, x = Some s /\ n = trim s.
Proof.
  destruct x as [s|]; [|discriminate]. unfold trimmedName.
  destruct (truthy (trim s)) eqn:Ht; [|discriminate]. intros [= <-].
  split; [intros H; rewrite H in Ht; discriminate|].
  split; [apply trim_idem | now exists s].
Qed.

Lemma trimmedName_None x :
  trimmedName x = None <-> (forall s, x = Some s -> trim s = "").
Proof.
  destruct x as [s|]; unfold trimmedName.
  - destruct (truthy (trim s)) eqn:Ht.
    + split; [discriminate|]. intros H. rewrite (H s eq_refl) in Ht. discriminate.
    + split; [|reflexivity]. intros _ s' [= <-]. now apply truthy_false.
  - split; [discriminate | reflexivity].
Qed.

(** X25. The display name is never blank and carries no white space
    around it: it is the trimmed profile name when that is not blank;
    otherwise the trimmed user name when that is not blank; otherwise the
    trimmed e-mail address when that is not blank (a name that is missing
    counts as blank); and [Account] when all three are blank or there is
    no user. *)
Theorem displayName_is_never_blank (st : Store) :
  displayName st <> "" /\
  trim (displayName st) = displayName st /\
  (displayName st = "Account" \/
   exists u s,
     user st = Some u /\ displayName st = trim s /\
     ((exists p, profile u = Some p /\ display_name p = Some s) \/
      username u = Some s \/ email u = Some s)) /\
  (user st = None -> displayName st = "Account") /\
  (forall u, user st = Some u ->
     let name := match profile u with Some p => display_name p | None => None end in
     let blank (x : option string) := forall s, x = Some s -> trim s = "" in
     (forall s, name = Some s -> trim s <> "" -> displayName st = trim s) /\
     (blank name ->
      forall s, username u = Some s -> trim s <> "" -> displayName st = trim s) /\
     (blank name -> blank (username u) ->
      forall s, email u = Some s -> trim s <> "" -> displayName st = trim s) /\
     (blank name -> blank (username u) -> blank (email u) -> displayName st = "Account")).
Proof.
  assert (forall s, trim s <> "" -> trimmedName (Some s) = Some (trim s)) as Huse.
  { intros s Hs. unfold trimmedName, truthy.
    now rewrite (proj2 (negb_true_iff _) (proj2 (String.eqb_neq _ _) Hs)). }
  unfold displayName. destruct (user st) as [u|].
  2:{ cbn. repeat split; try discriminate. now left. }
  split; [|split; [|split; [|split; [discriminate|]]]].
  4:{ intros u' [= <-]. cbv zeta.
      split; [intros s -> Hs; now rewrite (Huse s Hs)|].
      split; [intros Hn s -> Hs;
              now rewrite (proj2 (trimmedName_None _) Hn), (Huse s Hs)|].
      split; [intros Hn Hu s -> Hs;
              now rewrite (proj2 (trimmedName_None _) Hn),
                (proj2 (trimmedName_None _) Hu), (Huse s Hs)|].
      intros Hn Hu He.
      now rewrite (proj2 (trimmedName_None _) Hn), (proj2 (trimmedName_None _) Hu),
        (proj2 (trimmedName_None _) He). }
  all: destruct (trimmedName (match profile u with Some p => display_name p | None => None end))
    as [n|] eqn:H1;
    [destruct (trimmedName_trimmed _ _ H1) as [Hne [Htrim [s [Hs ->]]]]|
     destruct (trimmedName (username u)) as [n|] eqn:H2;
     [destruct (trimmedName_trimmed _ _ H2) as [Hne [Htrim [s [Hs ->]]]]|
      destruct (trimmedName (email u)) as [n|] eqn:H3;
      [destruct (trimmedName_trimmed _ _ H3) as [Hne [Htrim [s [Hs ->]]]]|]]];
    try exact Hne; try exact Htrim; try discriminate; try reflexivity.
  - right. exists u, s. split; [reflexivity|]. split; [reflexivity|]. left.
    destruct (profile u) as [p|]; [|discriminate]. now exists p.
  - right. exists u, s. tauto.
  - right. exists u, s. tauto.
  - now left.
Qed.

Section Sessions.

Variable JSON_stringify : User -> string.

Lemma handle_token ev st :
  (localStorage st !! "token" = None \/ localStorage st !! "token" = token st) ->
  localStorage (handle JSON_stringify ev st) !! "token" = None \/
  localStorage (handle JSON_stringify ev st) !! "token" = token (handle JSON_stringify ev st).
Proof.
  intros H. destruct ev as [newToken newUser| |[data|]|]; cbn.
  - right. rewrite lookup_insert_ne by discriminate. apply lookup_insert_eq.
  - left. rewrite lookup_delete_ne by discriminate. apply lookup_delete_eq.
  - rewrite lookup_insert_ne by discriminate. exact H.
  - left. rewrite lookup_delete_ne by discriminate. apply lookup_delete_eq.
  - left. rewrite lookup_delete_ne by discriminate. apply lookup_delete_eq.
Qed.

Lemma runEvents_token evs st :
  (localStorage st !! "token" = None \/ localStorage st !! "token" = token st) ->
  localStorage (runEvents JSON_stringify evs st) !! "token" = None \/
  localStorage (runEvents JSON_stringify evs st) !! "token"
  = token (runEvents JSON_stringify evs st).
Proof.
  revert st. induction evs as [|ev evs IH]; intros st H; [exact H|].
  cbn. apply IH. now apply handle_token.
Qed.

(** X26. The token the API client attaches to a request is the token of
    the store. Whatever the sign-ins, sign-outs, profile loads and 401
    answers since the store was set up, the stored token is the store's or
    none; so when the request interceptor sends an [Authorization] header
    of its own, the store is authenticated and the header is [Bearer]
    followed by its token. After a sign-out nothing is stored, no profile
    is asked for and no permission is granted. *)
Theorem attached_token_is_the_store_token (evs : list Event)
    (storage : gmap string string) (parsedUser : option User) :
  let st := runEvents JSON_stringify evs (initialStore storage parsedUser) in
  (forall b, ApiClient.bearer (localStorage st) = Some b ->
     isAuthenticated st = true /\
     exists t, token st = Some t /\ b = ("Bearer " ++ t)%string) /\
  (let out := logout st in
   ApiClient.bearer (localStorage out) = None /\
   localStorage out !! "user" = None /\
   isAuthenticated out = false /\ asksForUser out = false /\
   (forall permission, hasPermission permission out = false) /\
   isCurator out = false /\ isTeacher out = false /\ displayName out = "Account").
Proof.
  cbv zeta. split.
  - intros b Hb.
    destruct (runEvents_token evs (initialStore storage parsedUser)) as [Hnone|Hsame];
      [now right | |].
    + unfold ApiClient.bearer in Hb. rewrite Hnone in Hb. discriminate.
    + unfold ApiClient.bearer in Hb. rewrite Hsame in Hb. unfold isAuthenticated.
      destruct (token _) as [t|]; [|discriminate].
      destruct (truthy t); [|discriminate]. injection Hb as <-.
      split; [reflexivity|]. now exists t.
  - unfold ApiClient.bearer. cbn.
    rewrite lookup_delete_ne by discriminate. rewrite lookup_delete_eq.
    rewrite lookup_delete_eq. repeat split.
Qed.

End Sessions.

End AuthStoreFacts.
